(** * Ledger synchronisation and webhook ingestion: a shallow embedding

    The development follows the TypeScript sources

      - functions/src/etsy/ledgerSync.ts        (module [LedgerSync])
      - the second revision of the same file    (module [LedgerSyncGated],
        the one that defines ETSY_SYNC_ENABLED)
      - functions/src/starling/webhook.ts       (modules [FeedItem] and
        [Webhook], the two handlers [starlingFeedItem] and [starlingWebhook])
      - the class FirestoreSecurityDataStorage  (module [TokenStorage])

    JavaScript values are an inductive type, the Firestore database is a
    finite map from document paths to document data, and every function of
    the sources is a computation in a state-and-exception monad over a
    [World]: the database, the trace of observable events, and the counters
    that index the answers of the outside world (the remote API, storage
    faults).

    What stays outside: the libraries the sources call. The Etsy client is
    the function [remote] of the environment (its own use of the token
    storage [FirestoreSecurityDataStorage] is not followed; module
    [LedgerSyncWith] takes the client as the parameter it is), JSON parsing,
    base64 decoding and the RSA-SHA512 check are functions of the
    environment, and a refusal of the Firestore SDK (a rejected promise, a
    path it does not accept) is a fault the environment may raise at any
    storage operation. Numbers are integers, and strings are compared and
    lower-cased byte by byte. *)

From Stdlib Require Import ZArith List Bool Ascii String Lia.
From stdpp Require Import base option list strings gmap fin_maps pretty.

Import ListNotations.
Local Open Scope string_scope.
Set Warnings "-register-all".

(* ===================================================================== *)
(** ** JavaScript values *)
(* ===================================================================== *)

Module Js.

(** The values that JSON, the remote API and Firestore documents carry.
    Numbers are the integers (identifiers, counts and timestamps in
    seconds are the only numbers the sources compute with). An object is
    the list of its own properties; a property that is not listed reads
    as [undefined], which is [None] wherever a value is read. *)
Inductive JsValue : Type :=
| JNull
| JBool (b : bool)
| JNum (n : Z)
| JStr (s : string)
| JArr (items : list JsValue)
| JObj (fields : list (string * JsValue)).

(** [o[k]] for an object given by its property list. *)
Fixpoint assoc (k : string) (fields : list (string * JsValue))
  : option JsValue :=
  match fields with
  | [] => None
  | (k', v) :: rest => if String.eqb k k' then Some v else assoc k rest
  end.

(** [v[k]] for a property name [k] that is neither an index nor a
    built-in of a primitive: [undefined] on every value but an object
    that lists it. (On [null] the read throws; callers check that
    first, see [FeedItem.starlingFeedItem].) *)
Definition prop (v : JsValue) (k : string) : option JsValue :=
  match v with
  | JObj fields => assoc k fields
  | _ => None
  end.

(** Truthiness, as [!x] and [||] test it; [None] is [undefined]. *)
Definition truthy (v : option JsValue) : bool :=
  match v with
  | None => false
  | Some JNull => false
  | Some (JBool b) => b
  | Some (JNum n) => negb (n =? 0)%Z
  | Some (JStr s) => negb (String.eqb s "")
  | Some (JArr _) => true
  | Some (JObj _) => true
  end.

(** Decimal rendering of an integer, as a template literal prints it. *)
Definition show_Z (n : Z) : string := pretty n.

Definition join (sep : string) (parts : list string) : string :=
  String.concat sep parts.

(** [`${v}`]: the string conversion of a template literal. *)
Fixpoint to_string (v : JsValue) : string :=
  match v with
  | JNull => "null"
  | JBool true => "true"
  | JBool false => "false"
  | JNum n => show_Z n
  | JStr s => s
  | JArr items =>
      join "," (List.map (fun x => match x with
                                   | JNull => ""
                                   | _ => to_string x
                                   end) items)
  | JObj _ => "[object Object]"
  end.

(** [`${v}`] where [v] may be [undefined]. *)
Definition to_string_opt (v : option JsValue) : string :=
  match v with
  | None => "undefined"
  | Some x => to_string x
  end.

(** [v + n] for a number [n]: addition on numbers, booleans and [null],
    string concatenation on everything else. *)
Definition add_num (v : JsValue) (n : Z) : JsValue :=
  match v with
  | JNum a => JNum (a + n)
  | JBool b => JNum ((if b then 1 else 0) + n)
  | JNull => JNum n
  | _ => JStr (to_string v +:+ show_Z n)
  end.

(** [v !== undefined]. *)
Definition is_defined (v : option JsValue) : bool :=
  match v with
  | Some _ => true
  | None => false
  end.

(** A value known not to be [undefined] (a truthy one, say). *)
Definition defined (v : option JsValue) : JsValue :=
  match v with
  | Some x => x
  | None => JNull
  end.

(** [v === 0]. *)
Definition is_zero (v : JsValue) : bool :=
  match v with
  | JNum n => (n =? 0)%Z
  | _ => false
  end.

Definition lower_ascii (c : ascii) : ascii :=
  let n := nat_of_ascii c in
  if (65 <=? n)%nat && (n <=? 90)%nat then ascii_of_nat (n + 32) else c.

(** [s.toLowerCase()] on the ASCII letters. *)
Fixpoint toLowerCase (s : string) : string :=
  match s with
  | EmptyString => EmptyString
  | String c rest => String (lower_ascii c) (toLowerCase rest)
  end.

Definition is_space (c : ascii) : bool :=
  let n := nat_of_ascii c in
  (n =? 32)%nat || ((9 <=? n)%nat && (n <=? 13)%nat).

Definition digit_of (c : ascii) : option Z :=
  let n := nat_of_ascii c in
  if (48 <=? n)%nat && (n <=? 57)%nat then Some (Z.of_nat (n - 48)) else None.

Fixpoint skip_spaces (s : string) : string :=
  match s with
  | String c rest => if is_space c then skip_spaces rest else s
  | EmptyString => EmptyString
  end.

(** The longest prefix of decimal digits, read into [acc]; the flag says
    whether a digit was read. *)
Fixpoint read_digits (s : string) (acc : Z) (seen : bool) : Z * bool :=
  match s with
  | String c rest =>
      match digit_of c with
      | Some d => read_digits rest (10 * acc + d) true
      | None => (acc, seen)
      end
  | EmptyString => (acc, seen)
  end.

(** [parseInt(s, 10)]; [None] is [NaN]. The blanks skipped are the ASCII
    ones and the value is the exact integer: the two agree on ASCII input
    below 2^53 (past it [parseInt] rounds to a double, and it also skips
    the blanks of Unicode). *)
Definition parseInt10 (s : string) : option Z :=
  let s1 := skip_spaces s in
  let '(neg, s2) :=
    match s1 with
    | String "-" rest => (true, rest)
    | String "+" rest => (false, rest)
    | _ => (false, s1)
    end in
  let '(n, seen) := read_digits s2 0 false in
  if seen then Some (if neg then (- n)%Z else n) else None.

End Js.
Export Js.


(* ===================================================================== *)
(** ** The world: database, trace, outside answers *)
(* ===================================================================== *)

(** A JavaScript object given by its own properties (a ledger entry as the
    remote API returns it, typed [IPaymentAccountLedgerEntry]). *)
Abbreviation Entry := (list (string * JsValue)).

(** A thrown value: the error's name and message. *)
Inductive Error : Type :=
| JsError (name message : string).

Inductive Level : Type := Info | Warn | Err.

(** The second argument of a [logger] call. *)
Inductive LogArg : Type :=
| LVal (v : JsValue)
| LErr (e : Error).

(** The argument of [getShopPaymentAccountLedgerEntries]; [options] is the
    second argument of the call ([{ etsyUserId: 0 }] in one revision,
    nothing in the other). *)
Record Request : Type := mkRequest {
  shopId : Z;
  min_created : JsValue;
  max_created : JsValue;
  limit : Z;
  offset : Z;
  options : option Z
}.

(** What a call of the remote API does: it throws, or it resolves to a
    response whose [data.results] is an array of entries or is missing. *)
Inductive ApiResult : Type :=
| ApiThrows (e : Error)
| ApiPage (results : option (list Entry)).

Inductive Event : Type :=
| EvLog (lvl : Level) (msg : string) (arg : option LogArg)
| EvFetch (r : Request)
| EvQuery (collection field : string)
| EvCommit (writes : list (string * Entry))
| EvSet (path : string) (data : JsValue)
| EvVerify (body signature : list Byte.byte).

(** What the code cannot decide: the answers of the remote API (by call
    number and request), storage faults (by operation number), the JSON
    parser, and the RSA-SHA512 check against the key loaded at start-up. *)
Record Env : Type := mkEnv {
  remote : nat -> Request -> ApiResult;
  fs_fault : nat -> option Error;
  json_parse : list Byte.byte -> option JsValue;
  base64_decode : string -> list Byte.byte;
  rsa_sha512_verify : list Byte.byte -> list Byte.byte -> bool
}.

Record World : Type := mkWorld {
  store : gmap string JsValue;
  trace : list Event;
  api_calls : nat;
  fs_ops : nat;
  clock_ms : Z
}.

Definition with_store (s : gmap string JsValue) (w : World) : World :=
  mkWorld s (trace w) (api_calls w) (fs_ops w) (clock_ms w).

Definition emit (ev : Event) (w : World) : World :=
  mkWorld (store w) (trace w ++ [ev]) (api_calls w) (fs_ops w) (clock_ms w).

Definition tick_api (w : World) : World :=
  mkWorld (store w) (trace w) (S (api_calls w)) (fs_ops w) (clock_ms w).

Definition tick_fs (w : World) : World :=
  mkWorld (store w) (trace w) (api_calls w) (S (fs_ops w)) (clock_ms w).

(* ===================================================================== *)
(** ** The monad of the sources: state, exceptions, and fuel *)
(* ===================================================================== *)

Inductive Outcome (A : Type) : Type :=
| Ok (a : A)
| Throw (e : Error)
| Diverge.
Arguments Ok {A} a.
Arguments Throw {A} e.
Arguments Diverge {A}.

Definition M (A : Type) : Type := World -> Outcome A * World.

Definition ret {A} (a : A) : M A := fun w => (Ok a, w).

Definition throw {A} (e : Error) : M A := fun w => (Throw e, w).

Definition diverge {A} : M A := fun w => (Diverge, w).

Definition bind {A B} (m : M A) (k : A -> M B) : M B :=
  fun w =>
    match m w with
    | (Ok a, w') => k a w'
    | (Throw e, w') => (Throw e, w')
    | (Diverge, w') => (Diverge, w')
    end.

(** [try { m } catch (e) { h e }]. *)
Definition try_catch {A} (m : M A) (h : Error -> M A) : M A :=
  fun w =>
    match m w with
    | (Throw e, w') => h e w'
    | r => r
    end.

Declare Scope js_scope.
Delimit Scope js_scope with js.
Notation "x <- m ;; k" := (bind m (fun x => k))
  (at level 100, m at next level, right associativity) : js_scope.
Notation "m ;; k" := (bind m (fun _ => k))
  (at level 100, right associativity) : js_scope.
Local Open Scope js_scope.

Definition log (lvl : Level) (msg : string) (arg : option LogArg) : M unit :=
  fun w => (Ok tt, emit (EvLog lvl msg arg) w).

(** [Math.floor(Date.now() / 1000)]. *)
Definition now_seconds : M Z := fun w => (Ok (clock_ms w / 1000)%Z, w).

Definition thirty_days : Z := (30 * 24 * 60 * 60)%Z.

(** [xs.filter(f)] for a callback with effects: left to right. *)
Fixpoint filterM {A} (f : A -> M bool) (xs : list A) : M (list A) :=
  match xs with
  | [] => ret []
  | x :: rest =>
      keep <- f x ;;
      kept <- filterM f rest ;;
      ret (if keep then x :: kept else kept)
  end.

(* ===================================================================== *)
(** ** Firestore: documents by path, writes, batches, one ordered query *)
(* ===================================================================== *)

Module Firestore.
Section WithEnv.
Context (E : Env).

(** Modelled from the spec: the storage backend is outside the repository;
    a merge-upsert "creates the document if absent or shallow-merges fields
    into an existing document". The fields of the new record win, the
    fields only the stored document has are kept. *)
Definition merge_fields (old new : Entry) : Entry :=
  new ++ List.filter (fun kv => negb (is_defined (assoc (fst kv) new))) old.

Definition merge_doc (old : option JsValue) (new : Entry) : JsValue :=
  match old with
  | Some (JObj fields) => JObj (merge_fields fields new)
  | _ => JObj new
  end.

(** One [batch.set(doc(path), entry, { merge: true })], applied. *)
Definition apply_write (s : gmap string JsValue) (wr : string * Entry)
  : gmap string JsValue :=
  <[fst wr := merge_doc (s !! fst wr) (snd wr)]> s.

Definition apply_writes (s : gmap string JsValue) (writes : list (string * Entry))
  : gmap string JsValue :=
  fold_left apply_write writes s.

(** An awaited storage operation: the call is recorded, the operation
    counter advances, and the operation either rejects with the fault the
    environment gives this operation (the database is then untouched) or
    takes effect. *)
Definition fs_op {A} (ev : Event) (act : World -> A * World) : M A :=
  fun w =>
    let w1 := tick_fs (emit ev w) in
    match fs_fault E (fs_ops w) with
    | Some e => (Throw e, w1)
    | None => let (a, w2) := act w1 in (Ok a, w2)
    end.

(** [await firestore.doc(path).set(data)]: the document is replaced. *)
Definition doc_set (path : string) (data : JsValue) : M unit :=
  fs_op (EvSet path data)
        (fun w => (tt, with_store (<[path := data]> (store w)) w)).

(** [await batch.commit()] of the merge-writes in [writes]: all or none. *)
Definition batch_commit (writes : list (string * Entry)) : M unit :=
  fs_op (EvCommit writes)
        (fun w => (tt, with_store (apply_writes (store w) writes) w)).

(** [v.a.b...] for a field path; [None] when a step is missing. *)
Fixpoint field_at (path : list string) (v : JsValue) : option JsValue :=
  match path with
  | [] => Some v
  | k :: rest =>
      match prop v k with
      | Some v' => field_at rest v'
      | None => None
      end
  end.

Fixpoint strip_prefix (p s : string) : option string :=
  match p with
  | EmptyString => Some s
  | String c p' =>
      match s with
      | String d s' => if Ascii.eqb c d then strip_prefix p' s' else None
      | EmptyString => None
      end
  end.

Fixpoint has_slash (s : string) : bool :=
  match s with
  | EmptyString => false
  | String c rest => Ascii.eqb c "/" || has_slash rest
  end.

(** [path] names a document directly inside [collection]. *)
Definition child_of (collection path : string) : bool :=
  match strip_prefix (collection +:+ "/") path with
  | Some id => negb (String.eqb id "") && negb (has_slash id)
  | None => false
  end.

(** Firestore's order on values of mixed types: by type first. *)
Definition type_rank (v : JsValue) : nat :=
  match v with
  | JNull => 0
  | JBool _ => 1
  | JNum _ => 2
  | JStr _ => 3
  | JArr _ => 4
  | JObj _ => 5
  end.

Definition value_ltb (a b : JsValue) : bool :=
  match a, b with
  | JBool x, JBool y => negb x && y
  | JNum x, JNum y => (x <? y)%Z
  | JStr x, JStr y => String.ltb x y
  | _, _ => (type_rank a <? type_rank b)%nat
  end.

(** A candidate of the ordered query: path, data, value of the order field. *)
Definition Candidate : Type := string * JsValue * JsValue.

(** [c1] comes before [c2] in descending order (ties by document name). *)
Definition before_desc (c1 c2 : Candidate) : bool :=
  let '(p1, _, k1) := c1 in
  let '(p2, _, k2) := c2 in
  value_ltb k2 k1 || (negb (value_ltb k1 k2) && String.ltb p2 p1).

Definition candidates (collection : string) (field : list string)
    (s : gmap string JsValue) : list Candidate :=
  omap (fun kv : string * JsValue =>
          if child_of collection (fst kv)
          then match field_at field (snd kv) with
               | Some k => Some (fst kv, snd kv, k)
               | None => None
               end
          else None)
       (map_to_list s).

Definition pick_first (best : option Candidate) (c : Candidate)
  : option Candidate :=
  match best with
  | None => Some c
  | Some b => if before_desc c b then Some c else Some b
  end.

(** The documents of
    [collection(c).orderBy(field, "desc").limit(1)]: an ordered query only
    sees the documents that have the order field. *)
Definition top_desc (collection : string) (field : list string)
    (s : gmap string JsValue) : list JsValue :=
  match fold_left pick_first (candidates collection field s) None with
  | Some (_, data, _) => [data]
  | None => []
  end.

(** [await collection(c).orderBy(field, "desc").limit(1).get()]; the
    result is [snapshot.docs] as the list of the documents' data. *)
Definition query_top_desc (collection : string) (field : list string)
  : M (list JsValue) :=
  fs_op (EvQuery collection (join "." field))
        (fun w => (top_desc collection field (store w), w)).

End WithEnv.
End Firestore.

(* ===================================================================== *)
(** ** functions/src/etsy/ledgerSync.ts *)
(* ===================================================================== *)

(** The deployment's parameters ([defineString]); [ETSY_SYNC_ENABLED] is
    [None] when it is not set. *)
Record Config : Type := mkConfig {
  ETSY_API_KEY : string;
  ETSY_SHARED_SECRET : string;
  ETSY_SHOP_ID : string;
  ETSY_SYNC_ENABLED : option string
}.

(** [entries.length] as a number. *)
Definition len {A} (xs : list A) : Z := Z.of_nat (length xs).

(** [await client.LedgerEntry.getShopPaymentAccountLedgerEntries(r, ..)]:
    the call is recorded and answered by the environment. This client
    leaves the database alone; what the page loop does around a client
    that writes on its own account (a token refresh through the storage it
    was built with) is the subject of [LedgerSyncWith]. *)
Definition api_fetch (E : Env) (r : Request) : M (option (list Entry)) :=
  fun w =>
    let w1 := tick_api (emit (EvFetch r) w) in
    match remote E (api_calls w) r with
    | ApiThrows e => (Throw e, w1)
    | ApiPage results => (Ok results, w1)
    end.

(** [response.data.results || []]. *)
Definition results_or_empty (results : option (list Entry)) : list Entry :=
  match results with
  | Some entries => entries
  | None => []
  end.

Module LedgerSync.
Section WithEnv.
Context (E : Env).

Definition getLastSyncTimestamp : M JsValue :=
  try_catch
    (snapshot <- Firestore.query_top_desc E "events/etsy/ledgerentry"
                   ["body"; "created_timestamp"] ;;
     match snapshot with
     | [] =>
         now <- now_seconds ;;
         let thirtyDaysAgo := (now - thirty_days)%Z in
         log Info ("No existing entries found, using default: "
                   +:+ show_Z thirtyDaysAgo) None ;;
         ret (JNum thirtyDaysAgo)
     | lastEntry :: _ =>
         let timestamp :=
           match prop lastEntry "body" with
           | None | Some JNull => None
           | Some body => prop body "created_timestamp"
           end in
         if negb (truthy timestamp) then
           log Warn "Last entry missing created_timestamp, using 30 days ago"
               None ;;
           now <- now_seconds ;;
           ret (JNum (now - thirty_days))
         else
           log Info ("Last sync timestamp: " +:+ to_string_opt timestamp) None ;;
           ret (defined timestamp)
     end)
    (fun error =>
       log Err "Error getting last sync timestamp:" (Some (LErr error)) ;;
       now <- now_seconds ;;
       ret (JNum (now - thirty_days))).

(** The callback of [entries.filter]. *)
Definition keep_entry (entry : Entry) : M bool :=
  if negb (truthy (assoc "entry_id" entry)) then
    log Warn "Entry missing entry_id, skipping:" (Some (LVal (JObj entry))) ;;
    ret false
  else ret true.

(** [`events/etsy/ledgerentry/${entry.entry_id}`]. *)
Definition entry_path (entry : Entry) : string :=
  "events/etsy/ledgerentry/" +:+ to_string_opt (assoc "entry_id" entry).

Definition persistBatch (entries : list Entry) : M Z :=
  if (len entries =? 0)%Z then ret 0%Z
  else
    validEntries <- filterM keep_entry entries ;;
    if (len validEntries =? 0)%Z then ret 0%Z
    else
      let batch := List.map (fun entry => (entry_path entry, entry)) validEntries in
      Firestore.batch_commit E batch ;;
      log Info ("Persisted " +:+ show_Z (len validEntries) +:+ " entries") None ;;
      ret (len validEntries).

Section Fetch.
Context (shopId : Z) (minCreated maxCreated : JsValue).

Definition limit : Z := 100.

Definition page_request (offset : Z) : Request :=
  mkRequest shopId minCreated maxCreated limit offset (Some 0%Z).

(** The recursion of [processPage] is on the answers of the remote API;
    [fuel] bounds the number of pages, and running out of it is [Diverge]. *)
Fixpoint processPage (fuel : nat) (offset totalPersisted : Z) : M Z :=
  match fuel with
  | O => diverge
  | S fuel' =>
      log Info ("Fetching ledger entries: offset=" +:+ show_Z offset
                +:+ ", limit=" +:+ show_Z limit) None ;;
      response <- api_fetch E (page_request offset) ;;
      let entries := results_or_empty response in
      log Info ("Received " +:+ show_Z (len entries) +:+ " entries") None ;;
      persistedCount <- persistBatch entries ;;
      let newTotal := (totalPersisted + persistedCount)%Z in
      if (len entries =? 0)%Z || (len entries <? limit)%Z then ret newTotal
      else processPage fuel' (offset + limit)%Z newTotal
  end.

Definition fetchAndPersistLedgerEntries (fuel : nat) : M Z :=
  try_catch
    (totalPersisted <- processPage fuel 0%Z 0%Z ;;
     log Info ("Total entries persisted: " +:+ show_Z totalPersisted) None ;;
     ret totalPersisted)
    (fun error =>
       log Err "Error fetching and persisting ledger entries:"
           (Some (LErr error)) ;;
       throw error).

End Fetch.

Definition etsyLedgerSync (cfg : Config) (fuel : nat) : M unit :=
  log Info "Starting Etsy ledger sync" None ;;
  try_catch
    (let shopIdStr := ETSY_SHOP_ID cfg in
     match parseInt10 shopIdStr with
     | None => throw (JsError "Error" "Invalid ETSY_SHOP_ID configuration")
     | Some shopIdNum =>
         log Info ("Using shop ID " +:+ show_Z shopIdNum) None ;;
         lastSyncTimestamp <- getLastSyncTimestamp ;;
         currentTimestamp <- now_seconds ;;
         log Info ("Syncing entries from " +:+ to_string lastSyncTimestamp
                   +:+ " to " +:+ show_Z currentTimestamp) None ;;
         persistedCount <- fetchAndPersistLedgerEntries shopIdNum
                             lastSyncTimestamp (JNum currentTimestamp) fuel ;;
         log Info ("Etsy ledger sync completed: " +:+ show_Z persistedCount
                   +:+ " entries persisted") None
     end)
    (fun error =>
       log Err "Etsy ledger sync failed:" (Some (LErr error)) ;;
       throw error).

End WithEnv.
End LedgerSync.

(* ===================================================================== *)
(** ** The revision of ledgerSync.ts with the ETSY_SYNC_ENABLED parameter *)
(* ===================================================================== *)

Module LedgerSyncGated.
Section WithEnv.
Context (E : Env).

(** [etsySyncEnabled.value()]: the parameter, or its default ["false"]. *)
Definition etsySyncEnabled (cfg : Config) : string :=
  match ETSY_SYNC_ENABLED cfg with
  | Some v => v
  | None => "false"
  end.

(** Returns a number or [null]; [None] is [null]. *)
Definition getLastSyncTimestamp : M (option JsValue) :=
  try_catch
    (snapshot <- Firestore.query_top_desc E "events/etsy/ledgerentry"
                   ["body"; "created_timestamp"] ;;
     match snapshot with
     | [] =>
         log Info "No existing entries found" None ;;
         ret None
     | lastEntry :: _ =>
         let timestamp :=
           match prop lastEntry "body" with
           | None | Some JNull => None
           | Some body => prop body "created_timestamp"
           end in
         if negb (truthy timestamp) then
           log Warn "Last entry missing created_timestamp" None ;;
           ret None
         else
           log Info ("Last sync timestamp: " +:+ to_string_opt timestamp) None ;;
           ret (Some (defined timestamp))
     end)
    (fun error =>
       log Err "Error getting last sync timestamp:" (Some (LErr error)) ;;
       ret None).

Definition keep_entry (entry : Entry) : M bool :=
  if negb (truthy (assoc "entry_id" entry)) then
    log Warn "Entry missing entry_id, skipping:" (Some (LVal (JObj entry))) ;;
    ret false
  else ret true.

Definition entry_path (entry : Entry) : string :=
  "events/etsy/ledgerentry/" +:+ to_string_opt (assoc "entry_id" entry).

Definition persistBatch (entries : list Entry) : M Z :=
  if (len entries =? 0)%Z then ret 0%Z
  else
    validEntries <- filterM keep_entry entries ;;
    if (len validEntries =? 0)%Z then ret 0%Z
    else
      let batch := List.map (fun entry => (entry_path entry, entry)) validEntries in
      Firestore.batch_commit E batch ;;
      log Info ("Persisted " +:+ show_Z (len validEntries) +:+ " entries") None ;;
      ret (len validEntries).

Section Fetch.
Context (shopId : Z) (minCreated maxCreated : JsValue).

Definition limit : Z := 100.

(** This revision passes no second argument to the client. *)
Definition page_request (offset : Z) : Request :=
  mkRequest shopId minCreated maxCreated limit offset None.

Fixpoint processPage (fuel : nat) (offset totalPersisted : Z) : M Z :=
  match fuel with
  | O => diverge
  | S fuel' =>
      log Info ("Fetching ledger entries: offset=" +:+ show_Z offset
                +:+ ", limit=" +:+ show_Z limit) None ;;
      response <- api_fetch E (page_request offset) ;;
      let entries := results_or_empty response in
      log Info ("Received " +:+ show_Z (len entries) +:+ " entries") None ;;
      persistedCount <- persistBatch entries ;;
      let newTotal := (totalPersisted + persistedCount)%Z in
      if (len entries =? 0)%Z || (len entries <? limit)%Z then ret newTotal
      else processPage fuel' (offset + limit)%Z newTotal
  end.

Definition fetchAndPersistLedgerEntries (fuel : nat) : M Z :=
  try_catch
    (totalPersisted <- processPage fuel 0%Z 0%Z ;;
     log Info ("Total entries persisted: " +:+ show_Z totalPersisted) None ;;
     ret totalPersisted)
    (fun error =>
       log Err "Error fetching and persisting ledger entries:"
           (Some (LErr error)) ;;
       throw error).

End Fetch.

Definition etsyLedgerSync (cfg : Config) (fuel : nat) : M unit :=
  if negb (String.eqb (toLowerCase (etsySyncEnabled cfg)) "true") then
    log Info "Etsy ledger sync is disabled via configuration" None ;;
    ret tt
  else
    log Info "Starting Etsy ledger sync" None ;;
    try_catch
      (let shopIdStr := ETSY_SHOP_ID cfg in
       match parseInt10 shopIdStr with
       | None => throw (JsError "Error" "Invalid ETSY_SHOP_ID configuration")
       | Some shopIdNum =>
           log Info ("Using shop ID " +:+ show_Z shopIdNum) None ;;
           last <- getLastSyncTimestamp ;;
           let lastSyncTimestamp :=
             match last with
             | Some t => t
             | None => JNum 0
             end in
           log Info (if is_zero lastSyncTimestamp
                     then "Starting sync from Unix epoch (no previous entries)"
                     else "Starting sync from timestamp: "
                          +:+ to_string lastSyncTimestamp) None ;;
           let thirtyDaysInSeconds := thirty_days in
           let toTimestamp := add_num lastSyncTimestamp thirtyDaysInSeconds in
           log Info ("Syncing entries from " +:+ to_string lastSyncTimestamp
                     +:+ " to " +:+ to_string toTimestamp) None ;;
           persistedCount <- fetchAndPersistLedgerEntries shopIdNum
                               lastSyncTimestamp toTimestamp fuel ;;
           log Info ("Etsy ledger sync completed: " +:+ show_Z persistedCount
                     +:+ " entries persisted") None
       end)
      (fun error =>
         log Err "Etsy ledger sync failed:" (Some (LErr error)) ;;
         throw error).

End WithEnv.
End LedgerSyncGated.

(* ===================================================================== *)
(** ** functions/src/starling/webhook.ts *)
(* ===================================================================== *)

(** A header of an incoming request: one string, or an array of strings
    when it is multi-valued. *)
Inductive HeaderValue : Type :=
| Single (s : string)
| Multi (values : list string).

Record HttpRequest : Type := mkHttpRequest {
  rawBody : list Byte.byte;
  headers : gmap string HeaderValue
}.

(** What the handler sends: [res.status(n).json(v)] or [res.status(n).send()]. *)
Record HttpResponse : Type := mkHttpResponse {
  status : Z;
  body : option JsValue
}.

Definition header_to_js (h : HeaderValue) : JsValue :=
  match h with
  | Single s => JStr s
  | Multi values => JArr (List.map JStr values)
  end.

(** [req.headers] as the object that is stored. *)
Definition headers_to_js (hs : gmap string HeaderValue) : JsValue :=
  JObj (List.map (fun kv => (fst kv, header_to_js (snd kv))) (map_to_list hs)).

(** [!h] for a header that may be absent. *)
Definition header_falsy (h : option HeaderValue) : bool :=
  match h with
  | None => true
  | Some (Single s) => String.eqb s ""
  | Some (Multi _) => false
  end.

(** [Array.isArray(h)]. *)
Definition header_is_array (h : option HeaderValue) : bool :=
  match h with
  | Some (Multi _) => true
  | _ => false
  end.

(** [verify("RSA-SHA512", rawBody, PUBLIC_KEY_OBJECT, signature)]. *)
Definition crypto_verify (E : Env) (body signature : list Byte.byte) : M bool :=
  fun w => (Ok (rsa_sha512_verify E body signature),
            emit (EvVerify body signature) w).

Definition integrity_error : JsValue :=
  JObj [("error", JStr "Integrity of message signature could not be verified")].

Module FeedItem.
Section WithEnv.
Context (E : Env).

(** A header that is neither falsy nor an array is one non-empty string. *)
Definition verifyEvent (request : HttpRequest) : M bool :=
  let payloadSignatureBase64 := headers request !! "x-hook-signature" in
  if header_falsy payloadSignatureBase64
     || header_is_array payloadSignatureBase64 then
    log Err "Missing or invalid X-Hook-Signature header" None ;;
    ret false
  else
    match payloadSignatureBase64 with
    | Some (Single signature) =>
        crypto_verify E (rawBody request) (base64_decode E signature)
    | _ => ret false
    end.

(** [eventBodyJson["webhookEventUid"]]; reading a property of [null]
    throws a TypeError. *)
Definition read_event_id (eventBodyJson : JsValue) : M (option JsValue) :=
  match eventBodyJson with
  | JNull => throw (JsError "TypeError" "Cannot read properties of null")
  | _ => ret (prop eventBodyJson "webhookEventUid")
  end.

Definition starlingFeedItem (req : HttpRequest) : M HttpResponse :=
  verified <- verifyEvent req ;;
  if negb verified then
    ret (mkHttpResponse 400 (Some integrity_error))
  else
    match json_parse E (rawBody req) with
    | None => throw (JsError "SyntaxError" "Unexpected token in JSON")
    | Some eventBodyJson =>
        eventId <- read_event_id eventBodyJson ;;
        if negb (truthy eventId) then
          log Err "Missing webhookEventUid in payload" None ;;
          ret (mkHttpResponse 400
                 (Some (JObj [("error", JStr "Missing webhookEventUid in payload")])))
        else
          Firestore.doc_set E
            ("events/starling/feeditem/" +:+ to_string_opt eventId)
            (JObj [("body", eventBodyJson);
                   ("headers", headers_to_js (headers req))]) ;;
          ret (mkHttpResponse 202 None)
    end.

End WithEnv.
End FeedItem.

Module Webhook.
Section WithEnv.
Context (E : Env).

Definition verifyEvent (request : HttpRequest) : M bool :=
  let payloadSignatureBase64 := headers request !! "X-Hook-Signature" in
  if header_falsy payloadSignatureBase64
     || header_is_array payloadSignatureBase64 then
    log Err "Missing or invalid X-Hook-Signature header" None ;;
    ret false
  else
    match payloadSignatureBase64 with
    | Some (Single signature) =>
        crypto_verify E (rawBody request) (base64_decode E signature)
    | _ => ret false
    end.

Definition starlingWebhook (req : HttpRequest) : M HttpResponse :=
  verified <- verifyEvent req ;;
  (if verified
   then log Info "Message verified successfully. Dobzre :)" None
   else log Err "Message verification failed" None) ;;
  ret (if verified
       then mkHttpResponse 202 None
       else mkHttpResponse 400 (Some integrity_error)).

End WithEnv.
End Webhook.

(* ===================================================================== *)
(** ** Observations on worlds and traces *)
(* ===================================================================== *)

(** The world [w] after a run that left the database as [s], appended the
    events [evs], and made [a] remote calls and [f] storage operations. *)
Definition advance (s : gmap string JsValue) (evs : list Event) (a f : nat)
    (w : World) : World :=
  mkWorld s (trace w ++ evs) (a + api_calls w) (f + fs_ops w) (clock_ms w).

(** The requests sent to the remote API, in order. *)
Definition fetches (tr : list Event) : list Request :=
  omap (fun ev => match ev with EvFetch r => Some r | _ => None end) tr.

(** The batches handed to [commit], in order. *)
Definition commits (tr : list Event) : list (list (string * Entry)) :=
  omap (fun ev => match ev with EvCommit b => Some b | _ => None end) tr.

(** The single-document writes, in order. *)
Definition sets (tr : list Event) : list (string * JsValue) :=
  omap (fun ev => match ev with EvSet p d => Some (p, d) | _ => None end) tr.

(** The ordered queries, in order. *)
Definition queries (tr : list Event) : list (string * string) :=
  omap (fun ev => match ev with EvQuery c f => Some (c, f) | _ => None end) tr.

(** The cryptographic checks, in order. *)
Definition verifications (tr : list Event)
  : list (list Byte.byte * list Byte.byte) :=
  omap (fun ev => match ev with EvVerify b s => Some (b, s) | _ => None end) tr.

(** The values logged at level [Warn], in order. *)
Definition warned (tr : list Event) : list JsValue :=
  omap (fun ev => match ev with
                  | EvLog Warn _ (Some (LVal v)) => Some v
                  | _ => None
                  end) tr.

(** Everything but logging: remote calls and storage operations. *)
Definition is_io (ev : Event) : bool :=
  match ev with
  | EvLog _ _ _ => false
  | _ => true
  end.

Definition io (tr : list Event) : list Event := List.filter is_io tr.

(** An entry the filter of [persistBatch] keeps. *)
Definition has_id (entry : Entry) : bool := truthy (assoc "entry_id" entry).

Definition valid_entries (entries : list Entry) : list Entry :=
  List.filter has_id entries.

Definition dropped_entries (entries : list Entry) : list Entry :=
  List.filter (fun e => negb (has_id e)) entries.

(** The merge-writes of a page: one per kept entry, at the path of its id. *)
Definition batch_of (entries : list Entry) : list (string * Entry) :=
  List.map (fun e => (LedgerSync.entry_path e, e)) (valid_entries entries).

(** The database after the pages [ps] were persisted one after the other. *)
Definition store_after (s : gmap string JsValue) (ps : list (list Entry))
  : gmap string JsValue :=
  fold_left (fun acc p => Firestore.apply_writes acc (batch_of p)) ps s.

Definition total_valid (ps : list (list Entry)) : Z :=
  fold_right (fun p acc => (len (valid_entries p) + acc)%Z) 0%Z ps.

(** The entries a call resolves to, when it resolves. *)
Definition page_of (a : ApiResult) : option (list Entry) :=
  match a with
  | ApiPage results => Some (results_or_empty results)
  | ApiThrows _ => None
  end.

(** The remote API answers the calls number [i], [i+1], ... for the
    offsets [off], [off+100], ... with the pages [ps]. *)
Fixpoint serves (E : Env) (req_at : Z -> Request) (i : nat) (off : Z)
    (ps : list (list Entry)) : Prop :=
  match ps with
  | [] => True
  | p :: rest =>
      page_of (remote E i (req_at off)) = Some p
      /\ serves E req_at (S i) (off + 100)%Z rest
  end.

(** The requests for the first [n] pages. *)
Definition requests_from (req_at : Z -> Request) (n : nat) : list Request :=
  List.map (fun i => req_at (100 * Z.of_nat i)%Z) (seq 0 n).

(** The remote calls and commits of persisting the pages [ps], in order,
    the first of them requested at offset [off]. *)
Fixpoint io_of_pages (req_at : Z -> Request) (off : Z) (ps : list (list Entry))
  : list Event :=
  match ps with
  | [] => []
  | p :: rest =>
      EvFetch (req_at off)
      :: (match batch_of p with
          | [] => []
          | b => [EvCommit b]
          end)
      ++ io_of_pages req_at (off + 100)%Z rest
  end.

(** The warning [persistBatch] logs for an entry it drops. *)
Definition drop_log (entry : Entry) : Event :=
  EvLog Warn "Entry missing entry_id, skipping:" (Some (LVal (JObj entry))).

(** What [persistBatch] appends to the trace when no storage fault occurs:
    one warning per dropped entry, then the commit and its log line when
    an entry is left. *)
Definition persist_events (entries : list Entry) : list Event :=
  List.map drop_log (dropped_entries entries)
  ++ match batch_of entries with
     | [] => []
     | b => [EvCommit b;
             EvLog Info ("Persisted " +:+ show_Z (len (valid_entries entries))
                         +:+ " entries") None]
     end.

Definition commit_count (entries : list Entry) : nat :=
  match batch_of entries with
  | [] => 0
  | _ => 1
  end.

(** What one round of [processPage] appends to the trace when the page
    [p] is returned for the request at [off] and no storage fault occurs. *)
Definition page_events (req_at : Z -> Request) (off : Z) (p : list Entry)
  : list Event :=
  [EvLog Info ("Fetching ledger entries: offset=" +:+ show_Z off
               +:+ ", limit=" +:+ show_Z LedgerSync.limit) None;
   EvFetch (req_at off);
   EvLog Info ("Received " +:+ show_Z (len p) +:+ " entries") None]
  ++ persist_events p.

Fixpoint events_of_pages (req_at : Z -> Request) (off : Z)
    (ps : list (list Entry)) : list Event :=
  match ps with
  | [] => []
  | p :: rest =>
      page_events req_at off p ++ events_of_pages req_at (off + 100)%Z rest
  end.

Definition commits_in (ps : list (list Entry)) : nat :=
  fold_right (fun p acc => commit_count p + acc) 0 ps.

(** A full page: the loop asks for another one after it. *)
Definition full_page (p : list Entry) : Prop := (100 <= len p)%Z.

(** The signature header is missing, or it came more than once. *)
Definition absent_or_repeated (h : option HeaderValue) : Prop :=
  h = None \/ exists values, h = Some (Multi values).

(** The error line both verifiers log when they turn a request down. *)
Definition header_error : Event :=
  EvLog Err "Missing or invalid X-Hook-Signature header" None.

(** The document [starlingFeedItem] stores for a request. *)
Definition feed_document (parsed : JsValue) (req : HttpRequest) : JsValue :=
  JObj [("body", parsed); ("headers", headers_to_js (headers req))].

Definition feed_path (id : JsValue) : string :=
  "events/starling/feeditem/" +:+ to_string id.

Definition missing_id_error : JsValue :=
  JObj [("error", JStr "Missing webhookEventUid in payload")].

(** What the specification asks of a signature verifier [run] that reads
    the header under [key]: on a missing or repeated header it answers
    [false] and makes no cryptographic check; on a header that is one
    non-empty string it makes one check, of the raw body against the
    decoded header, and answers what the check says; it makes a check in no
    other case; and it never throws. *)
Definition verifier_contract (E : Env) (key : string)
    (run : HttpRequest -> M bool) : Prop :=
  forall (req : HttpRequest) (w : World),
    let h := headers req !! key in
    let r := run req w in
    (absent_or_repeated h ->
       fst r = Ok false
       /\ verifications (trace (snd r)) = verifications (trace w))
    /\ (forall s, h = Some (Single s) -> s <> "" ->
          fst r = Ok (rsa_sha512_verify E (rawBody req) (base64_decode E s))
          /\ verifications (trace (snd r))
             = (verifications (trace w)
                ++ [(rawBody req, base64_decode E s)])%list)
    /\ (verifications (trace (snd r)) <> verifications (trace w) ->
          exists s, h = Some (Single s))
    /\ (exists b, fst r = Ok b).

(** A request without the second argument of the client call. *)
Definition erase_options (r : Request) : Request :=
  mkRequest (shopId r) (min_created r) (max_created r) (limit r) (offset r) None.

Definition erase_event (ev : Event) : Event :=
  match ev with
  | EvFetch r => EvFetch (erase_options r)
  | _ => ev
  end.

(** Two worlds that differ at most in the second argument of the remote
    calls they recorded. *)
Definition sim (w1 w2 : World) : Prop :=
  store w1 = store w2
  /\ List.map erase_event (trace w1) = List.map erase_event (trace w2)
  /\ api_calls w1 = api_calls w2
  /\ fs_ops w1 = fs_ops w2
  /\ clock_ms w1 = clock_ms w2.

(** Two computations that, from such worlds, end alike and in such worlds. *)
Definition msim {A} (m1 m2 : M A) : Prop :=
  forall w1 w2, sim w1 w2 ->
    fst (m1 w1) = fst (m2 w2) /\ sim (snd (m1 w1)) (snd (m2 w2)).

(** The remote API does not look at the second argument of the call: it
    answers the requests of the two revisions alike. *)
Definition same_answers (E : Env) (shop : Z) (minC maxC : JsValue) : Prop :=
  forall n off,
    remote E n (LedgerSync.page_request shop minC maxC off)
    = remote E n (LedgerSyncGated.page_request shop minC maxC off).

(** No document of the database has a [body] field. The documents that
    [persistBatch] writes are the entries themselves, so a database that
    only [persistBatch] has filled is of this kind as long as the remote
    API sends no entry with a [body] property. *)
Definition flat_store (s : gmap string JsValue) : Prop :=
  forall path d, s !! path = Some d -> prop d "body" = None.

Definition flat_entry (e : Entry) : Prop := assoc "body" e = None.

(* ===================================================================== *)
(** ** Sample data *)
(* ===================================================================== *)

Definition sample_entry (id : Z) : Entry :=
  [("entry_id", JNum id); ("created_timestamp", JNum (1700000000 + id))].

(** [n] entries with the ids [first], [first + 1], ... *)
Definition sample_page (first : Z) (n : nat) : list Entry :=
  List.map (fun i => sample_entry (first + Z.of_nat i)) (seq 0 n).

(** A remote API that serves [pages] by offset, one page per hundred, asks
    for the page size 100, and has nothing past the last page. *)
Definition paged_remote (pages : list (list Entry)) (i : nat) (r : Request)
  : ApiResult :=
  if (limit r =? 100)%Z
  then ApiPage (nth_error pages (Z.to_nat (offset r / 100)))
  else ApiThrows (JsError "Error" "unexpected page size").

(** The outside world around [paged_remote]: storage never fails, every
    body parses to [parsed], and the signature check answers [verdict]. *)
Definition sample_env (pages : list (list Entry)) (parsed : option JsValue)
    (verdict : bool) : Env :=
  mkEnv (paged_remote pages) (fun _ => None) (fun _ => parsed)
        (fun _ => []) (fun _ _ => verdict).

Definition three_pages : list (list Entry) :=
  [sample_page 1 100; sample_page 101 100; sample_page 201 37].

Definition empty_world : World :=
  mkWorld ∅ [] 0 0 1800000000000.

Definition network_error : Error := JsError "AxiosError" "socket hang up".

(** A remote API that serves [pages] by offset and throws after them. *)
Definition failing_remote (pages : list (list Entry)) (i : nat) (r : Request)
  : ApiResult :=
  match nth_error pages (Z.to_nat (offset r / 100)) with
  | Some p => ApiPage (Some p)
  | None => ApiThrows network_error
  end.

Definition failing_env (pages : list (list Entry)) : Env :=
  mkEnv (failing_remote pages) (fun _ => None) (fun _ => None)
        (fun _ => []) (fun _ _ => false).

Definition two_pages : list (list Entry) :=
  [sample_page 1 100; sample_page 101 100].

(** Two records without an identifier, and a page of ten that holds them. *)
Definition fee_without_id : Entry :=
  [("amount", JNum (-120)); ("created_timestamp", JNum 1700000500)].

Definition refund_without_id : Entry :=
  [("amount", JNum 300); ("description", JStr "refund")].

Definition ten_records : list Entry :=
  sample_page 1 4 ++ [fee_without_id] ++ sample_page 5 4 ++ [refund_without_id].

(** Requests: the body [{}], and the signature header missing, doubled,
    present once under the lower-case name, and present once under the
    capitalised name. *)
Definition body_bytes : list Byte.byte := [Byte.x7b; Byte.x7d].

Definition req_unsigned : HttpRequest := mkHttpRequest body_bytes ∅.

Definition req_doubled : HttpRequest :=
  mkHttpRequest body_bytes
    (<["x-hook-signature" := Multi ["c2ln"; "c2ln"]]>
       (<["X-Hook-Signature" := Multi ["c2ln"; "c2ln"]]> ∅)).

Definition req_signed : HttpRequest :=
  mkHttpRequest body_bytes (<["x-hook-signature" := Single "c2ln"]> ∅).

(** An environment whose signature check accepts and whose parser gives
    [parsed] for every body. *)
Definition accepting_env (parsed : JsValue) : Env :=
  sample_env [] (Some parsed) true.

(** Parsed bodies: an event with an identifier, one whose identifier is
    the empty string, and one without the field. *)
Definition event_with_id : JsValue :=
  JObj [("webhookEventUid", JStr "evt-7f3a"); ("amount", JNum 1250)].

Definition event_with_empty_id : JsValue :=
  JObj [("webhookEventUid", JStr ""); ("amount", JNum 1250)].

Definition event_without_id : JsValue :=
  JObj [("amount", JNum 1250)].

(** An environment whose signature check refuses. *)
Definition refusing_env : Env := sample_env [] (Some event_with_id) false.

(** A second delivery of the same event, with one more header. *)
Definition req_redelivered : HttpRequest :=
  mkHttpRequest body_bytes
    (<["x-hook-signature" := Single "c2ln"]> (<["x-attempt" := Single "2"]> ∅)).

(** Deployments: the flag set to ["false"], left unset, and set to
    ["true"]. *)
Definition cfg_disabled : Config := mkConfig "key" "secret" "7" (Some "false").

Definition cfg_unset : Config := mkConfig "key" "secret" "7" None.

Definition cfg_enabled : Config := mkConfig "key" "secret" "7" (Some "true").

(** A database whose ledger documents keep the entry under [body], next
    to a document of another collection with a later timestamp. *)
Definition wrapped (ts : Z) : JsValue :=
  JObj [("body", JObj [("created_timestamp", JNum ts)])].

Definition wrapped_store : gmap string JsValue :=
  <["events/etsy/ledgerentry/a" := wrapped 5]>
    (<["events/etsy/ledgerentry/b" := wrapped 9]>
       (<["events/starling/feeditem/x" := wrapped 100]> ∅)).

Definition world_of (s : gmap string JsValue) : World :=
  mkWorld s [] 0 0 1800000000000.

(* ===================================================================== *)
(** ** The token storage of ledgerSync.ts *)
(* ===================================================================== *)

(** [SecurityDataFilter] of the Etsy client. *)
Record SecurityDataFilter : Type := mkFilter {
  etsyUserId : Z
}.

(** [Tokens] of the Etsy client. The two tokens are typed [string]; what
    [findAccessToken] hands out is whatever the document holds, so they are
    values here. *)
Record Tokens : Type := mkTokens {
  accessToken : JsValue;
  refreshToken : JsValue;
  expiresIn : Z;
  tokenType : string
}.

(** The class [FirestoreSecurityDataStorage]; [shopId] is the field the
    constructor sets, [toISOString] renders [new Date()] (milliseconds) as
    [Date.prototype.toISOString] does. *)
Module TokenStorage.
Section WithEnv.
Context (E : Env) (toISOString : Z -> string) (shopId : string).

(** [`config/etsy/oauth/${this.shopId}`]. *)
Definition token_path : string := "config/etsy/oauth/" +:+ shopId.

(** [await docRef.get()]: [None] is a snapshot with [exists] false. A read
    counts as a storage operation and may be refused; it leaves no event
    (the trace lists queries, writes and remote calls). *)
Definition doc_get (path : string) : M (option JsValue) :=
  fun w =>
    match fs_fault E (fs_ops w) with
    | Some e => (Throw e, tick_fs w)
    | None => (Ok (store w !! path), tick_fs w)
    end.

(** [await docRef.set(data, { merge: true })]. *)
Definition doc_set_merge (path : string) (data : Entry) : M unit :=
  Firestore.fs_op E (EvSet path (JObj data))
    (fun w => (tt, with_store (Firestore.apply_write (store w) (path, data)) w)).

(** [Date.now()]. *)
Definition now_ms : M Z := fun w => (Ok (clock_ms w), w).

Definition storeAccessToken (filter : SecurityDataFilter) (tokens : Tokens)
  : M unit :=
  now <- now_ms ;;
  doc_set_merge token_path
    [("accessToken", accessToken tokens);
     ("refreshToken", refreshToken tokens);
     ("updatedAt", JStr (toISOString now))] ;;
  log Info ("Stored access token for shop " +:+ shopId) None.

(** [None] is [undefined]. *)
Definition findAccessToken (filter : SecurityDataFilter)
  : M (option Tokens) :=
  doc <- doc_get token_path ;;
  match doc with
  | None =>
      log Warn ("No access token found for shop " +:+ shopId) None ;;
      ret None
  | Some data =>
      if negb (truthy (Some data))
         || negb (truthy (prop data "accessToken"))
         || negb (truthy (prop data "refreshToken")) then
        log Warn ("Incomplete token data for shop " +:+ shopId) None ;;
        ret None
      else
        ret (Some (mkTokens (defined (prop data "accessToken"))
                            (defined (prop data "refreshToken"))
                            0 "Bearer"))
  end.

End WithEnv.
End TokenStorage.

(* ===================================================================== *)
(** ** fetchAndPersistLedgerEntries and the client it is given *)
(* ===================================================================== *)

(** [fetchAndPersistLedgerEntries(client, shopId, minCreated, maxCreated)]
    with [client] as the parameter it is in the source. [client r] stands
    for [await client.LedgerEntry.getShopPaymentAccountLedgerEntries(..)]
    with the arguments [r] and yields [response.data.results]; it is any
    computation on the world, so that a client that refreshes its tokens
    through the [FirestoreSecurityDataStorage] it was built with is one of
    them. [page_request] builds the arguments ([LedgerSync.page_request]
    for functions/src/etsy/ledgerSync.ts, [LedgerSyncGated.page_request]
    for the revision with the enable flag; the two functions are the same
    text otherwise). *)
Module LedgerSyncWith.
Section WithClient.
Context (E : Env) (client : Request -> M (option (list Entry)))
        (page_request : Z -> Request).

Definition limit : Z := 100.

Fixpoint processPage (fuel : nat) (offset totalPersisted : Z) : M Z :=
  match fuel with
  | O => diverge
  | S fuel' =>
      log Info ("Fetching ledger entries: offset=" +:+ show_Z offset
                +:+ ", limit=" +:+ show_Z limit) None ;;
      response <- client (page_request offset) ;;
      let entries := results_or_empty response in
      log Info ("Received " +:+ show_Z (len entries) +:+ " entries") None ;;
      persistedCount <- LedgerSync.persistBatch E entries ;;
      let newTotal := (totalPersisted + persistedCount)%Z in
      if (len entries =? 0)%Z || (len entries <? limit)%Z then ret newTotal
      else processPage fuel' (offset + limit)%Z newTotal
  end.

Definition fetchAndPersistLedgerEntries (fuel : nat) : M Z :=
  try_catch
    (totalPersisted <- processPage fuel 0%Z 0%Z ;;
     log Info ("Total entries persisted: " +:+ show_Z totalPersisted) None ;;
     ret totalPersisted)
    (fun error =>
       log Err "Error fetching and persisting ledger entries:"
           (Some (LErr error)) ;;
       throw error).

End WithClient.
End LedgerSyncWith.

(** Modelled from the spec: the stored token pair is "updated (merged)
    whenever the external client refreshes tokens". A client that holds the
    token storage of the shop: before the remote call number [n] it stores
    the pair [fresh n], when there is one, through [storeAccessToken] with
    the filter of the request, and then sends the request. *)
Definition refreshing_client (E : Env) (toISOString : Z -> string)
    (shopId : string) (fresh : nat -> option Tokens) (r : Request)
  : M (option (list Entry)) :=
  fun w =>
    match fresh (api_calls w) with
    | Some tokens =>
        (TokenStorage.storeAccessToken E toISOString shopId
           (mkFilter (match options r with Some u => u | None => 0%Z end))
           tokens ;;
         api_fetch E r) w
    | None => api_fetch E r w
    end.

(* ===================================================================== *)
(** ** More observations *)
(* ===================================================================== *)

(** The computation [m] leaves the document at [path] as it finds it, in
    every world and however it ends. *)
Definition keeps {A} (path : string) (m : M A) : Prop :=
  forall w, store (snd (m w)) !! path = store w !! path.

(** A path that is not below the collection of the ledger entries. *)
Definition outside_ledger (path : string) : Prop :=
  Firestore.strip_prefix "events/etsy/ledgerentry/" path = None.

(** A path that is not below the collection of the feed items. *)
Definition outside_feed (path : string) : Prop :=
  Firestore.strip_prefix "events/starling/feeditem/" path = None.

(** The number of writes in a list of batches. *)
Definition written (batches : list (list (string * Entry))) : Z :=
  fold_right (fun b acc => (len b + acc)%Z) 0%Z batches.

(** One round of [processPage], with [next] for the call of itself; the
    two revisions differ in the request [req_at] builds. *)
Definition round (E : Env) (req_at : Z -> Request) (next : Z -> Z -> M Z)
    (offset totalPersisted : Z) : M Z :=
  log Info ("Fetching ledger entries: offset=" +:+ show_Z offset
            +:+ ", limit=" +:+ show_Z 100) None ;;
  response <- api_fetch E (req_at offset) ;;
  let entries := results_or_empty response in
  log Info ("Received " +:+ show_Z (len entries) +:+ " entries") None ;;
  persistedCount <- LedgerSync.persistBatch E entries ;;
  let newTotal := (totalPersisted + persistedCount)%Z in
  if (len entries =? 0)%Z || (len entries <? 100)%Z then ret newTotal
  else next (offset + 100)%Z newTotal.

(** What holds of a run [r] of the page loop from the world [w], whatever
    the remote API and the storage answer: the trace grew by [evs]; the
    requests in [evs] are the first [k] pages from [off], in order; the
    loop made [k] calls, at most one per unit of fuel and at least one
    when it had fuel; the documents outside the ledger collection are as
    they were; a returned count is [tot] plus the writes of the batches in
    [evs]; and [evs] holds no query and no single-document write. *)
Definition loop_post (req_at : Z -> Request) (fuel : nat) (off tot : Z)
    (w : World) (r : Outcome Z * World) : Prop :=
  exists (k : nat) (evs : list Event),
    trace (snd r) = (trace w ++ evs)%list
    /\ fetches evs
       = List.map (fun i => req_at (off + 100 * Z.of_nat i)%Z) (seq 0 k)
    /\ k <= fuel
    /\ (0 < fuel -> 0 < k)
    /\ api_calls (snd r) = k + api_calls w
    /\ clock_ms (snd r) = clock_ms w
    /\ (forall path, outside_ledger path ->
          store (snd r) !! path = store w !! path)
    /\ (forall n, fst r = Ok n -> n = (tot + written (commits evs))%Z)
    /\ queries evs = []
    /\ sets evs = [].

(** The ledger document at [path] keeps the number [z] under
    [body.created_timestamp]. *)
Definition ledger_timestamp (s : gmap string JsValue) (path : string) (z : Z)
  : Prop :=
  exists d,
    s !! path = Some d
    /\ Firestore.child_of "events/etsy/ledgerentry" path = true
    /\ Firestore.field_at ["body"; "created_timestamp"] d = Some (JNum z).

(** Every [body.created_timestamp] of the ledger collection is a number. *)
Definition numeric_timestamps (s : gmap string JsValue) : Prop :=
  forall path d v,
    s !! path = Some d ->
    Firestore.child_of "events/etsy/ledgerentry" path = true ->
    Firestore.field_at ["body"; "created_timestamp"] d = Some v ->
    exists z, v = JNum z.

(* ===================================================================== *)
(** ** More sample data *)
(* ===================================================================== *)

Definition storage_error : Error := JsError "FirestoreError" "unavailable".

(** A world whose database holds one webhook document and one token
    document. *)
Definition busy_world : World :=
  mkWorld (<["events/starling/feeditem/evt-7f3a" := event_with_id]>
             (<["config/etsy/oauth/7" :=
                  JObj [("accessToken", JStr "at-1");
                        ("refreshToken", JStr "rt-1");
                        ("scope", JStr "transactions_r")]]> ∅))
          [] 0 0 1800000000000.

(** A storage that refuses the operation number [bad] and takes the
    others, around a remote API that serves [pages], a parser that gives
    [parsed], and a signature check that answers [verdict]. *)
Definition faulty_env (pages : list (list Entry)) (bad : nat)
    (parsed : option JsValue) (verdict : bool) : Env :=
  mkEnv (paged_remote pages)
        (fun n => if (n =? bad)%nat then Some storage_error else None)
        (fun _ => parsed) (fun _ => []) (fun _ _ => verdict).

Definition cfg_bad_shop : Config := mkConfig "key" "secret" "shop-7" (Some "true").

Definition req_empty_signature : HttpRequest :=
  mkHttpRequest body_bytes
    (<["x-hook-signature" := Single ""]>
       (<["X-Hook-Signature" := Single ""]> ∅)).

Definition sample_tokens : Tokens :=
  mkTokens (JStr "at-2") (JStr "rt-2") 3600 "bearer".

Definition sample_iso (ms : Z) : string := "2027-01-15T00:00:00.000Z".

Definition zero_id_entry : Entry :=
  [("entry_id", JNum 0); ("amount", JNum 77)].

(** A remote API that serves [pages] to the requests that name a user in
    their second argument and turns the others down. *)
Definition user_scoped_remote (pages : list (list Entry)) (i : nat)
    (r : Request) : ApiResult :=
  match options r with
  | Some _ => paged_remote pages i r
  | None => ApiThrows (JsError "Error" "no user to find a token for")
  end.

Definition user_scoped_env (pages : list (list Entry)) : Env :=
  mkEnv (user_scoped_remote pages) (fun _ => None) (fun _ => None)
        (fun _ => []) (fun _ _ => false).

(** New tokens before the second remote call, none otherwise. *)
Definition refresh_once (n : nat) : option Tokens :=
  if (n =? 1)%nat then Some sample_tokens else None.

(* ===================================================================== *)
(** ** Running the monad *)
(* ===================================================================== *)

Local Open Scope list_scope.
Local Open Scope js_scope.

Lemma bind_ok {A B} (m : M A) (k : A -> M B) (w w' : World) (a : A) :
  m w = (Ok a, w') -> bind m k w = k a w'.
Proof. intros H. unfold bind. rewrite H. reflexivity. Qed.

Lemma bind_throw {A B} (m : M A) (k : A -> M B) (w w' : World) (e : Error) :
  m w = (Throw e, w') -> bind m k w = (Throw e, w').
Proof. intros H. unfold bind. rewrite H. reflexivity. Qed.

Lemma try_ok {A} (m : M A) (h : Error -> M A) (w w' : World) (a : A) :
  m w = (Ok a, w') -> try_catch m h w = (Ok a, w').
Proof. intros H. unfold try_catch. rewrite H. reflexivity. Qed.

Lemma try_throw {A} (m : M A) (h : Error -> M A) (w w' : World) (e : Error) :
  m w = (Throw e, w') -> try_catch m h w = h e w'.
Proof. intros H. unfold try_catch. rewrite H. reflexivity. Qed.

Lemma advance_id (w : World) : advance (store w) [] 0 0 w = w.
Proof. destruct w. unfold advance. simpl. rewrite app_nil_r. reflexivity. Qed.

Lemma advance_advance s1 s2 evs1 evs2 a1 a2 f1 f2 w :
  advance s2 evs2 a2 f2 (advance s1 evs1 a1 f1 w)
  = advance s2 (evs1 ++ evs2) (a2 + a1) (f2 + f1) w.
Proof.
  unfold advance. simpl. f_equal.
  - symmetry. apply app_assoc.
  - lia.
  - lia.
Qed.

Lemma log_run lvl msg arg w :
  log lvl msg arg w = (Ok tt, advance (store w) [EvLog lvl msg arg] 0 0 w).
Proof. reflexivity. Qed.

(* ===================================================================== *)
(** ** persistBatch *)
(* ===================================================================== *)

Lemma len_cons_nonzero {A} (x : A) (xs : list A) : (len (x :: xs) =? 0)%Z = false.
Proof. unfold len. simpl. reflexivity. Qed.

Lemma keep_entry_run (entry : Entry) (w : World) :
  LedgerSync.keep_entry entry w
  = (Ok (has_id entry),
     advance (store w) (if has_id entry then [] else [drop_log entry]) 0 0 w).
Proof.
  unfold LedgerSync.keep_entry, has_id.
  destruct (truthy (assoc "entry_id" entry)); simpl.
  - unfold ret. rewrite advance_id. reflexivity.
  - reflexivity.
Qed.

Lemma filterM_keep_run (entries : list Entry) (w : World) :
  filterM LedgerSync.keep_entry entries w
  = (Ok (valid_entries entries),
     advance (store w) (List.map drop_log (dropped_entries entries)) 0 0 w).
Proof.
  revert w. induction entries as [|e rest IH]; intros w.
  - simpl. unfold ret. rewrite advance_id. reflexivity.
  - cbn [filterM].
    rewrite (bind_ok _ _ _ _ _ (keep_entry_run e w)).
    rewrite (bind_ok _ _ _ _ _ (IH _)).
    unfold ret. rewrite advance_advance.
    unfold valid_entries, dropped_entries. cbn [List.filter].
    destruct (has_id e); reflexivity.
Qed.

Lemma batch_of_nil (entries : list Entry) :
  batch_of entries = [] <-> valid_entries entries = [].
Proof.
  unfold batch_of. destruct (valid_entries entries); simpl; split; intros H;
    try reflexivity; discriminate.
Qed.

(** A batch without a valid entry: nothing is written, whatever the storage
    would have answered. *)
Lemma persistBatch_none_valid (E : Env) (entries : list Entry) (w : World) :
  valid_entries entries = [] ->
  LedgerSync.persistBatch E entries w
  = (Ok 0%Z,
     advance (store w) (List.map drop_log (dropped_entries entries)) 0 0 w).
Proof.
  intros Hv. unfold LedgerSync.persistBatch.
  destruct entries as [|e rest].
  - simpl. unfold ret. rewrite advance_id. reflexivity.
  - rewrite len_cons_nonzero.
    rewrite (bind_ok _ _ _ _ _ (filterM_keep_run _ w)).
    rewrite Hv. reflexivity.
Qed.

Lemma batch_commit_ok (E : Env) (b : list (string * Entry)) (w : World) :
  fs_fault E (fs_ops w) = None ->
  Firestore.batch_commit E b w
  = (Ok tt, advance (Firestore.apply_writes (store w) b) [EvCommit b] 0 1 w).
Proof.
  intros Hf. unfold Firestore.batch_commit, Firestore.fs_op. rewrite Hf.
  reflexivity.
Qed.

Lemma batch_commit_fault (E : Env) (b : list (string * Entry)) (w : World) e :
  fs_fault E (fs_ops w) = Some e ->
  Firestore.batch_commit E b w
  = (Throw e, advance (store w) [EvCommit b] 0 1 w).
Proof.
  intros Hf. unfold Firestore.batch_commit, Firestore.fs_op. rewrite Hf.
  reflexivity.
Qed.

(** A refused commit: the error goes to the caller and the database is as
    it was, with no entry of the batch in it. *)
Lemma persistBatch_commit_refused
    (E : Env) (entries : list Entry) (w : World) (e : Error) :
  fs_fault E (fs_ops w) = Some e ->
  valid_entries entries <> [] ->
  fst (LedgerSync.persistBatch E entries w) = Throw e
  /\ store (snd (LedgerSync.persistBatch E entries w)) = store w.
Proof.
  intros Hf Hv. unfold LedgerSync.persistBatch.
  destruct entries as [|x rest]; [contradiction Hv; reflexivity|].
  rewrite len_cons_nonzero.
  rewrite (bind_ok _ _ _ _ _ (filterM_keep_run _ w)).
  destruct (valid_entries (x :: rest)) as [|v vs]; [contradiction Hv; reflexivity|].
  rewrite len_cons_nonzero.
  erewrite bind_throw; [|apply batch_commit_fault; exact Hf].
  split; reflexivity.
Qed.

Lemma persistBatch_run (E : Env) (entries : list Entry) (w : World) :
  fs_fault E (fs_ops w) = None ->
  LedgerSync.persistBatch E entries w
  = (Ok (len (valid_entries entries)),
     advance (Firestore.apply_writes (store w) (batch_of entries))
             (persist_events entries) 0 (commit_count entries) w).
Proof.
  intros Hf.
  destruct (valid_entries entries) as [|v vs] eqn:Hv.
  - rewrite (persistBatch_none_valid E entries w Hv).
    unfold persist_events, commit_count.
    rewrite (proj2 (batch_of_nil entries) Hv). rewrite app_nil_r. reflexivity.
  - unfold LedgerSync.persistBatch.
    destruct entries as [|e rest]; [discriminate Hv|].
    rewrite len_cons_nonzero.
    rewrite (bind_ok _ _ _ _ _ (filterM_keep_run _ w)).
    rewrite Hv. rewrite len_cons_nonzero.
    erewrite bind_ok; [|apply batch_commit_ok; exact Hf].
    cbv beta. erewrite bind_ok; [|apply log_run].
    unfold ret. rewrite !advance_advance.
    unfold persist_events, commit_count, batch_of. rewrite Hv.
    cbn [List.map]. reflexivity.
Qed.

(* ===================================================================== *)
(** ** processPage, one round and many *)
(* ===================================================================== *)

Lemma api_fetch_page (E : Env) (r : Request) (w : World) res :
  remote E (api_calls w) r = ApiPage res ->
  api_fetch E r w = (Ok res, advance (store w) [EvFetch r] 1 0 w).
Proof. intros H. unfold api_fetch. rewrite H. reflexivity. Qed.

Lemma api_fetch_throws (E : Env) (r : Request) (w : World) e :
  remote E (api_calls w) r = ApiThrows e ->
  api_fetch E r w = (Throw e, advance (store w) [EvFetch r] 1 0 w).
Proof. intros H. unfold api_fetch. rewrite H. reflexivity. Qed.

Lemma page_of_Some (a : ApiResult) (p : list Entry) :
  page_of a = Some p -> exists res, a = ApiPage res /\ results_or_empty res = p.
Proof.
  destruct a as [e|res]; simpl; intros H; [discriminate|].
  exists res. split; [reflexivity|congruence].
Qed.

Section Rounds.
Context (E : Env) (shop : Z) (minC maxC : JsValue).
Hypothesis no_fault : forall n, fs_fault E n = None.

Let req_at := LedgerSync.page_request shop minC maxC.

Lemma processPage_round (fuel : nat) (off tot : Z) (p : list Entry) (w : World) :
  page_of (remote E (api_calls w) (req_at off)) = Some p ->
  LedgerSync.processPage E shop minC maxC (S fuel) off tot w
  = let w' := advance (Firestore.apply_writes (store w) (batch_of p))
                      (page_events req_at off p) 1 (commit_count p) w in
    let tot' := (tot + len (valid_entries p))%Z in
    if (len p =? 0)%Z || (len p <? 100)%Z then (Ok tot', w')
    else LedgerSync.processPage E shop minC maxC fuel (off + 100)%Z tot' w'.
Proof.
  intros Hp. apply page_of_Some in Hp. destruct Hp as (res & Hres & Hp).
  cbn [LedgerSync.processPage].
  erewrite bind_ok; [|apply log_run]. cbv beta.
  erewrite bind_ok; [|apply api_fetch_page; exact Hres]. cbv beta.
  rewrite Hp.
  erewrite bind_ok; [|apply log_run]. cbv beta.
  erewrite bind_ok; [|apply persistBatch_run; apply no_fault]. cbv beta zeta.
  rewrite !advance_advance.
  unfold page_events, LedgerSync.limit.
  assert (Hw : forall s evs a f, advance s evs (0 + 0 + 1 + a) (f + 0 + 0 + 0) w
                                = advance s evs (1 + a) f w)
    by (intros; unfold advance; f_equal; lia).
  rewrite Hw.
  destruct ((len p =? 0)%Z || (len p <? 100)%Z); reflexivity.
Qed.

Lemma processPage_full_pages (ps : list (list Entry)) :
  forall (fuel : nat) (off tot : Z) (w : World),
  serves E req_at (api_calls w) off ps ->
  Forall full_page ps ->
  LedgerSync.processPage E shop minC maxC (length ps + fuel) off tot w
  = LedgerSync.processPage E shop minC maxC fuel
      (off + 100 * len ps)%Z (tot + total_valid ps)%Z
      (advance (store_after (store w) ps) (events_of_pages req_at off ps)
               (length ps) (commits_in ps) w).
Proof.
  induction ps as [|p rest IH]; intros fuel off tot w Hs Hfull.
  - cbn [length Nat.add store_after fold_left events_of_pages commits_in
         fold_right total_valid].
    rewrite advance_id.
    replace (off + 100 * len (@nil (list Entry)))%Z with off by (unfold len; simpl; lia).
    replace (tot + 0)%Z with tot by lia.
    reflexivity.
  - destruct Hs as [Hp Hrest]. inversion Hfull as [|? ? Hp_full Hrest_full]; subst.
    cbn [length Nat.add].
    rewrite (processPage_round _ off tot p w Hp). cbv zeta.
    unfold full_page in Hp_full.
    replace ((len p =? 0)%Z || (len p <? 100)%Z) with false
      by (symmetry; apply orb_false_iff; split; [apply Z.eqb_neq|apply Z.ltb_ge]; lia).
    rewrite IH; [|exact Hrest|exact Hrest_full].
    rewrite advance_advance.
    f_equal.
    + unfold len. cbn [length]. lia.
    + cbn [total_valid fold_right]. unfold total_valid. lia.
    + cbn [store_after fold_left events_of_pages commits_in fold_right length].
      unfold advance. cbn [store trace api_calls fs_ops clock_ms].
      f_equal; unfold commits_in; lia.
Qed.

End Rounds.

(* ===================================================================== *)
(** ** Reading traces *)
(* ===================================================================== *)

Lemma fetches_app (a b : list Event) : fetches (a ++ b) = fetches a ++ fetches b.
Proof. unfold fetches. apply omap_app. Qed.

Lemma io_app (a b : list Event) : io (a ++ b) = io a ++ io b.
Proof. unfold io. apply List.filter_app. Qed.

Lemma fetches_drop_logs (es : list Entry) : fetches (List.map drop_log es) = [].
Proof. induction es as [|e es IH]; [reflexivity|exact IH]. Qed.

Lemma io_drop_logs (es : list Entry) : io (List.map drop_log es) = [].
Proof. induction es as [|e es IH]; [reflexivity|exact IH]. Qed.

Lemma fetches_persist (p : list Entry) : fetches (persist_events p) = [].
Proof.
  unfold persist_events. rewrite fetches_app, fetches_drop_logs.
  destruct (batch_of p); reflexivity.
Qed.

Lemma io_persist (p : list Entry) :
  io (persist_events p) = match batch_of p with [] => [] | b => [EvCommit b] end.
Proof.
  unfold persist_events. rewrite io_app, io_drop_logs.
  destruct (batch_of p); reflexivity.
Qed.

Lemma fetches_pages (req_at : Z -> Request) (ps : list (list Entry)) :
  forall off,
  fetches (events_of_pages req_at off ps)
  = List.map (fun i => req_at (off + 100 * Z.of_nat i)%Z) (seq 0 (length ps)).
Proof.
  induction ps as [|p rest IH]; intros off; [reflexivity|].
  cbn [events_of_pages length seq List.map].
  unfold page_events. rewrite !fetches_app, fetches_persist, IH.
  cbn [fetches omap app]. rewrite app_nil_r.
  replace (off + 100 * Z.of_nat 0)%Z with off by lia.
  cbn [mbind option_bind app]. f_equal.
  rewrite <- seq_shift, List.map_map.
  apply List.map_ext. intros i. f_equal. lia.
Qed.

Lemma io_pages (req_at : Z -> Request) (ps : list (list Entry)) :
  forall off, io (events_of_pages req_at off ps) = io_of_pages req_at off ps.
Proof.
  induction ps as [|p rest IH]; intros off; [reflexivity|].
  cbn [events_of_pages io_of_pages].
  unfold page_events. rewrite !io_app, io_persist, IH. reflexivity.
Qed.

Lemma serves_app E req_at (ps qs : list (list Entry)) :
  forall i off,
  serves E req_at i off (ps ++ qs)
  <-> serves E req_at i off ps
      /\ serves E req_at (i + length ps) (off + 100 * len ps)%Z qs.
Proof.
  induction ps as [|p rest IH]; intros i off.
  - cbn [app serves length]. unfold len. cbn [length].
    replace (i + 0) with i by lia.
    replace (off + 100 * Z.of_nat 0)%Z with off by lia. tauto.
  - cbn [app serves length]. rewrite IH.
    replace (S i + length rest) with (i + S (length rest)) by lia.
    replace (off + 100 + 100 * len rest)%Z with (off + 100 * len (p :: rest))%Z
      by (unfold len; cbn [length]; lia).
    tauto.
Qed.

Lemma total_valid_app (ps qs : list (list Entry)) :
  total_valid (ps ++ qs) = (total_valid ps + total_valid qs)%Z.
Proof.
  induction ps as [|p rest IH]; [reflexivity|].
  cbn [app]. unfold total_valid in *. cbn [fold_right]. rewrite IH. lia.
Qed.

(* ===================================================================== *)
(** ** The fetch-and-persist loop *)
(* ===================================================================== *)

Lemma short_page_test (p : list Entry) :
  (len p < 100)%Z -> (len p =? 0)%Z || (len p <? 100)%Z = true.
Proof.
  intros H. apply orb_true_iff. right. apply Z.ltb_lt. exact H.
Qed.

(** C1. Against any remote API, [fetchAndPersistLedgerEntries] asks for
    pages of 100 records at the offsets 0, 100, 200, ...: when the API
    answers with the full pages [ps] (100 records or more each) and then
    with a page [last] of fewer than 100 records (none included), the loop
    makes exactly [length ps + 1] requests, one per page and in that order,
    each with [limit = 100] and the offset advanced by 100, stops there, and
    returns the number of records with an identifier over all the pages.
    (No storage fault occurs, and the fuel covers the pages.) *)
Theorem fetch_stops_at_first_short_page
    (E : Env) (shop : Z) (minC maxC : JsValue)
    (ps : list (list Entry)) (last : list Entry) (fuel : nat) (w : World) :
  (forall n, fs_fault E n = None) ->
  serves E (LedgerSync.page_request shop minC maxC) (api_calls w) 0
         (ps ++ [last]) ->
  Forall full_page ps ->
  (len last < 100)%Z ->
  length ps < fuel ->
  let r := LedgerSync.fetchAndPersistLedgerEntries E shop minC maxC fuel w in
  fst r = Ok (total_valid (ps ++ [last]))
  /\ fetches (trace (snd r))
     = fetches (trace w)
       ++ List.map (fun i => mkRequest shop minC maxC 100
                               (100 * Z.of_nat i) (Some 0%Z))
                   (seq 0 (length ps + 1))
  /\ api_calls (snd r) = length ps + 1 + api_calls w.
Proof.
  intros Hnf Hs Hfull Hshort Hfuel r.
  apply serves_app in Hs. destruct Hs as [Hps Hlast].
  cbn [serves] in Hlast. destruct Hlast as [Hlast _].
  assert (Hrun :
    LedgerSync.processPage E shop minC maxC fuel 0 0 w
    = (Ok (total_valid (ps ++ [last])),
       advance (store_after (store w) (ps ++ [last]))
               (events_of_pages (LedgerSync.page_request shop minC maxC) 0
                                (ps ++ [last]))
               (length ps + 1) (commits_in (ps ++ [last])) w)).
  { replace fuel with (length ps + S (fuel - length ps - 1)) by lia.
    rewrite (processPage_full_pages E shop minC maxC Hnf ps _ 0 0 w Hps Hfull).
    erewrite processPage_round; [|exact Hnf|].
    2:{ cbn [advance api_calls]. rewrite Nat.add_comm. exact Hlast. }
    cbv zeta. rewrite (short_page_test last Hshort).
    rewrite advance_advance. f_equal.
    - rewrite total_valid_app. unfold total_valid. cbn [fold_right]. f_equal. lia.
    - assert (Hev : forall off,
        events_of_pages (LedgerSync.page_request shop minC maxC) off (ps ++ [last])
        = events_of_pages (LedgerSync.page_request shop minC maxC) off ps
          ++ page_events (LedgerSync.page_request shop minC maxC)
                         (off + 100 * len ps) last).
      { clear. induction ps as [|p rest IH]; intros off.
        - cbn [app events_of_pages]. unfold len. cbn [length].
          rewrite app_nil_r. do 2 f_equal. lia.
        - cbn [app events_of_pages]. rewrite IH, <- app_assoc.
          do 3 f_equal. unfold len. cbn [length]. lia. }
      rewrite Hev. unfold store_after, commits_in.
      rewrite fold_left_app, fold_right_app. cbn [fold_left fold_right].
      unfold advance. cbn [store trace api_calls fs_ops clock_ms].
      f_equal; try lia.
      clear. induction ps as [|p rest IH]; cbn [fold_right]; lia. }
  subst r. unfold LedgerSync.fetchAndPersistLedgerEntries.
  erewrite try_ok.
  2:{ erewrite bind_ok; [|exact Hrun]. cbv beta.
      erewrite bind_ok; [|apply log_run]. reflexivity. }
  cbn [fst snd]. split; [reflexivity|].
  cbn [advance trace api_calls]. split; [|lia].
  rewrite !fetches_app, fetches_pages. cbn [fetches omap app].
  rewrite app_nil_r. f_equal.
  rewrite length_app. cbn [length].
  apply List.map_ext. intros i. unfold LedgerSync.page_request, LedgerSync.limit.
  f_equal.
Qed.

(** C1, the instance of the specification: pages of 100, 100 and 37
    records, all with an identifier, take three requests and give 237. *)
Lemma fetch_100_100_37 :
  let r := LedgerSync.fetchAndPersistLedgerEntries
             (sample_env three_pages None false) 7 (JNum 0) (JNum 9) 10
             empty_world in
  fst r = Ok 237%Z
  /\ List.map offset (fetches (trace (snd r))) = [0; 100; 200]%Z
  /\ List.map limit (fetches (trace (snd r))) = [100; 100; 100]%Z
  /\ api_calls (snd r) = 3.
Proof.
  destruct (fetch_stops_at_first_short_page
              (sample_env three_pages None false) 7 (JNum 0) (JNum 9)
              [sample_page 1 100; sample_page 101 100] (sample_page 201 37)
              10 empty_world) as (Hres & Hreq & Hcalls).
  - intros n. reflexivity.
  - cbn [app serves]. repeat split; vm_compute; reflexivity.
  - repeat constructor; unfold full_page; vm_compute; discriminate.
  - vm_compute. reflexivity.
  - cbn [length]. lia.
  - cbv zeta. rewrite Hres, Hreq, Hcalls. repeat split.
Defined.

(** C5. When the remote API answers with the full pages [ps] and then throws
    [e] at the next request, [fetchAndPersistLedgerEntries] throws the same
    [e] to its caller. Every page was committed before the next request was
    sent (the remote calls and commits alternate: request, commit, request,
    commit, ...), the failing request was sent once and nothing after it,
    and the database holds the pages fetched before it. *)
Theorem fetch_error_aborts_and_keeps_pages
    (E : Env) (shop : Z) (minC maxC : JsValue)
    (ps : list (list Entry)) (e : Error) (fuel : nat) (w : World) :
  (forall n, fs_fault E n = None) ->
  serves E (LedgerSync.page_request shop minC maxC) (api_calls w) 0 ps ->
  Forall full_page ps ->
  remote E (length ps + api_calls w)
         (LedgerSync.page_request shop minC maxC (100 * len ps))
  = ApiThrows e ->
  length ps < fuel ->
  let r := LedgerSync.fetchAndPersistLedgerEntries E shop minC maxC fuel w in
  fst r = Throw e
  /\ store (snd r) = store_after (store w) ps
  /\ io (trace (snd r))
     = io (trace w)
       ++ io_of_pages (LedgerSync.page_request shop minC maxC) 0 ps
       ++ [EvFetch (LedgerSync.page_request shop minC maxC (100 * len ps))]
  /\ api_calls (snd r) = length ps + 1 + api_calls w.
Proof.
  intros Hnf Hps Hfull Hthrow Hfuel r.
  set (req_at := LedgerSync.page_request shop minC maxC) in *.
  assert (Hrun :
    LedgerSync.processPage E shop minC maxC fuel 0 0 w
    = (Throw e,
       advance (store_after (store w) ps)
               (events_of_pages req_at 0 ps
                ++ [EvLog Info ("Fetching ledger entries: offset="
                                +:+ show_Z (100 * len ps) +:+ ", limit="
                                +:+ show_Z LedgerSync.limit) None;
                    EvFetch (req_at (100 * len ps)%Z)])
               (length ps + 1) (commits_in ps) w)).
  { replace fuel with (length ps + S (fuel - length ps - 1)) by lia.
    rewrite (processPage_full_pages E shop minC maxC Hnf ps _ 0 0 w Hps Hfull).
    cbn [LedgerSync.processPage].
    erewrite bind_ok; [|apply log_run]. cbv beta.
    erewrite bind_throw.
    2:{ apply api_fetch_throws. cbn [advance api_calls store].
        replace (0 + (length ps + api_calls w)) with (length ps + api_calls w) by lia.
        exact Hthrow. }
    rewrite !advance_advance. f_equal.
    unfold advance. f_equal; lia. }
  subst r. unfold LedgerSync.fetchAndPersistLedgerEntries.
  erewrite try_throw.
  2:{ erewrite bind_throw; [|exact Hrun]. reflexivity. }
  erewrite bind_ok; [|apply log_run]. unfold throw.
  cbn [fst snd advance store trace api_calls]. repeat split; try lia.
  rewrite !io_app, io_pages. cbn [io List.filter is_io app].
  rewrite app_nil_r. reflexivity.
Qed.

(** C5, an instance: two full pages, then the third request fails. The
    error reaches the caller after three requests, and the entry 150 of
    the second page is in the database. *)
Lemma fetch_fails_at_third_request :
  let r := LedgerSync.fetchAndPersistLedgerEntries
             (failing_env two_pages) 7 (JNum 0) (JNum 9) 10 empty_world in
  fst r = Throw network_error
  /\ store (snd r) !! "events/etsy/ledgerentry/150"
     = Some (JObj (sample_entry 150))
  /\ size (store (snd r)) = 200
  /\ api_calls (snd r) = 3.
Proof.
  destruct (fetch_error_aborts_and_keeps_pages
              (failing_env two_pages) 7 (JNum 0) (JNum 9)
              two_pages network_error 10 empty_world)
    as (Hres & Hstore & _ & Hcalls).
  - intros n. reflexivity.
  - cbn [two_pages serves]. repeat split; vm_compute; reflexivity.
  - repeat constructor; unfold full_page; vm_compute; discriminate.
  - vm_compute. reflexivity.
  - cbn [two_pages length]. lia.
  - cbv zeta. rewrite Hres, Hstore, Hcalls. repeat split; vm_compute; reflexivity.
Defined.

(* ===================================================================== *)
(** ** Batch persistence *)
(* ===================================================================== *)

Lemma commits_app (a b : list Event) : commits (a ++ b) = commits a ++ commits b.
Proof. unfold commits. apply omap_app. Qed.

Lemma warned_app (a b : list Event) : warned (a ++ b) = warned a ++ warned b.
Proof. unfold warned. apply omap_app. Qed.

Lemma commits_drop_logs (es : list Entry) : commits (List.map drop_log es) = [].
Proof. induction es as [|e es IH]; [reflexivity|exact IH]. Qed.

Lemma warned_drop_logs (es : list Entry) :
  warned (List.map drop_log es) = List.map JObj es.
Proof.
  induction es as [|e es IH]; [reflexivity|].
  cbn [List.map]. rewrite <- IH. reflexivity.
Qed.

Lemma commits_persist (p : list Entry) :
  commits (persist_events p) = match batch_of p with [] => [] | b => [b] end.
Proof.
  unfold persist_events. rewrite commits_app, commits_drop_logs.
  destruct (batch_of p); reflexivity.
Qed.

Lemma warned_persist (p : list Entry) :
  warned (persist_events p) = List.map JObj (dropped_entries p).
Proof.
  unfold persist_events. rewrite warned_app, warned_drop_logs.
  destruct (batch_of p); cbn [warned omap]; rewrite app_nil_r; reflexivity.
Qed.

Lemma valid_le (entries : list Entry) :
  (len (valid_entries entries) <= len entries)%Z.
Proof.
  unfold len, valid_entries. apply Nat2Z.inj_le.
  induction entries as [|e rest IH]; cbn [List.filter length]; [lia|].
  destruct (has_id e); cbn [length]; lia.
Qed.

Lemma lacking_id_dropped (entries : list Entry) (e : Entry) :
  In e entries -> assoc "entry_id" e = None ->
  In e (dropped_entries entries) /\ ~ In e (valid_entries entries).
Proof.
  intros Hin Hnone.
  assert (Hid : has_id e = false) by (unfold has_id; rewrite Hnone; reflexivity).
  unfold dropped_entries, valid_entries. rewrite !List.filter_In. split.
  - split; [exact Hin|]. rewrite Hid. reflexivity.
  - intros [_ H]. rewrite Hid in H. discriminate.
Qed.

(** C4. [persistBatch] on the empty list returns 0 and leaves the world as
    it was. On any list, when the commit is not refused by the storage: it
    returns the number of entries it kept, which is the number of writes of
    the one batch it committed and at most the number of entries given; the
    database is the old one with those writes merged in; the entries it
    logged a warning for are exactly the ones the filter dropped, each with
    a warning of its own and in their order; and every entry without an
    [entry_id] is among the dropped and not among the written. *)
Theorem persistBatch_filters_and_counts
    (E : Env) (entries : list Entry) (w : World) :
  fs_fault E (fs_ops w) = None ->
  let r := LedgerSync.persistBatch E entries w in
  LedgerSync.persistBatch E [] w = (Ok 0%Z, w)
  /\ fst r = Ok (len (batch_of entries))
  /\ (len (batch_of entries) <= len entries)%Z
  /\ List.map snd (batch_of entries) = valid_entries entries
  /\ store (snd r) = Firestore.apply_writes (store w) (batch_of entries)
  /\ commits (trace (snd r))
     = commits (trace w) ++ match batch_of entries with [] => [] | b => [b] end
  /\ warned (trace (snd r))
     = warned (trace w) ++ List.map JObj (dropped_entries entries)
  /\ (forall e, In e entries -> assoc "entry_id" e = None ->
        In e (dropped_entries entries) /\ ~ In e (valid_entries entries)).
Proof.
  intros Hf r.
  assert (Hlen : len (batch_of entries) = len (valid_entries entries))
    by (unfold len, batch_of; rewrite length_map; reflexivity).
  subst r. rewrite (persistBatch_run E entries w Hf).
  cbn [fst snd advance store trace]. rewrite Hlen.
  repeat split.
  - apply valid_le.
  - unfold batch_of. rewrite List.map_map. cbn [snd]. apply List.map_id.
  - rewrite commits_app, commits_persist. reflexivity.
  - rewrite warned_app, warned_persist. reflexivity.
  - apply (lacking_id_dropped entries e); assumption.
  - apply (lacking_id_dropped entries e); assumption.
Qed.

(** C4, the instance of the specification: ten records, two of them
    without an identifier; eight are written, 8 is returned, and the two
    are logged. *)
Lemma persistBatch_ten_records_two_invalid :
  let r := LedgerSync.persistBatch (sample_env [] None false) ten_records
             empty_world in
  fst r = Ok 8%Z
  /\ size (store (snd r)) = 8
  /\ List.map (fun b => length b) (commits (trace (snd r))) = [8]
  /\ warned (trace (snd r)) = [JObj fee_without_id; JObj refund_without_id].
Proof.
  destruct (persistBatch_filters_and_counts
              (sample_env [] None false) ten_records empty_world)
    as (_ & Hres & _ & _ & Hstore & Hcommits & Hwarned & _).
  - reflexivity.
  - cbv zeta. rewrite Hres, Hstore, Hcommits, Hwarned.
    repeat split; vm_compute; reflexivity.
Defined.

(* ===================================================================== *)
(** ** The signature verifiers *)
(* ===================================================================== *)

Lemma verifications_app (a b : list Event) :
  verifications (a ++ b) = verifications a ++ verifications b.
Proof. unfold verifications. apply omap_app. Qed.

Lemma sets_app (a b : list Event) : sets (a ++ b) = sets a ++ sets b.
Proof. unfold sets. apply omap_app. Qed.

Lemma accepted_header (s : string) :
  s <> "" ->
  header_falsy (Some (Single s)) || header_is_array (Some (Single s)) = false.
Proof.
  intros H. cbn [header_falsy header_is_array]. rewrite orb_false_r.
  apply String.eqb_neq. exact H.
Qed.

Ltac run_verifier :=
  match goal with
  | Hrej : header_falsy ?h || header_is_array ?h = _ |- _ =>
      cbv zeta; rewrite Hrej
  end.

Lemma feeditem_verify_rejects (E : Env) (req : HttpRequest) (w : World) :
  header_falsy (headers req !! "x-hook-signature")
  || header_is_array (headers req !! "x-hook-signature") = true ->
  FeedItem.verifyEvent E req w
  = (Ok false, advance (store w) [header_error] 0 0 w).
Proof. intros Hrej. unfold FeedItem.verifyEvent. run_verifier. reflexivity. Qed.

Lemma webhook_verify_rejects (E : Env) (req : HttpRequest) (w : World) :
  header_falsy (headers req !! "X-Hook-Signature")
  || header_is_array (headers req !! "X-Hook-Signature") = true ->
  Webhook.verifyEvent E req w
  = (Ok false, advance (store w) [header_error] 0 0 w).
Proof. intros Hrej. unfold Webhook.verifyEvent. run_verifier. reflexivity. Qed.

Lemma feeditem_verify_checks (E : Env) (req : HttpRequest) (w : World) s :
  headers req !! "x-hook-signature" = Some (Single s) -> s <> "" ->
  FeedItem.verifyEvent E req w
  = (Ok (rsa_sha512_verify E (rawBody req) (base64_decode E s)),
     advance (store w) [EvVerify (rawBody req) (base64_decode E s)] 0 0 w).
Proof.
  intros Hh Hs. unfold FeedItem.verifyEvent. rewrite Hh.
  cbv zeta. rewrite (accepted_header s Hs). reflexivity.
Qed.

Lemma webhook_verify_checks (E : Env) (req : HttpRequest) (w : World) s :
  headers req !! "X-Hook-Signature" = Some (Single s) -> s <> "" ->
  Webhook.verifyEvent E req w
  = (Ok (rsa_sha512_verify E (rawBody req) (base64_decode E s)),
     advance (store w) [EvVerify (rawBody req) (base64_decode E s)] 0 0 w).
Proof.
  intros Hh Hs. unfold Webhook.verifyEvent. rewrite Hh.
  cbv zeta. rewrite (accepted_header s Hs). reflexivity.
Qed.

(** What a verifier can do, by the header it finds. *)
Lemma header_cases (h : option HeaderValue) :
  header_falsy h || header_is_array h = true
  \/ exists s, h = Some (Single s) /\ s <> "".
Proof.
  destruct h as [[s|vs]|]; cbn [header_falsy header_is_array orb];
    try (left; reflexivity).
  rewrite orb_false_r. destruct (String.eqb_spec s "") as [Heq|Hne].
  - left. reflexivity.
  - right. exists s. split; [reflexivity|exact Hne].
Qed.

Lemma feeditem_verifier_contract (E : Env) :
  verifier_contract E "x-hook-signature" (FeedItem.verifyEvent E).
Proof.
  intros req w h r. subst h r.
  destruct (header_cases (headers req !! "x-hook-signature"))
    as [Hrej|(s & Hs & Hne)].
  - rewrite (feeditem_verify_rejects E req w Hrej). cbn [fst snd advance trace].
    rewrite verifications_app. cbn [verifications omap header_error app].
    rewrite app_nil_r.
    split; [intros _; split; reflexivity|].
    split; [|split; [intros Hdiff; contradiction Hdiff; reflexivity
                    |exists false; reflexivity]].
    intros s Hs Hne. rewrite Hs in Hrej.
    rewrite (accepted_header s Hne) in Hrej. discriminate.
  - rewrite (feeditem_verify_checks E req w s Hs Hne). cbn [fst snd advance trace].
    rewrite verifications_app. cbn [verifications omap app].
    split; [intros [H|[vs H]]; rewrite Hs in H; discriminate|].
    split; [|split; [intros _; exists s; exact Hs|eexists; reflexivity]].
    intros s' Hs' _. rewrite Hs in Hs'. injection Hs' as <-.
    split; reflexivity.
Qed.

Lemma webhook_verifier_contract (E : Env) :
  verifier_contract E "X-Hook-Signature" (Webhook.verifyEvent E).
Proof.
  intros req w h r. subst h r.
  destruct (header_cases (headers req !! "X-Hook-Signature"))
    as [Hrej|(s & Hs & Hne)].
  - rewrite (webhook_verify_rejects E req w Hrej). cbn [fst snd advance trace].
    rewrite verifications_app. cbn [verifications omap header_error app].
    rewrite app_nil_r.
    split; [intros _; split; reflexivity|].
    split; [|split; [intros Hdiff; contradiction Hdiff; reflexivity
                    |exists false; reflexivity]].
    intros s Hs Hne. rewrite Hs in Hrej.
    rewrite (accepted_header s Hne) in Hrej. discriminate.
  - rewrite (webhook_verify_checks E req w s Hs Hne). cbn [fst snd advance trace].
    rewrite verifications_app. cbn [verifications omap app].
    split; [intros [H|[vs H]]; rewrite Hs in H; discriminate|].
    split; [|split; [intros _; exists s; exact Hs|eexists; reflexivity]].
    intros s' Hs' _. rewrite Hs in Hs'. injection Hs' as <-.
    split; reflexivity.
Qed.

(** C6. Each of the two verifiers, under the header name it reads
    (["x-hook-signature"] in [starlingFeedItem], ["X-Hook-Signature"] in
    [starlingWebhook]): when the header is absent or multi-valued it returns
    [false] without throwing and without a cryptographic check; when the
    header is one non-empty string it base64-decodes it and checks it
    against the raw body with RSA-SHA512, once, and returns the verdict;
    and a check is made only when the header is present once. *)
Theorem verifiers_reject_without_crypto (E : Env) :
  verifier_contract E "x-hook-signature" (FeedItem.verifyEvent E)
  /\ verifier_contract E "X-Hook-Signature" (Webhook.verifyEvent E).
Proof.
  split; [apply feeditem_verifier_contract|apply webhook_verifier_contract].
Qed.

(** C6 on three requests: without the header and with the header doubled
    the verifiers answer [false] and check nothing; with the header once,
    the check is made on the raw body. *)
Lemma verifiers_on_sample_requests :
  let E := accepting_env JNull in
  let r1 := FeedItem.verifyEvent E req_unsigned empty_world in
  let r2 := Webhook.verifyEvent E req_doubled empty_world in
  let r3 := FeedItem.verifyEvent E req_signed empty_world in
  (fst r1 = Ok false /\ verifications (trace (snd r1)) = [])
  /\ (fst r2 = Ok false /\ verifications (trace (snd r2)) = [])
  /\ (fst r3 = Ok true /\ verifications (trace (snd r3)) = [(body_bytes, [])]).
Proof.
  intros E r1 r2 r3.
  destruct (verifiers_reject_without_crypto E) as [HF HW].
  destruct (HF req_unsigned empty_world) as (H1 & _).
  destruct (HW req_doubled empty_world) as (H2 & _).
  destruct (HF req_signed empty_world) as (_ & H3 & _).
  split; [|split].
  - apply H1. left. reflexivity.
  - apply H2. right. eexists. reflexivity.
  - apply (H3 "c2ln"); [reflexivity|discriminate].
Defined.

(** C9. The two verifiers read the signature under different names. For a
    request that carries the signature (one non-empty string) under
    ["x-hook-signature"] and nothing under ["X-Hook-Signature"], the
    verifier of [starlingFeedItem] makes the cryptographic check and
    returns its verdict, while the verifier of [starlingWebhook] returns
    [false] without a check, and [starlingWebhook] answers 400. *)
Theorem verifiers_disagree_on_lowercase_header
    (E : Env) (req : HttpRequest) (w : World) (s : string) :
  headers req !! "x-hook-signature" = Some (Single s) ->
  s <> "" ->
  headers req !! "X-Hook-Signature" = None ->
  let r1 := FeedItem.verifyEvent E req w in
  let r2 := Webhook.verifyEvent E req w in
  (fst r1 = Ok (rsa_sha512_verify E (rawBody req) (base64_decode E s))
   /\ verifications (trace (snd r1))
      = verifications (trace w) ++ [(rawBody req, base64_decode E s)])
  /\ (fst r2 = Ok false
      /\ verifications (trace (snd r2)) = verifications (trace w))
  /\ fst (Webhook.starlingWebhook E req w)
     = Ok (mkHttpResponse 400 (Some integrity_error)).
Proof.
  intros Hlow Hne Hcap r1 r2. subst r1 r2.
  assert (Hrej : header_falsy (headers req !! "X-Hook-Signature")
                 || header_is_array (headers req !! "X-Hook-Signature") = true)
    by (rewrite Hcap; reflexivity).
  split; [|split].
  - rewrite (feeditem_verify_checks E req w s Hlow Hne).
    cbn [fst snd advance trace]. rewrite verifications_app.
    split; reflexivity.
  - rewrite (webhook_verify_rejects E req w Hrej).
    cbn [fst snd advance trace]. rewrite verifications_app.
    cbn [verifications omap header_error app]. rewrite app_nil_r.
    split; reflexivity.
  - unfold Webhook.starlingWebhook.
    erewrite bind_ok; [|apply webhook_verify_rejects; exact Hrej].
    cbv beta. erewrite bind_ok; [|apply log_run]. reflexivity.
Qed.

(** C9 on a request signed under the lower-case name. *)
Lemma verifiers_disagree_on_signed_request :
  let E := accepting_env JNull in
  fst (FeedItem.verifyEvent E req_signed empty_world) = Ok true
  /\ fst (Webhook.verifyEvent E req_signed empty_world) = Ok false
  /\ fst (Webhook.starlingWebhook E req_signed empty_world)
     = Ok (mkHttpResponse 400 (Some integrity_error)).
Proof.
  intros E.
  destruct (verifiers_disagree_on_lowercase_header E req_signed empty_world "c2ln")
    as ((H1 & _) & (H2 & _) & H3).
  - reflexivity.
  - discriminate.
  - reflexivity.
  - split; [exact H1|split; [exact H2|exact H3]].
Defined.

(* ===================================================================== *)
(** ** The webhook handler [starlingFeedItem] *)
(* ===================================================================== *)

(** The verifier answers by the request alone, never throws, and leaves
    one event that is no write. *)
Lemma feeditem_verify_shape (E : Env) (req : HttpRequest) :
  exists b ev,
    (forall w, FeedItem.verifyEvent E req w
               = (Ok b, advance (store w) [ev] 0 0 w))
    /\ sets [ev] = [].
Proof.
  destruct (header_cases (headers req !! "x-hook-signature"))
    as [Hrej|(s & Hs & Hne)].
  - exists false, header_error. split; [|reflexivity].
    intros w. apply feeditem_verify_rejects. exact Hrej.
  - exists (rsa_sha512_verify E (rawBody req) (base64_decode E s)),
           (EvVerify (rawBody req) (base64_decode E s)).
    split; [|reflexivity].
    intros w. apply (feeditem_verify_checks E req w s Hs Hne).
Qed.

Lemma doc_set_ok (E : Env) (path : string) (data : JsValue) (w : World) :
  fs_fault E (fs_ops w) = None ->
  Firestore.doc_set E path data w
  = (Ok tt, advance (<[path := data]> (store w)) [EvSet path data] 0 1 w).
Proof.
  intros Hf. unfold Firestore.doc_set, Firestore.fs_op. rewrite Hf. reflexivity.
Qed.

Lemma read_event_id_run (E : Env) (parsed : JsValue) (w : World) :
  parsed <> JNull ->
  FeedItem.read_event_id parsed w = (Ok (prop parsed "webhookEventUid"), w).
Proof.
  intros Hnn. destruct parsed; try reflexivity. contradiction Hnn. reflexivity.
Qed.

Lemma prop_defined_not_null (v : JsValue) (k : string) (x : JsValue) :
  prop v k = Some x -> v <> JNull.
Proof. intros H Hv. subst v. discriminate H. Qed.

(** The three ways [starlingFeedItem] ends when nothing throws. *)
Lemma feeditem_rejects_signature (E : Env) (req : HttpRequest) (w : World) :
  fst (FeedItem.verifyEvent E req w) = Ok false ->
  exists ev,
    FeedItem.starlingFeedItem E req w
    = (Ok (mkHttpResponse 400 (Some integrity_error)),
       advance (store w) [ev] 0 0 w)
    /\ sets [ev] = [].
Proof.
  intros Hv. destruct (feeditem_verify_shape E req) as (b & ev & Hrun & Hev).
  rewrite Hrun in Hv. cbn [fst] in Hv. injection Hv as ->.
  exists ev. split; [|exact Hev].
  unfold FeedItem.starlingFeedItem.
  erewrite bind_ok; [|apply Hrun]. reflexivity.
Qed.

Lemma feeditem_rejects_missing_id
    (E : Env) (req : HttpRequest) (w : World) (parsed : JsValue) :
  fst (FeedItem.verifyEvent E req w) = Ok true ->
  json_parse E (rawBody req) = Some parsed ->
  parsed <> JNull ->
  truthy (prop parsed "webhookEventUid") = false ->
  exists ev,
    FeedItem.starlingFeedItem E req w
    = (Ok (mkHttpResponse 400 (Some missing_id_error)),
       advance (store w)
               [ev; EvLog Err "Missing webhookEventUid in payload" None] 0 0 w)
    /\ sets [ev] = [].
Proof.
  intros Hv Hparse Hnn Hfalsy.
  destruct (feeditem_verify_shape E req) as (b & ev & Hrun & Hev).
  rewrite Hrun in Hv. cbn [fst] in Hv. injection Hv as ->.
  exists ev. split; [|exact Hev].
  unfold FeedItem.starlingFeedItem.
  erewrite bind_ok; [|apply Hrun]. cbn [negb]. rewrite Hparse.
  erewrite bind_ok; [|apply read_event_id_run; [exact E|exact Hnn]].
  cbv beta. rewrite Hfalsy. cbn [negb].
  erewrite bind_ok; [|apply log_run]. unfold ret.
  rewrite advance_advance. reflexivity.
Qed.

Lemma feeditem_accepts
    (E : Env) (req : HttpRequest) (w : World) (parsed id : JsValue) :
  fst (FeedItem.verifyEvent E req w) = Ok true ->
  json_parse E (rawBody req) = Some parsed ->
  prop parsed "webhookEventUid" = Some id ->
  truthy (Some id) = true ->
  fs_fault E (fs_ops w) = None ->
  exists ev,
    FeedItem.starlingFeedItem E req w
    = (Ok (mkHttpResponse 202 None),
       advance (<[feed_path id := feed_document parsed req]> (store w))
               [ev; EvSet (feed_path id) (feed_document parsed req)] 0 1 w)
    /\ sets [ev] = [].
Proof.
  intros Hv Hparse Hid Htruthy Hf.
  destruct (feeditem_verify_shape E req) as (b & ev & Hrun & Hev).
  rewrite Hrun in Hv. cbn [fst] in Hv. injection Hv as ->.
  exists ev. split; [|exact Hev].
  unfold FeedItem.starlingFeedItem.
  erewrite bind_ok; [|apply Hrun]. cbn [negb]. rewrite Hparse.
  erewrite bind_ok;
    [|apply read_event_id_run;
      [exact E|exact (prop_defined_not_null parsed _ id Hid)]].
  cbv beta. rewrite Hid, Htruthy. cbn [negb to_string_opt].
  erewrite bind_ok; [|apply doc_set_ok; exact Hf].
  unfold ret. rewrite advance_advance. reflexivity.
Qed.

(** C2, as the code has it. For every request: if the signature check
    fails, the answer is 400 with the integrity error and nothing is
    written. If it succeeds and the parsed body (not [null]) has no
    [webhookEventUid] or a falsy one (the empty string, 0, [false],
    [null]), the answer is 400 with the missing-identifier error and
    nothing is written. If it succeeds, the identifier is truthy and the
    storage takes the write, exactly one document is written, at
    [events/starling/feeditem/<id>], holding the parsed body and the
    headers, and the answer is 202 with no body. *)
Theorem feeditem_responses (E : Env) (req : HttpRequest) (w : World) :
  let v := fst (FeedItem.verifyEvent E req w) in
  let r := FeedItem.starlingFeedItem E req w in
  (v = Ok false ->
     fst r = Ok (mkHttpResponse 400 (Some integrity_error))
     /\ store (snd r) = store w
     /\ sets (trace (snd r)) = sets (trace w))
  /\ (forall parsed,
        v = Ok true ->
        json_parse E (rawBody req) = Some parsed ->
        parsed <> JNull ->
        truthy (prop parsed "webhookEventUid") = false ->
        fst r = Ok (mkHttpResponse 400 (Some missing_id_error))
        /\ store (snd r) = store w
        /\ sets (trace (snd r)) = sets (trace w))
  /\ (forall parsed id,
        v = Ok true ->
        json_parse E (rawBody req) = Some parsed ->
        prop parsed "webhookEventUid" = Some id ->
        truthy (Some id) = true ->
        fs_fault E (fs_ops w) = None ->
        fst r = Ok (mkHttpResponse 202 None)
        /\ store (snd r)
           = <["events/starling/feeditem/" +:+ to_string id
               := JObj [("body", parsed);
                        ("headers", headers_to_js (headers req))]]> (store w)
        /\ sets (trace (snd r))
           = sets (trace w)
             ++ [("events/starling/feeditem/" +:+ to_string id,
                  JObj [("body", parsed);
                        ("headers", headers_to_js (headers req))])]).
Proof.
  intros v r. subst v r. split; [|split].
  - intros Hv. destruct (feeditem_rejects_signature E req w Hv) as (ev & Hrun & Hev).
    rewrite Hrun. cbn [fst snd advance store trace].
    rewrite sets_app, Hev, app_nil_r. repeat split.
  - intros parsed Hv Hparse Hnn Hfalsy.
    destruct (feeditem_rejects_missing_id E req w parsed Hv Hparse Hnn Hfalsy)
      as (ev & Hrun & Hev).
    rewrite Hrun. cbn [fst snd advance store trace].
    rewrite sets_app.
    change [ev; EvLog Err "Missing webhookEventUid in payload" None]
      with ([ev] ++ [EvLog Err "Missing webhookEventUid in payload" None]).
    rewrite sets_app, Hev. cbn [sets omap app]. rewrite app_nil_r.
    repeat split.
  - intros parsed id Hv Hparse Hid Htruthy Hf.
    destruct (feeditem_accepts E req w parsed id Hv Hparse Hid Htruthy Hf)
      as (ev & Hrun & Hev).
    rewrite Hrun. cbn [fst snd advance store trace].
    rewrite sets_app.
    change [ev; EvSet (feed_path id) (feed_document parsed req)]
      with ([ev] ++ [EvSet (feed_path id) (feed_document parsed req)]).
    rewrite sets_app, Hev. repeat split.
Qed.

(** C2 on three requests: a refused signature, a body without the
    identifier, and a body with one. *)
Lemma feeditem_on_sample_requests :
  let r1 := FeedItem.starlingFeedItem refusing_env req_signed empty_world in
  let r2 := FeedItem.starlingFeedItem (accepting_env event_without_id)
              req_signed empty_world in
  let r3 := FeedItem.starlingFeedItem (accepting_env event_with_id)
              req_signed empty_world in
  (fst r1 = Ok (mkHttpResponse 400 (Some integrity_error))
   /\ store (snd r1) = ∅)
  /\ (fst r2 = Ok (mkHttpResponse 400 (Some missing_id_error))
      /\ store (snd r2) = ∅)
  /\ (fst r3 = Ok (mkHttpResponse 202 None)
      /\ dom (store (snd r3)) = {["events/starling/feeditem/evt-7f3a"]}).
Proof.
  intros r1 r2 r3.
  destruct (feeditem_responses refusing_env req_signed empty_world)
    as (H1 & _ & _).
  destruct (feeditem_responses (accepting_env event_without_id) req_signed
              empty_world) as (_ & H2 & _).
  destruct (feeditem_responses (accepting_env event_with_id) req_signed
              empty_world) as (_ & _ & H3).
  split; [|split].
  - destruct H1 as (Hr & Hs & _); [reflexivity|].
    subst r1. rewrite Hr, Hs. split; reflexivity.
  - destruct (H2 event_without_id) as (Hr & Hs & _);
      [reflexivity|reflexivity|discriminate|reflexivity|].
    subst r2. rewrite Hr, Hs. split; reflexivity.
  - destruct (H3 event_with_id (JStr "evt-7f3a")) as (Hr & Hs & _);
      [reflexivity|reflexivity|reflexivity|reflexivity|reflexivity|].
    subst r3. rewrite Hr, Hs. split; [reflexivity|].
    unfold empty_world. cbn [store].
    rewrite dom_insert_L, dom_empty_L, union_empty_r_L. reflexivity.
Defined.

(** C2, the claim as stated fails: the signature is accepted and the parsed
    body has the field [webhookEventUid], with the empty string as its
    value; the handler answers 400 and stores nothing, where the claim
    promises one stored document and 202. *)
Lemma feeditem_rejects_empty_event_id :
  let E := accepting_env event_with_empty_id in
  let r := FeedItem.starlingFeedItem E req_signed empty_world in
  fst (FeedItem.verifyEvent E req_signed empty_world) = Ok true
  /\ json_parse E (rawBody req_signed) = Some event_with_empty_id
  /\ prop event_with_empty_id "webhookEventUid" = Some (JStr "")
  /\ fst r = Ok (mkHttpResponse 400 (Some missing_id_error))
  /\ store (snd r) = ∅
  /\ sets (trace (snd r)) = [].
Proof. vm_compute. repeat split. Qed.

(** C7. Two deliveries of an event, both accepted by the signature check,
    whose parsed bodies carry the same truthy [webhookEventUid], with the
    storage taking both writes: both are answered 202; after the first the
    database is the old one with the document of the first delivery at the
    key of the identifier; after the second it is the old one with the
    document of the second delivery at that same key, so the second write
    replaced the first and no other key appeared; and when the two
    deliveries are the same request, the second leaves the database as the
    first left it. *)
Theorem feeditem_redelivery_overwrites
    (E : Env) (req1 req2 : HttpRequest) (w : World)
    (parsed1 parsed2 id : JsValue) :
  fst (FeedItem.verifyEvent E req1 w) = Ok true ->
  fst (FeedItem.verifyEvent E req2 w) = Ok true ->
  json_parse E (rawBody req1) = Some parsed1 ->
  json_parse E (rawBody req2) = Some parsed2 ->
  prop parsed1 "webhookEventUid" = Some id ->
  prop parsed2 "webhookEventUid" = Some id ->
  truthy (Some id) = true ->
  fs_fault E (fs_ops w) = None ->
  fs_fault E (S (fs_ops w)) = None ->
  let key := "events/starling/feeditem/" +:+ to_string id in
  let r1 := FeedItem.starlingFeedItem E req1 w in
  let r2 := FeedItem.starlingFeedItem E req2 (snd r1) in
  fst r1 = Ok (mkHttpResponse 202 None)
  /\ fst r2 = Ok (mkHttpResponse 202 None)
  /\ store (snd r1) = <[key := feed_document parsed1 req1]> (store w)
  /\ store (snd r2) = <[key := feed_document parsed2 req2]> (store w)
  /\ dom (store (snd r2)) = dom (store (snd r1))
  /\ dom (store (snd r2)) = {[key]} ∪ dom (store w)
  /\ (req1 = req2 -> store (snd r2) = store (snd r1)).
Proof.
  intros Hv1 Hv2 Hp1 Hp2 Hid1 Hid2 Htruthy Hf1 Hf2 key r1 r2.
  destruct (feeditem_accepts E req1 w parsed1 id Hv1 Hp1 Hid1 Htruthy Hf1)
    as (ev1 & Hrun1 & _).
  assert (Hv2' : fst (FeedItem.verifyEvent E req2 (snd r1)) = Ok true).
  { destruct (feeditem_verify_shape E req2) as (b & ev & Hrun & _).
    rewrite Hrun in Hv2. rewrite Hrun. exact Hv2. }
  assert (Hf2' : fs_fault E (fs_ops (snd r1)) = None).
  { subst r1. rewrite Hrun1. cbn [snd advance fs_ops]. exact Hf2. }
  destruct (feeditem_accepts E req2 (snd r1) parsed2 id Hv2' Hp2 Hid2 Htruthy Hf2')
    as (ev2 & Hrun2 & _).
  subst r2. rewrite Hrun2. subst r1. rewrite Hrun1.
  cbn [fst snd advance store]. fold key. unfold feed_path. fold key.
  rewrite insert_insert_eq.
  repeat split.
  - rewrite !dom_insert_L. reflexivity.
  - rewrite dom_insert_L. reflexivity.
  - intros Heq. subst req2. rewrite Hp1 in Hp2. injection Hp2 as ->.
    reflexivity.
Qed.

(** C7 on the sample event: delivered twice, and delivered again with one
    more header; one document in the end, the one of the last delivery. *)
Lemma feeditem_delivered_twice :
  let E := accepting_env event_with_id in
  let key := "events/starling/feeditem/evt-7f3a" in
  let r1 := FeedItem.starlingFeedItem E req_signed empty_world in
  let r2 := FeedItem.starlingFeedItem E req_signed (snd r1) in
  let r3 := FeedItem.starlingFeedItem E req_redelivered (snd r1) in
  store (snd r2) = store (snd r1)
  /\ size (store (snd r2)) = 1
  /\ store (snd r3) !! key = Some (feed_document event_with_id req_redelivered)
  /\ size (store (snd r3)) = 1.
Proof.
  intros E key r1 r2 r3.
  destruct (feeditem_redelivery_overwrites E req_signed req_signed empty_world
              event_with_id event_with_id (JStr "evt-7f3a"))
    as (_ & _ & Hs1 & Hs2 & _ & _ & Hsame); try reflexivity.
  destruct (feeditem_redelivery_overwrites E req_signed req_redelivered
              empty_world event_with_id event_with_id (JStr "evt-7f3a"))
    as (_ & _ & _ & Hs3 & _); try reflexivity.
  cbv zeta in Hs1, Hs2, Hs3, Hsame. fold E in Hs1, Hs2, Hs3, Hsame.
  subst r2 r3 r1.
  split; [|split; [|split]].
  - apply Hsame. reflexivity.
  - rewrite Hs2. unfold empty_world; cbn [store].
    rewrite map_size_insert_None; [reflexivity|apply lookup_empty].
  - rewrite Hs3. apply lookup_insert_eq.
  - rewrite Hs3. unfold empty_world; cbn [store].
    rewrite map_size_insert_None; [reflexivity|apply lookup_empty].
Defined.

(* ===================================================================== *)
(** ** The enable flag of the scheduled job *)
(* ===================================================================== *)

(** C8, as the code has it: in the revision that defines
    [ETSY_SYNC_ENABLED], when the value of the flag (["false"] when it is
    not set) is not ["true"] up to the case of its letters, the job logs
    one line and returns: no remote call, no query, no write, the database
    as it was. *)
Theorem gated_sync_disabled_does_nothing
    (E : Env) (cfg : Config) (fuel : nat) (w : World) :
  toLowerCase (LedgerSyncGated.etsySyncEnabled cfg) <> "true" ->
  let r := LedgerSyncGated.etsyLedgerSync E cfg fuel w in
  fst r = Ok tt
  /\ trace (snd r)
     = trace w ++ [EvLog Info "Etsy ledger sync is disabled via configuration"
                         None]
  /\ io (trace (snd r)) = io (trace w)
  /\ store (snd r) = store w
  /\ api_calls (snd r) = api_calls w
  /\ fs_ops (snd r) = fs_ops w.
Proof.
  intros Hoff r. subst r. unfold LedgerSyncGated.etsyLedgerSync.
  apply String.eqb_neq in Hoff. rewrite Hoff. cbn [negb].
  erewrite bind_ok; [|apply log_run]. unfold ret.
  cbn [fst snd advance store trace api_calls fs_ops].
  rewrite io_app. cbn [io List.filter is_io]. rewrite app_nil_r.
  repeat split.
Qed.

(** C8 on three deployments of the gated revision: the flag ["false"], the
    flag unset, and the flag ["False"]; nothing but one log line happens,
    even with pages waiting at the remote API. *)
Lemma gated_sync_disabled_samples :
  let E := sample_env three_pages None false in
  let quiet (cfg : Config) :=
    io (trace (snd (LedgerSyncGated.etsyLedgerSync E cfg 10 empty_world))) = []
    /\ store (snd (LedgerSyncGated.etsyLedgerSync E cfg 10 empty_world)) = ∅ in
  quiet cfg_disabled /\ quiet cfg_unset
  /\ quiet (mkConfig "key" "secret" "7" (Some "False")).
Proof.
  intros E quiet. subst quiet. cbv beta.
  destruct (gated_sync_disabled_does_nothing E cfg_disabled 10 empty_world)
    as (_ & _ & H1 & H1' & _); [vm_compute; discriminate|].
  destruct (gated_sync_disabled_does_nothing E cfg_unset 10 empty_world)
    as (_ & _ & H2 & H2' & _); [vm_compute; discriminate|].
  destruct (gated_sync_disabled_does_nothing E
              (mkConfig "key" "secret" "7" (Some "False")) 10 empty_world)
    as (_ & _ & H3 & H3' & _); [vm_compute; discriminate|].
  repeat split; assumption.
Defined.

(** C8, the claim as stated fails for the job of
    functions/src/etsy/ledgerSync.ts, which reads no enable flag: with the
    flag set to ["false"], and with it unset, the job queries the database,
    sends three requests to the remote API and writes 237 documents. *)
Lemma ungated_sync_ignores_flag :
  let E := sample_env three_pages None false in
  let r1 := LedgerSync.etsyLedgerSync E cfg_disabled 10 empty_world in
  let r2 := LedgerSync.etsyLedgerSync E cfg_unset 10 empty_world in
  (fst r1 = Ok tt
   /\ queries (trace (snd r1))
      = [("events/etsy/ledgerentry", "body.created_timestamp")]
   /\ length (fetches (trace (snd r1))) = 3
   /\ size (store (snd r1)) = 237)
  /\ (fst r2 = Ok tt
      /\ length (queries (trace (snd r2))) = 1
      /\ length (fetches (trace (snd r2))) = 3
      /\ size (store (snd r2)) = 237).
Proof. vm_compute. repeat split. Qed.

(** With the flag ["true"] the gated job runs: from an empty database the
    window starts at 0 and ends thirty days later, and the three sample
    pages are fetched and stored. *)
Lemma gated_sync_enabled_runs :
  let E := sample_env three_pages None false in
  let r := LedgerSyncGated.etsyLedgerSync E cfg_enabled 10 empty_world in
  fst r = Ok tt
  /\ List.map (fun q => (min_created q, max_created q, offset q))
              (fetches (trace (snd r)))
     = [(JNum 0, JNum 2592000, 0%Z); (JNum 0, JNum 2592000, 100%Z);
        (JNum 0, JNum 2592000, 200%Z)]
  /\ size (store (snd r)) = 237.
Proof. vm_compute. repeat split. Qed.

(* ===================================================================== *)
(** ** The sync cursor *)
(* ===================================================================== *)

Lemma query_run (E : Env) (c : string) (f : list string) (w : World) :
  Firestore.query_top_desc E c f w
  = match fs_fault E (fs_ops w) with
    | Some e => (Throw e, advance (store w) [EvQuery c (join "." f)] 0 1 w)
    | None => (Ok (Firestore.top_desc c f (store w)),
               advance (store w) [EvQuery c (join "." f)] 0 1 w)
    end.
Proof.
  unfold Firestore.query_top_desc, Firestore.fs_op.
  destruct (fs_fault E (fs_ops w)); reflexivity.
Qed.

(** X1. [getLastSyncTimestamp] returns in every world: nothing it does can
    throw past its [catch]. *)
Lemma getLastSyncTimestamp_returns (E : Env) (w : World) :
  exists v, fst (LedgerSync.getLastSyncTimestamp E w) = Ok v.
Proof.
  unfold LedgerSync.getLastSyncTimestamp, try_catch, bind.
  rewrite query_run.
  destruct (fs_fault E (fs_ops w)) as [e|].
  - eexists. reflexivity.
  - destruct (Firestore.top_desc _ _ (store w)) as [|d ds].
    + eexists. reflexivity.
    + cbv zeta.
      destruct (truthy _); cbn [negb]; eexists; reflexivity.
Qed.

(** X2. The three fallbacks of the revision in functions/src/etsy: a failed
    query, an empty result, and a first document whose
    [body.created_timestamp] is falsy (0, the empty string, [null],
    [false]; the ordered query returns no document without the field) all
    give the clock minus thirty days. *)
Lemma getLastSyncTimestamp_fallbacks (E : Env) (w : World) :
  let fallback := Ok (JNum (clock_ms w / 1000 - 2592000)) in
  (fs_fault E (fs_ops w) <> None ->
     fst (LedgerSync.getLastSyncTimestamp E w) = fallback)
  /\ (fs_fault E (fs_ops w) = None ->
      Firestore.top_desc "events/etsy/ledgerentry" ["body"; "created_timestamp"]
                         (store w) = [] ->
      fst (LedgerSync.getLastSyncTimestamp E w) = fallback)
  /\ (forall d ds,
      fs_fault E (fs_ops w) = None ->
      Firestore.top_desc "events/etsy/ledgerentry" ["body"; "created_timestamp"]
                         (store w) = d :: ds ->
      truthy (Firestore.field_at ["body"; "created_timestamp"] d) = false ->
      fst (LedgerSync.getLastSyncTimestamp E w) = fallback).
Proof.
  intros fallback. subst fallback.
  unfold LedgerSync.getLastSyncTimestamp, try_catch, bind.
  rewrite query_run. split; [|split].
  - intros Hf. destruct (fs_fault E (fs_ops w)); [reflexivity|].
    contradiction Hf. reflexivity.
  - intros Hf Hq. rewrite Hf, Hq. reflexivity.
  - intros d ds Hf Hq Hfalsy. rewrite Hf, Hq. cbv zeta.
    assert (Hts : match prop d "body" with
                  | None | Some JNull => None
                  | Some body => prop body "created_timestamp"
                  end
                  = Firestore.field_at ["body"; "created_timestamp"] d).
    { cbn [Firestore.field_at].
      destruct (prop d "body") as [b|]; [|reflexivity].
      destruct b; cbn [prop]; try reflexivity.
      destruct (assoc "created_timestamp" fields); reflexivity. }
    rewrite Hts, Hfalsy. reflexivity.
Qed.

(** X2 on three worlds, with the clock at 1800000000 seconds: a storage
    that refuses the query; an empty database; and a ledger collection
    whose one document keeps the timestamp 0 under [body]. *)
Lemma getLastSyncTimestamp_fallback_samples :
  let zero := world_of (<["events/etsy/ledgerentry/a" := wrapped 0]> ∅) in
  fst (LedgerSync.getLastSyncTimestamp (faulty_env [] 0 None false) empty_world)
  = Ok (JNum 1797408000)
  /\ fst (LedgerSync.getLastSyncTimestamp (sample_env [] None false) empty_world)
     = Ok (JNum 1797408000)
  /\ Firestore.top_desc "events/etsy/ledgerentry" ["body"; "created_timestamp"]
                        (store zero) = [wrapped 0]
  /\ fst (LedgerSync.getLastSyncTimestamp (sample_env [] None false) zero)
     = Ok (JNum 1797408000).
Proof.
  intros zero.
  split; [|split; [|split]].
  - apply (proj1 (getLastSyncTimestamp_fallbacks
                    (faulty_env [] 0 None false) empty_world)).
    vm_compute. discriminate.
  - apply (proj1 (proj2 (getLastSyncTimestamp_fallbacks
                           (sample_env [] None false) empty_world)));
      vm_compute; reflexivity.
  - vm_compute. reflexivity.
  - apply (proj2 (proj2 (getLastSyncTimestamp_fallbacks
                           (sample_env [] None false) zero))
             (wrapped 0) []); vm_compute; reflexivity.
Defined.

(** C3, where the code departs from it: an entry that [persistBatch] has
    written is stored with [created_timestamp] at the top of the document,
    and the cursor looks for [body.created_timestamp]; with the entry
    1700000007 in the database and the clock at 1800000000 seconds, the
    cursor is 1800000000 - 2592000 in one revision and [null] in the other,
    not 1700000007. *)
Lemma cursor_misses_persisted_entry :
  let E := sample_env [] None false in
  let w1 := snd (LedgerSync.persistBatch E [sample_entry 7] empty_world) in
  store w1 !! "events/etsy/ledgerentry/7" = Some (JObj (sample_entry 7))
  /\ assoc "created_timestamp" (sample_entry 7) = Some (JNum 1700000007)
  /\ fst (LedgerSync.getLastSyncTimestamp E w1) = Ok (JNum 1797408000)
  /\ fst (LedgerSyncGated.getLastSyncTimestamp E w1) = Ok None.
Proof. vm_compute. repeat split. Qed.

(* ===================================================================== *)
(** ** The two revisions of the sync, side by side *)
(* ===================================================================== *)

Lemma sim_refl (w : World) : sim w w.
Proof. unfold sim. repeat split. Qed.

Lemma sim_emit (ev1 ev2 : Event) (w1 w2 : World) :
  erase_event ev1 = erase_event ev2 -> sim w1 w2 ->
  sim (emit ev1 w1) (emit ev2 w2).
Proof.
  intros Hev (Hs & Ht & Ha & Hf & Hc). unfold sim, emit.
  cbn [store trace api_calls fs_ops clock_ms].
  repeat split; try assumption.
  rewrite !List.map_app, Ht. cbn [List.map]. rewrite Hev. reflexivity.
Qed.

Lemma msim_ret {A} (a : A) : msim (ret a) (ret a).
Proof. intros w1 w2 H. split; [reflexivity|exact H]. Qed.

Lemma msim_throw {A} (e : Error) : msim (@throw A e) (throw e).
Proof. intros w1 w2 H. split; [reflexivity|exact H]. Qed.

Lemma msim_diverge {A} : msim (@diverge A) diverge.
Proof. intros w1 w2 H. split; [reflexivity|exact H]. Qed.

Lemma msim_bind {A B} (m1 m2 : M A) (k1 k2 : A -> M B) :
  msim m1 m2 -> (forall a, msim (k1 a) (k2 a)) -> msim (bind m1 k1) (bind m2 k2).
Proof.
  intros Hm Hk w1 w2 Hw. unfold bind.
  destruct (Hm w1 w2 Hw) as [Hout Hsim].
  destruct (m1 w1) as [o1 w1'], (m2 w2) as [o2 w2'].
  cbn [fst snd] in Hout, Hsim. subst o2.
  destruct o1 as [a|e|].
  - apply Hk. exact Hsim.
  - split; [reflexivity|exact Hsim].
  - split; [reflexivity|exact Hsim].
Qed.

Lemma msim_try {A} (m1 m2 : M A) (h1 h2 : Error -> M A) :
  msim m1 m2 -> (forall e, msim (h1 e) (h2 e)) ->
  msim (try_catch m1 h1) (try_catch m2 h2).
Proof.
  intros Hm Hh w1 w2 Hw. unfold try_catch.
  destruct (Hm w1 w2 Hw) as [Hout Hsim].
  destruct (m1 w1) as [o1 w1'], (m2 w2) as [o2 w2'].
  cbn [fst snd] in Hout, Hsim. subst o2.
  destruct o1 as [a|e|].
  - split; [reflexivity|exact Hsim].
  - apply Hh. exact Hsim.
  - split; [reflexivity|exact Hsim].
Qed.

Lemma msim_log lvl msg arg : msim (log lvl msg arg) (log lvl msg arg).
Proof.
  intros w1 w2 Hw. unfold log. cbn [fst snd]. split; [reflexivity|].
  apply sim_emit; [reflexivity|exact Hw].
Qed.

Lemma msim_batch_commit (E : Env) (b : list (string * Entry)) :
  msim (Firestore.batch_commit E b) (Firestore.batch_commit E b).
Proof.
  intros w1 w2 Hw. unfold Firestore.batch_commit, Firestore.fs_op.
  assert (Hw' : sim (tick_fs (emit (EvCommit b) w1)) (tick_fs (emit (EvCommit b) w2))).
  { apply (sim_emit (EvCommit b) (EvCommit b)) in Hw; [|reflexivity].
    destruct Hw as (Hs & Ht & Ha & Hf & Hc). unfold sim, tick_fs.
    cbn [store trace api_calls fs_ops clock_ms] in *.
    repeat split; try assumption. congruence. }
  destruct Hw as (Hs & Ht & Ha & Hf & Hc). rewrite Hf.
  destruct (fs_fault E (fs_ops w2)).
  - split; [reflexivity|exact Hw'].
  - cbn [fst snd]. split; [reflexivity|].
    destruct Hw' as (Hs' & Ht' & Ha' & Hf' & Hc'). unfold sim, with_store.
    cbn [store trace api_calls fs_ops clock_ms] in *.
    repeat split; try assumption; congruence.
Qed.

Lemma msim_keep_entry (e : Entry) :
  msim (LedgerSync.keep_entry e) (LedgerSync.keep_entry e).
Proof.
  unfold LedgerSync.keep_entry. destruct (negb _).
  - apply msim_bind; [apply msim_log|intros _; apply msim_ret].
  - apply msim_ret.
Qed.

Lemma msim_filterM {A} (f : A -> M bool) (xs : list A) :
  (forall x, msim (f x) (f x)) -> msim (filterM f xs) (filterM f xs).
Proof.
  intros Hf. induction xs as [|x rest IH]; cbn [filterM].
  - apply msim_ret.
  - apply msim_bind; [apply Hf|intros keep].
    apply msim_bind; [exact IH|intros kept]. apply msim_ret.
Qed.

Lemma msim_persistBatch (E : Env) (entries : list Entry) :
  msim (LedgerSync.persistBatch E entries)
       (LedgerSyncGated.persistBatch E entries).
Proof.
  unfold LedgerSync.persistBatch, LedgerSyncGated.persistBatch.
  destruct (len entries =? 0)%Z; [apply msim_ret|].
  apply msim_bind; [apply msim_filterM; apply msim_keep_entry|intros valid].
  destruct (len valid =? 0)%Z; [apply msim_ret|].
  apply msim_bind; [apply msim_batch_commit|intros _].
  apply msim_bind; [apply msim_log|intros _]. apply msim_ret.
Qed.

Lemma msim_api_fetch (E : Env) (r1 r2 : Request) :
  erase_options r1 = erase_options r2 ->
  (forall n, remote E n r1 = remote E n r2) ->
  msim (api_fetch E r1) (api_fetch E r2).
Proof.
  intros Hr Hsame w1 w2 Hw. unfold api_fetch.
  assert (Hw' : sim (tick_api (emit (EvFetch r1) w1))
                    (tick_api (emit (EvFetch r2) w2))).
  { apply (sim_emit (EvFetch r1) (EvFetch r2)) in Hw;
      [|cbn [erase_event]; rewrite Hr; reflexivity].
    destruct Hw as (Hs & Ht & Ha & Hf & Hc). unfold sim, tick_api.
    cbn [store trace api_calls fs_ops clock_ms] in *.
    repeat split; try assumption. congruence. }
  destruct Hw as (Hs & Ht & Ha & Hf & Hc). rewrite Ha, Hsame.
  destruct (remote E (api_calls w2) r2); split; try reflexivity; exact Hw'.
Qed.

Lemma msim_processPage (E : Env) (shop : Z) (minC maxC : JsValue) :
  same_answers E shop minC maxC ->
  forall fuel off tot,
  msim (LedgerSync.processPage E shop minC maxC fuel off tot)
       (LedgerSyncGated.processPage E shop minC maxC fuel off tot).
Proof.
  intros Hsame. induction fuel as [|fuel IH]; intros off tot.
  - apply msim_diverge.
  - cbn [LedgerSync.processPage LedgerSyncGated.processPage].
    apply msim_bind; [apply msim_log|intros _].
    apply msim_bind;
      [apply msim_api_fetch; [reflexivity|intros n; apply Hsame]|intros res].
    cbv zeta.
    apply msim_bind; [apply msim_log|intros _].
    apply msim_bind; [apply msim_persistBatch|intros n].
    unfold LedgerSync.limit, LedgerSyncGated.limit.
    destruct (_ || _); [apply msim_ret|apply IH].
Qed.

Lemma commits_erase (tr : list Event) :
  commits (List.map erase_event tr) = commits tr.
Proof.
  induction tr as [|ev rest IH]; [reflexivity|].
  change (commits (erase_event ev :: List.map erase_event rest)
          = commits (ev :: rest)).
  change (commits ([erase_event ev] ++ List.map erase_event rest)
          = commits ([ev] ++ rest)).
  rewrite !commits_app, IH. destruct ev; reflexivity.
Qed.

(** C10, as the code has it. The two revisions have the same [persistBatch] (the
    same answer and the same world after it, for every list of entries,
    environment and world), and, against a remote API that answers their
    requests alike, the same [fetchAndPersistLedgerEntries]: from one
    world, for every window and fuel, they end alike (the same count, the
    same error, or both out of fuel), leave the same database, commit the
    same batches in the same order, and leave traces that differ only in
    the second argument of the remote calls. *)
Theorem revisions_persist_alike
    (E : Env) (shop : Z) (minC maxC : JsValue) (fuel : nat) (w : World) :
  same_answers E shop minC maxC ->
  let rA := LedgerSync.fetchAndPersistLedgerEntries E shop minC maxC fuel w in
  let rB := LedgerSyncGated.fetchAndPersistLedgerEntries E shop minC maxC fuel w in
  (forall entries w',
     LedgerSyncGated.persistBatch E entries w'
     = LedgerSync.persistBatch E entries w')
  /\ fst rA = fst rB
  /\ store (snd rA) = store (snd rB)
  /\ commits (trace (snd rA)) = commits (trace (snd rB))
  /\ List.map erase_event (trace (snd rA))
     = List.map erase_event (trace (snd rB)).
Proof.
  intros Hsame rA rB. split; [reflexivity|].
  assert (H : msim (LedgerSync.fetchAndPersistLedgerEntries E shop minC maxC fuel)
                   (LedgerSyncGated.fetchAndPersistLedgerEntries E shop minC maxC fuel)).
  { unfold LedgerSync.fetchAndPersistLedgerEntries,
           LedgerSyncGated.fetchAndPersistLedgerEntries.
    apply msim_try.
    - apply msim_bind; [apply msim_processPage; exact Hsame|intros n].
      apply msim_bind; [apply msim_log|intros _]. apply msim_ret.
    - intros e. apply msim_bind; [apply msim_log|intros _]. apply msim_throw. }
  destruct (H w w (sim_refl w)) as (Hout & Hs & Ht & _).
  subst rA rB. repeat split; try assumption.
  rewrite <- (commits_erase (trace (snd (LedgerSync.fetchAndPersistLedgerEntries _ _ _ _ _ _)))).
  rewrite Ht. apply commits_erase.
Qed.

(** C10 on the three sample pages: both revisions return 237 and leave the
    same database. *)
Lemma revisions_on_three_pages :
  let E := sample_env three_pages None false in
  let rA := LedgerSync.fetchAndPersistLedgerEntries E 7 (JNum 0) (JNum 9) 10
              empty_world in
  let rB := LedgerSyncGated.fetchAndPersistLedgerEntries E 7 (JNum 0) (JNum 9) 10
              empty_world in
  fst rA = Ok 237%Z /\ fst rB = Ok 237%Z /\ store (snd rA) = store (snd rB).
Proof.
  intros E rA rB.
  destruct (revisions_persist_alike E 7 (JNum 0) (JNum 9) 10 empty_world)
    as (_ & Hout & Hstore & _).
  - intros n off. reflexivity.
  - fold rA rB in Hout, Hstore. split; [|split].
    + vm_compute. reflexivity.
    + rewrite <- Hout. vm_compute. reflexivity.
    + exact Hstore.
Defined.

(** C10, the claim as stated fails: the two revisions of
    [fetchAndPersistLedgerEntries] do not send the same requests. From the
    same world, with the same window, the revision of
    functions/src/etsy/ledgerSync.ts passes [{ etsyUserId: 0 }] as second
    argument of every call and the other revision passes none, so the two
    differ in more than the cursor fallback, the end of the window and the
    enable flag; and against a remote API that answers by that argument
    they do not write the same documents: the first returns 237 and stores
    237 documents, the second throws and stores none. *)
Lemma revisions_send_different_requests :
  let E := sample_env three_pages None false in
  let rA := LedgerSync.fetchAndPersistLedgerEntries E 7 (JNum 0) (JNum 9) 10
              empty_world in
  let rB := LedgerSyncGated.fetchAndPersistLedgerEntries E 7 (JNum 0) (JNum 9) 10
              empty_world in
  let U := user_scoped_env three_pages in
  let uA := LedgerSync.fetchAndPersistLedgerEntries U 7 (JNum 0) (JNum 9) 10
              empty_world in
  let uB := LedgerSyncGated.fetchAndPersistLedgerEntries U 7 (JNum 0) (JNum 9) 10
              empty_world in
  List.map options (fetches (trace (snd rA))) = [Some 0%Z; Some 0%Z; Some 0%Z]
  /\ List.map options (fetches (trace (snd rB))) = [None; None; None]
  /\ fetches (trace (snd rA)) <> fetches (trace (snd rB))
  /\ fst uA = Ok 237%Z /\ size (store (snd uA)) = 237
  /\ fst uB = Throw (JsError "Error" "no user to find a token for")
  /\ store (snd uB) = ∅.
Proof.
  vm_compute. repeat split. discriminate.
Qed.

(* ===================================================================== *)
(** ** The cursor against what persistBatch stores *)
(* ===================================================================== *)

Lemma omap_none {A B} (f : A -> option B) (l : list A) :
  (forall x, In x l -> f x = None) -> omap f l = [].
Proof.
  induction l as [|x rest IH]; intros H; [reflexivity|].
  change (omap f (x :: rest))
    with (match f x with Some y => y :: omap f rest | None => omap f rest end).
  rewrite (H x (or_introl eq_refl)).
  apply IH. intros y Hy. apply H. right. exact Hy.
Qed.

Lemma top_desc_flat (c : string) (s : gmap string JsValue) :
  flat_store s -> Firestore.top_desc c ["body"; "created_timestamp"] s = [].
Proof.
  intros Hflat. unfold Firestore.top_desc, Firestore.candidates.
  rewrite omap_none; [reflexivity|].
  intros [path d] Hin. cbn [fst snd].
  apply list_elem_of_In, elem_of_map_to_list in Hin.
  destruct (Firestore.child_of c path); [|reflexivity].
  cbn [Firestore.field_at]. rewrite (Hflat path d Hin). reflexivity.
Qed.

Lemma assoc_app (k : string) (a b : Entry) :
  assoc k (a ++ b) = match assoc k a with Some v => Some v | None => assoc k b end.
Proof.
  induction a as [|[k' v] rest IH]; [reflexivity|].
  cbn [app assoc]. destruct (String.eqb k k'); [reflexivity|exact IH].
Qed.

Lemma assoc_filter_none (k : string) (P : string * JsValue -> bool) (l : Entry) :
  assoc k l = None -> assoc k (List.filter P l) = None.
Proof.
  induction l as [|[k' v] rest IH]; [reflexivity|].
  cbn [assoc List.filter]. destruct (String.eqb k k') eqn:Hk; [discriminate|].
  intros H. destruct (P (k', v)); [cbn [assoc]; rewrite Hk|]; apply IH; exact H.
Qed.

Lemma apply_write_flat (s : gmap string JsValue) (wr : string * Entry) :
  flat_store s -> flat_entry (snd wr) -> flat_store (Firestore.apply_write s wr).
Proof.
  intros Hflat He path d. unfold Firestore.apply_write.
  destruct (decide (fst wr = path)) as [<-|Hne].
  - rewrite lookup_insert_eq. intros [= <-].
    unfold Firestore.merge_doc.
    destruct (s !! fst wr) as [old|] eqn:Hold; [|exact He].
    destruct old; try exact He.
    cbn [prop]. unfold Firestore.merge_fields. rewrite assoc_app.
    unfold flat_entry in He. rewrite He.
    apply assoc_filter_none. apply (Hflat _ _ Hold).
  - rewrite lookup_insert_ne by exact Hne. apply Hflat.
Qed.

Lemma apply_writes_flat (writes : list (string * Entry)) :
  forall s, flat_store s -> Forall (fun wr => flat_entry (snd wr)) writes ->
  flat_store (Firestore.apply_writes s writes).
Proof.
  unfold Firestore.apply_writes.
  induction writes as [|wr rest IH]; intros s Hs Hw; [exact Hs|].
  inversion Hw; subst. cbn [fold_left].
  apply IH; [apply apply_write_flat|]; assumption.
Qed.

Lemma batch_of_flat (p : list Entry) :
  Forall flat_entry p -> Forall (fun wr => flat_entry (snd wr)) (batch_of p).
Proof.
  intros Hp. unfold batch_of, valid_entries.
  induction Hp as [|e rest He Hrest IH]; [constructor|].
  cbn [List.filter]. destruct (has_id e); [|exact IH].
  cbn [List.map]. constructor; [exact He|exact IH].
Qed.

Lemma store_after_flat (ps : list (list Entry)) :
  forall s, flat_store s -> Forall (Forall flat_entry) ps ->
  flat_store (store_after s ps).
Proof.
  unfold store_after.
  induction ps as [|p rest IH]; intros s Hs Hps; [exact Hs|].
  inversion Hps; subst. cbn [fold_left].
  apply IH; [|assumption].
  apply apply_writes_flat; [exact Hs|apply batch_of_flat; assumption].
Qed.

(** X3. The cursor never reads what [persistBatch] stored: whatever pages of
    entries (none with a [body] property) were persisted into a database
    without [body] fields, and whatever the storage answers, the cursor of
    the first revision is the clock minus thirty days and the cursor of
    the second is [null]. *)
Lemma cursor_blind_to_persisted_pages
    (E : Env) (ps : list (list Entry)) (w : World) :
  flat_store (store w) ->
  Forall (Forall flat_entry) ps ->
  let w' := with_store (store_after (store w) ps) w in
  fst (LedgerSync.getLastSyncTimestamp E w')
  = Ok (JNum (clock_ms w / 1000 - 2592000))
  /\ fst (LedgerSyncGated.getLastSyncTimestamp E w') = Ok None.
Proof.
  intros Hflat Hps w'.
  assert (Hq : Firestore.top_desc "events/etsy/ledgerentry"
                 ["body"; "created_timestamp"] (store w') = [])
    by (apply top_desc_flat; apply store_after_flat; assumption).
  unfold LedgerSync.getLastSyncTimestamp, LedgerSyncGated.getLastSyncTimestamp,
    try_catch, bind.
  rewrite query_run, Hq.
  destruct (fs_fault E (fs_ops w')); split; reflexivity.
Qed.


(** The cursor on documents that do keep the entry under [body]: the
    greatest timestamp of the collection is returned; a greatest timestamp
    of 0 counts as missing in the first revision. *)
Lemma cursor_reads_body_timestamp :
  let E := sample_env [] None false in
  fst (LedgerSync.getLastSyncTimestamp E (world_of wrapped_store))
  = Ok (JNum 9)
  /\ fst (LedgerSyncGated.getLastSyncTimestamp E (world_of wrapped_store))
     = Ok (Some (JNum 9))
  /\ fst (LedgerSync.getLastSyncTimestamp E
            (world_of (<["events/etsy/ledgerentry/a" := wrapped 0]> ∅)))
     = Ok (JNum 1797408000).
Proof. vm_compute. repeat split. Qed.

(** X3 on one persisted entry. *)
Lemma cursor_blind_to_one_entry :
  let E := sample_env [] None false in
  let w' := with_store (store_after ∅ [[sample_entry 7]]) empty_world in
  store w' !! "events/etsy/ledgerentry/7" = Some (JObj (sample_entry 7))
  /\ fst (LedgerSync.getLastSyncTimestamp E w') = Ok (JNum 1797408000)
  /\ fst (LedgerSyncGated.getLastSyncTimestamp E w') = Ok None.
Proof.
  intros E w'.
  destruct (cursor_blind_to_persisted_pages E [[sample_entry 7]] empty_world)
    as [HA HB].
  - intros path d H. cbn [empty_world store] in H.
    rewrite lookup_empty in H. discriminate.
  - repeat constructor.
  - split; [vm_compute; reflexivity|]. split; [exact HA|exact HB].
Defined.


(* ===================================================================== *)
(** ** The page loop against any remote API and any storage *)
(* ===================================================================== *)

Lemma persistBatch_refused_run
    (E : Env) (entries : list Entry) (w : World) (e : Error) :
  fs_fault E (fs_ops w) = Some e ->
  valid_entries entries <> [] ->
  LedgerSync.persistBatch E entries w
  = (Throw e,
     advance (store w)
             (List.map drop_log (dropped_entries entries)
              ++ [EvCommit (batch_of entries)]) 0 1 w).
Proof.
  intros Hf Hv. unfold LedgerSync.persistBatch.
  destruct entries as [|x rest]; [contradiction Hv; reflexivity|].
  rewrite len_cons_nonzero.
  rewrite (bind_ok _ _ _ _ _ (filterM_keep_run _ w)).
  unfold batch_of.
  destruct (valid_entries (x :: rest)) as [|v vs]; [contradiction Hv; reflexivity|].
  rewrite len_cons_nonzero.
  erewrite bind_throw; [|apply batch_commit_fault; exact Hf].
  rewrite advance_advance. reflexivity.
Qed.

Lemma queries_app (a b : list Event) : queries (a ++ b) = queries a ++ queries b.
Proof. unfold queries. apply omap_app. Qed.

Lemma quiet_drop_logs (es : list Entry) :
  queries (List.map drop_log es) = [] /\ sets (List.map drop_log es) = [].
Proof. induction es as [|e es IH]; [split; reflexivity|exact IH]. Qed.

Lemma quiet_persist (p : list Entry) :
  queries (persist_events p) = [] /\ sets (persist_events p) = [].
Proof.
  unfold persist_events. rewrite queries_app, sets_app.
  destruct (quiet_drop_logs (dropped_entries p)) as [-> ->].
  destruct (batch_of p); split; reflexivity.
Qed.

Lemma written_persist (p : list Entry) :
  written (commits (persist_events p)) = len (valid_entries p).
Proof.
  rewrite commits_persist.
  assert (Hlen : len (batch_of p) = len (valid_entries p))
    by (unfold len, batch_of; rewrite length_map; reflexivity).
  destruct (batch_of p) as [|b bs] eqn:Hb.
  - rewrite <- Hlen. reflexivity.
  - cbn [written fold_right]. rewrite <- Hlen. lia.
Qed.

Lemma strip_prefix_app (p s : string) :
  Firestore.strip_prefix p (p +:+ s) = Some s.
Proof.
  induction p as [|c p IH]; [reflexivity|].
  simpl. rewrite Ascii.eqb_refl. exact IH.
Qed.

Lemma entry_path_inside (e : Entry) (path : string) :
  outside_ledger path -> LedgerSync.entry_path e <> path.
Proof.
  unfold outside_ledger, LedgerSync.entry_path. intros Hout Heq. subst path.
  rewrite strip_prefix_app in Hout. discriminate.
Qed.

Lemma apply_writes_other (writes : list (string * Entry)) (path : string) :
  forall s,
  (forall wr, In wr writes -> fst wr <> path) ->
  Firestore.apply_writes s writes !! path = s !! path.
Proof.
  unfold Firestore.apply_writes.
  induction writes as [|wr rest IH]; intros s Hne; [reflexivity|].
  cbn [fold_left]. rewrite IH.
  - unfold Firestore.apply_write. apply lookup_insert_ne.
    apply Hne. left. reflexivity.
  - intros wr' Hin. apply Hne. right. exact Hin.
Qed.

Lemma batch_of_paths (p : list Entry) (wr : string * Entry) :
  In wr (batch_of p) ->
  fst wr = LedgerSync.entry_path (snd wr) /\ In (snd wr) (valid_entries p).
Proof.
  unfold batch_of. rewrite List.in_map_iff. intros (e & <- & Hin).
  split; [reflexivity|exact Hin].
Qed.

Lemma batch_frame (p : list Entry) (s : gmap string JsValue) (path : string) :
  outside_ledger path ->
  Firestore.apply_writes s (batch_of p) !! path = s !! path.
Proof.
  intros Hout. apply apply_writes_other. intros wr Hin.
  destruct (batch_of_paths p wr Hin) as [-> _].
  apply entry_path_inside. exact Hout.
Qed.

Ltac world_eq :=
  unfold advance; cbn [store trace api_calls fs_ops clock_ms];
  f_equal; try lia; rewrite <- ?app_assoc; reflexivity.

(** One round of the loop, whatever is answered: it sends the request for
    [off] and nothing else to the remote API, touches no document outside
    the ledger collection, and then throws, returns, or goes on to the next
    page with the count of what it committed. *)
Lemma round_run (E : Env) (req_at : Z -> Request) (next : Z -> Z -> M Z)
    (off tot : Z) (w : World) :
  exists evs s' f,
    let w' := advance s' evs 1 f w in
    fetches evs = [req_at off]
    /\ queries evs = [] /\ sets evs = []
    /\ (forall path, outside_ledger path -> s' !! path = store w !! path)
    /\ ((exists e, round E req_at next off tot w = (Throw e, w'))
        \/ round E req_at next off tot w
           = (Ok (tot + written (commits evs))%Z, w')
        \/ round E req_at next off tot w
           = next (off + 100)%Z (tot + written (commits evs))%Z w').
Proof.
  set (flog := EvLog Info ("Fetching ledger entries: offset=" +:+ show_Z off
                           +:+ ", limit=" +:+ show_Z 100) None).
  unfold round. fold flog.
  erewrite bind_ok; [|apply log_run]. cbv beta.
  destruct (remote E (api_calls w) (req_at off)) as [e|res] eqn:Hr.
  - erewrite bind_throw; [|apply api_fetch_throws; exact Hr].
    exists [flog; EvFetch (req_at off)], (store w), 0. cbv zeta.
    split; [reflexivity|]. split; [reflexivity|]. split; [reflexivity|].
    split; [reflexivity|]. left. exists e. f_equal. world_eq.
  - erewrite bind_ok; [|apply api_fetch_page; exact Hr]. cbv beta zeta.
    set (p := results_or_empty res).
    set (rlog := EvLog Info ("Received " +:+ show_Z (len p) +:+ " entries") None).
    erewrite bind_ok; [|apply log_run]. cbv beta.
    set (w3 := advance (store w) [flog; EvFetch (req_at off); rlog] 1 0 w).
    match goal with
    | |- context [bind (LedgerSync.persistBatch E p) ?k ?W] =>
        replace W with w3 by (subst w3; world_eq)
    end.
    assert (Hops : fs_ops w3 = fs_ops w) by reflexivity.
    destruct (fs_fault E (fs_ops w3)) as [e|] eqn:Hf;
      [destruct (valid_entries p) as [|v vs] eqn:Hv|].
    + (* nothing to commit: the fault is not met *)
      erewrite bind_ok; [|apply persistBatch_none_valid; exact Hv].
      cbv beta.
      exists ([flog; EvFetch (req_at off); rlog]
              ++ List.map drop_log (dropped_entries p)), (store w), 0.
      cbv zeta.
      assert (Hc : written (commits ([flog; EvFetch (req_at off); rlog]
                     ++ List.map drop_log (dropped_entries p))) = 0%Z)
        by (rewrite commits_app, commits_drop_logs; reflexivity).
      rewrite Hc.
      split; [rewrite fetches_app, fetches_drop_logs; reflexivity|].
      split; [rewrite queries_app, (proj1 (quiet_drop_logs _)); reflexivity|].
      split; [rewrite sets_app, (proj2 (quiet_drop_logs _)); reflexivity|].
      split; [reflexivity|].
      right. subst w3. rewrite advance_advance.
      destruct (_ || _); [left|right]; unfold ret; reflexivity.
    + (* the commit is refused *)
      erewrite bind_throw;
        [|apply persistBatch_refused_run; [exact Hf|rewrite Hv; discriminate]].
      exists ([flog; EvFetch (req_at off); rlog]
              ++ List.map drop_log (dropped_entries p)
              ++ [EvCommit (batch_of p)]), (store w), 1.
      cbv zeta.
      split; [rewrite !fetches_app, fetches_drop_logs; reflexivity|].
      split; [rewrite !queries_app, (proj1 (quiet_drop_logs _)); reflexivity|].
      split; [rewrite !sets_app, (proj2 (quiet_drop_logs _)); reflexivity|].
      split; [reflexivity|].
      left. exists e. subst w3. rewrite advance_advance. reflexivity.
    + (* the page is persisted *)
      erewrite bind_ok; [|apply persistBatch_run; exact Hf].
      cbv beta.
      exists ([flog; EvFetch (req_at off); rlog] ++ persist_events p),
             (Firestore.apply_writes (store w) (batch_of p)),
             (commit_count p + 0).
      cbv zeta.
      assert (Hc : written (commits ([flog; EvFetch (req_at off); rlog]
                     ++ persist_events p)) = len (valid_entries p))
        by (rewrite commits_app; apply written_persist).
      rewrite Hc.
      split; [rewrite fetches_app, fetches_persist; reflexivity|].
      split; [rewrite queries_app, (proj1 (quiet_persist _)); reflexivity|].
      split; [rewrite sets_app, (proj2 (quiet_persist _)); reflexivity|].
      split; [intros path Hout; apply batch_frame; exact Hout|].
      right. subst w3. rewrite advance_advance.
      destruct (_ || _); [left|right]; unfold ret; reflexivity.
Qed.

Lemma commits_nil_written : written (commits []) = 0%Z.
Proof. reflexivity. Qed.

Lemma written_app (a b : list (list (string * Entry))) :
  written (a ++ b) = (written a + written b)%Z.
Proof.
  induction a as [|x rest IH]; [reflexivity|].
  change (written ((x :: rest) ++ b)) with (len x + written (rest ++ b))%Z.
  change (written (x :: rest)) with (len x + written rest)%Z.
  rewrite IH. lia.
Qed.

Section Loop.
Context (E : Env) (req_at : Z -> Request) (loop : nat -> Z -> Z -> M Z).
Hypothesis loop_O : forall off tot, loop 0 off tot = diverge.
Hypothesis loop_S :
  forall fuel off tot, loop (S fuel) off tot = round E req_at (loop fuel) off tot.

Lemma loop_invariant (fuel : nat) :
  forall off tot w, loop_post req_at fuel off tot w (loop fuel off tot w).
Proof.
  induction fuel as [|fuel IH]; intros off tot w.
  - rewrite loop_O. exists 0, []. cbn [diverge fst snd seq List.map].
    rewrite app_nil_r.
    repeat split; try reflexivity; try lia. intros n H. discriminate H.
  - rewrite loop_S.
    destruct (round_run E req_at (loop fuel) off tot w)
      as (evs & s' & f & Hfe & Hq & Hs & Hframe & Hrun).
    cbv zeta in Hrun.
    assert (Hone : List.map (fun i => req_at (off + 100 * Z.of_nat i)%Z) (seq 0 1)
                   = [req_at off]).
    { cbn [seq List.map]. do 2 f_equal. lia. }
    destruct Hrun as [(e & Hrun)|[Hrun|Hrun]]; rewrite Hrun.
    + exists 1, evs. cbn [fst snd advance trace api_calls clock_ms store].
      rewrite Hone.
      repeat split; try assumption; try lia. intros n H. discriminate H.
    + exists 1, evs. cbn [fst snd advance trace api_calls clock_ms store].
      rewrite Hone.
      repeat split; try assumption; try lia. intros n [= <-]. reflexivity.
    + destruct (IH (off + 100)%Z (tot + written (commits evs))%Z
                   (advance s' evs 1 f w))
        as (k & evs' & Ht & Hfe' & Hk & Hpos & Ha & Hc & Hfr & Hn & Hq' & Hs').
      exists (S k), (evs ++ evs').
      cbn [advance trace api_calls clock_ms store] in Ht, Ha, Hc, Hfr.
      split; [rewrite Ht, app_assoc; reflexivity|].
      split.
      { rewrite fetches_app, Hfe, Hfe'. cbn [seq List.map app].
        f_equal; [f_equal; lia|].
        rewrite <- seq_shift, List.map_map.
        apply List.map_ext. intros i. f_equal. lia. }
      split; [lia|]. split; [lia|]. split; [lia|]. split; [exact Hc|].
      split; [intros path Hout; rewrite Hfr, Hframe; [reflexivity|exact Hout..]|].
      split.
      { intros n Hok. rewrite (Hn n Hok), commits_app, written_app. lia. }
      split; [rewrite queries_app, Hq, Hq'; reflexivity|].
      rewrite sets_app, Hs, Hs'. reflexivity.
Qed.

End Loop.

Lemma processPage_invariant
    (E : Env) (shop : Z) (minC maxC : JsValue) (fuel : nat) (off tot : Z)
    (w : World) :
  loop_post (LedgerSync.page_request shop minC maxC) fuel off tot w
            (LedgerSync.processPage E shop minC maxC fuel off tot w).
Proof.
  apply (loop_invariant E (LedgerSync.page_request shop minC maxC)
           (LedgerSync.processPage E shop minC maxC)); reflexivity.
Qed.

Lemma gated_processPage_invariant
    (E : Env) (shop : Z) (minC maxC : JsValue) (fuel : nat) (off tot : Z)
    (w : World) :
  loop_post (LedgerSyncGated.page_request shop minC maxC) fuel off tot w
            (LedgerSyncGated.processPage E shop minC maxC fuel off tot w).
Proof.
  apply (loop_invariant E (LedgerSyncGated.page_request shop minC maxC)
           (LedgerSyncGated.processPage E shop minC maxC)); reflexivity.
Qed.

(** [fetchAndPersistLedgerEntries] around the loop: the outcome of the
    loop, one more log line, and the same invariant. *)
Lemma wrap_invariant (req_at : Z -> Request) (fuel : nat) (w : World)
    (run : M Z) (okmsg : Z -> string) (errmsg : string) :
  loop_post req_at fuel 0 0 w (run w) ->
  loop_post req_at fuel 0 0 w
    (try_catch
       (bind run (fun total =>
          bind (log Info (okmsg total) None) (fun _ => ret total)))
       (fun error =>
          bind (log Err errmsg (Some (LErr error))) (fun _ => throw error))
       w).
Proof.
  intros (k & evs & Ht & Hfe & Hk & Hpos & Ha & Hc & Hfr & Hn & Hq & Hs).
  unfold try_catch, bind, log, ret, throw.
  destruct (run w) as [[n|e|] w'] eqn:Hrun; cbn [fst snd] in *.
  - exists k, (evs ++ [EvLog Info (okmsg n) None]).
    cbn [fst snd emit trace api_calls clock_ms store].
    rewrite Ht, fetches_app, commits_app, queries_app, sets_app, Hfe, Hq, Hs.
    cbn [fetches commits queries sets omap app]. rewrite !app_nil_r.
    repeat split; try assumption;
      try (symmetry; apply app_assoc);
      try (intros m [= <-]; apply Hn; reflexivity).
  - exists k, (evs ++ [EvLog Err errmsg (Some (LErr e))]).
    cbn [fst snd emit trace api_calls clock_ms store].
    rewrite Ht, fetches_app, commits_app, queries_app, sets_app, Hfe, Hq, Hs.
    cbn [fetches commits queries sets omap app]. rewrite !app_nil_r.
    repeat split; try assumption;
      try (symmetry; apply app_assoc);
      try (intros m H; discriminate H).
  - exists k, evs. cbn [fst snd].
    repeat split; try assumption; try (intros m H; discriminate H).
Qed.

Lemma fetch_invariant
    (E : Env) (shop : Z) (minC maxC : JsValue) (fuel : nat) (w : World) :
  loop_post (LedgerSync.page_request shop minC maxC) fuel 0 0 w
    (LedgerSync.fetchAndPersistLedgerEntries E shop minC maxC fuel w).
Proof.
  unfold LedgerSync.fetchAndPersistLedgerEntries.
  apply wrap_invariant with
    (okmsg := fun t => "Total entries persisted: " +:+ show_Z t).
  apply processPage_invariant.
Qed.

Lemma gated_fetch_invariant
    (E : Env) (shop : Z) (minC maxC : JsValue) (fuel : nat) (w : World) :
  loop_post (LedgerSyncGated.page_request shop minC maxC) fuel 0 0 w
    (LedgerSyncGated.fetchAndPersistLedgerEntries E shop minC maxC fuel w).
Proof.
  unfold LedgerSyncGated.fetchAndPersistLedgerEntries.
  apply wrap_invariant with
    (okmsg := fun t => "Total entries persisted: " +:+ show_Z t).
  apply gated_processPage_invariant.
Qed.

Lemma requests_from_zero (req_at : Z -> Request) (k : nat) :
  List.map (fun i => req_at (0 + 100 * Z.of_nat i)%Z) (seq 0 k)
  = List.map (fun i => req_at (100 * Z.of_nat i)%Z) (seq 0 k).
Proof. apply List.map_ext. intros i. f_equal. Qed.

(** X5. Whatever the remote API and the storage answer (pages, errors,
    refused commits), in both revisions the requests that
    [fetchAndPersistLedgerEntries] sends are the requests for the offsets
    0, 100, 200, ... up to some page, each sent once and in this order, all
    with the limit 100 and the window and shop it was called with; there is
    at most one request per round of the recursion. *)
Theorem fetch_requests_in_page_order
    (E : Env) (shop : Z) (minC maxC : JsValue) (fuel : nat) (w : World) :
  let rA := LedgerSync.fetchAndPersistLedgerEntries E shop minC maxC fuel w in
  let rB := LedgerSyncGated.fetchAndPersistLedgerEntries E shop minC maxC fuel w in
  (exists k, k <= fuel
     /\ fetches (trace (snd rA))
        = fetches (trace w)
          ++ List.map (fun i => mkRequest shop minC maxC 100
                                  (100 * Z.of_nat i) (Some 0%Z)) (seq 0 k)
     /\ api_calls (snd rA) = k + api_calls w)
  /\ (exists k, k <= fuel
        /\ fetches (trace (snd rB))
           = fetches (trace w)
             ++ List.map (fun i => mkRequest shop minC maxC 100
                                     (100 * Z.of_nat i) None) (seq 0 k)
        /\ api_calls (snd rB) = k + api_calls w).
Proof.
  intros rA rB. split.
  - destruct (fetch_invariant E shop minC maxC fuel w)
      as (k & evs & Ht & Hfe & Hk & _ & Ha & _).
    exists k. subst rA. rewrite Ht, fetches_app, Hfe, requests_from_zero.
    repeat split; assumption.
  - destruct (gated_fetch_invariant E shop minC maxC fuel w)
      as (k & evs & Ht & Hfe & Hk & _ & Ha & _).
    exists k. subst rB. rewrite Ht, fetches_app, Hfe, requests_from_zero.
    repeat split; assumption.
Qed.

(** With the client of the model, [api_fetch], the function that takes
    its client as a parameter is [fetchAndPersistLedgerEntries] of each
    revision. *)
Lemma fetch_with_api_fetch
    (E : Env) (shop : Z) (minC maxC : JsValue) (fuel : nat) :
  LedgerSyncWith.fetchAndPersistLedgerEntries
    E (api_fetch E) (LedgerSync.page_request shop minC maxC) fuel
  = LedgerSync.fetchAndPersistLedgerEntries E shop minC maxC fuel
  /\ LedgerSyncWith.fetchAndPersistLedgerEntries
       E (api_fetch E) (LedgerSyncGated.page_request shop minC maxC) fuel
     = LedgerSyncGated.fetchAndPersistLedgerEntries E shop minC maxC fuel.
Proof. split; reflexivity. Qed.

Lemma keeps_ret {A} (path : string) (a : A) : keeps path (ret a).
Proof. intros w. reflexivity. Qed.

Lemma keeps_throw {A} (path : string) (e : Error) : keeps path (@throw A e).
Proof. intros w. reflexivity. Qed.

Lemma keeps_diverge {A} (path : string) : keeps path (@diverge A).
Proof. intros w. reflexivity. Qed.

Lemma keeps_log (path : string) (lvl : Level) (msg : string)
    (arg : option LogArg) :
  keeps path (log lvl msg arg).
Proof. intros w. reflexivity. Qed.

Lemma keeps_bind {A B} (path : string) (m : M A) (k : A -> M B) :
  keeps path m -> (forall a, keeps path (k a)) -> keeps path (bind m k).
Proof.
  intros Hm Hk w. unfold bind. specialize (Hm w).
  destruct (m w) as [[a|e|] w1]; cbn [fst snd] in *;
    [rewrite Hk|..]; exact Hm.
Qed.

Lemma keeps_try {A} (path : string) (m : M A) (h : Error -> M A) :
  keeps path m -> (forall e, keeps path (h e)) -> keeps path (try_catch m h).
Proof.
  intros Hm Hh w. unfold try_catch. specialize (Hm w).
  destruct (m w) as [[a|e|] w1]; cbn [fst snd] in *;
    [|rewrite Hh|]; exact Hm.
Qed.

Lemma keeps_api_fetch (E : Env) (path : string) (r : Request) :
  keeps path (api_fetch E r).
Proof.
  intros w. unfold api_fetch.
  destruct (remote E (api_calls w) r); reflexivity.
Qed.

(** [persistBatch] writes below [events/etsy/ledgerentry/] only, whether
    its commit is taken or refused. *)
Lemma keeps_persistBatch (E : Env) (path : string) (entries : list Entry) :
  outside_ledger path -> keeps path (LedgerSync.persistBatch E entries).
Proof.
  intros Hout w.
  destruct (fs_fault E (fs_ops w)) as [e|] eqn:Hf;
    [destruct (valid_entries entries) as [|v vs] eqn:Hv|].
  - rewrite (persistBatch_none_valid E entries w Hv). reflexivity.
  - rewrite (persistBatch_refused_run E entries w e Hf);
      [reflexivity|rewrite Hv; discriminate].
  - rewrite (persistBatch_run E entries w Hf).
    cbn [snd advance store]. apply batch_frame. exact Hout.
Qed.

Lemma keeps_processPage
    (E : Env) (client : Request -> M (option (list Entry)))
    (req_at : Z -> Request) (path : string) :
  outside_ledger path ->
  (forall r, keeps path (client r)) ->
  forall fuel off tot,
    keeps path (LedgerSyncWith.processPage E client req_at fuel off tot).
Proof.
  intros Hout Hclient. induction fuel as [|fuel IH]; intros off tot.
  - apply keeps_diverge.
  - cbn [LedgerSyncWith.processPage].
    apply keeps_bind; [apply keeps_log|intros _].
    apply keeps_bind; [apply Hclient|intros response]. cbv zeta.
    apply keeps_bind; [apply keeps_log|intros _].
    apply keeps_bind; [apply keeps_persistBatch; exact Hout|intros n].
    destruct (_ || _); [apply keeps_ret|apply IH].
Qed.

(** X6. [fetchAndPersistLedgerEntries] writes below
    [events/etsy/ledgerentry/] only: whatever client it is given and
    whatever is answered, a document outside that collection that the
    client leaves alone is after the call as it was before it, in both
    revisions and however the call ends. (The client may write on its own
    account, a refreshed token for one.) *)
Theorem fetch_touches_only_ledger_documents
    (E : Env) (client : Request -> M (option (list Entry)))
    (shop : Z) (minC maxC : JsValue) (fuel : nat) (path : string) :
  outside_ledger path ->
  (forall r, keeps path (client r)) ->
  keeps path (LedgerSyncWith.fetchAndPersistLedgerEntries
                E client (LedgerSync.page_request shop minC maxC) fuel)
  /\ keeps path (LedgerSyncWith.fetchAndPersistLedgerEntries
                   E client (LedgerSyncGated.page_request shop minC maxC) fuel).
Proof.
  intros Hout Hclient.
  assert (H : forall req_at,
            keeps path (LedgerSyncWith.fetchAndPersistLedgerEntries
                          E client req_at fuel)).
  { intros req_at. unfold LedgerSyncWith.fetchAndPersistLedgerEntries.
    apply keeps_try.
    - apply keeps_bind; [apply keeps_processPage; assumption|intros n].
      apply keeps_bind; [apply keeps_log|intros _]. apply keeps_ret.
    - intros e. apply keeps_bind; [apply keeps_log|intros _].
      apply keeps_throw. }
  split; apply H.
Qed.

(** X7. When [fetchAndPersistLedgerEntries] returns a count, the count is
    the number of writes in the batches it committed during the call, in
    every environment. *)
Theorem fetch_count_is_writes_committed
    (E : Env) (shop : Z) (minC maxC : JsValue) (fuel : nat) (w : World)
    (n : Z) :
  fst (LedgerSync.fetchAndPersistLedgerEntries E shop minC maxC fuel w) = Ok n ->
  exists batches,
    commits (trace (snd (LedgerSync.fetchAndPersistLedgerEntries
                           E shop minC maxC fuel w)))
    = commits (trace w) ++ batches
    /\ n = written batches.
Proof.
  intros Hok.
  destruct (fetch_invariant E shop minC maxC fuel w)
    as (k & evs & Ht & _ & _ & _ & _ & _ & _ & Hn & _).
  exists (commits evs). rewrite Ht, commits_app. split; [reflexivity|].
  rewrite (Hn n Hok). lia.
Qed.

(* ===================================================================== *)
(** ** The scheduled job *)
(* ===================================================================== *)

Ltac cursor_done :=
  unfold log, now_seconds, ret, emit, advance;
  cbn [fst snd store trace api_calls fs_ops clock_ms];
  rewrite <- app_assoc; reflexivity.

(** The cursor of either revision: one query, one log line, a value. *)
Lemma cursor_run (E : Env) (w : World) :
  exists c lvl msg arg,
    LedgerSync.getLastSyncTimestamp E w
    = (Ok c,
       advance (store w)
               [EvQuery "events/etsy/ledgerentry" "body.created_timestamp";
                EvLog lvl msg arg] 0 1 w).
Proof.
  unfold LedgerSync.getLastSyncTimestamp, try_catch, bind.
  rewrite query_run.
  destruct (fs_fault E (fs_ops w)) as [e|].
  - do 4 eexists. cursor_done.
  - destruct (Firestore.top_desc _ _ (store w)) as [|d ds].
    + do 4 eexists. cursor_done.
    + cbv zeta. destruct (truthy _); cbn [negb];
        do 4 eexists; cursor_done.
Qed.

Lemma gated_cursor_run (E : Env) (w : World) :
  exists c lvl msg arg,
    LedgerSyncGated.getLastSyncTimestamp E w
    = (Ok c,
       advance (store w)
               [EvQuery "events/etsy/ledgerentry" "body.created_timestamp";
                EvLog lvl msg arg] 0 1 w).
Proof.
  unfold LedgerSyncGated.getLastSyncTimestamp, try_catch, bind.
  rewrite query_run.
  destruct (fs_fault E (fs_ops w)) as [e|].
  - do 4 eexists. cursor_done.
  - destruct (Firestore.top_desc _ _ (store w)) as [|d ds].
    + do 4 eexists. cursor_done.
    + cbv zeta. destruct (truthy _); cbn [negb];
        do 4 eexists; cursor_done.
Qed.

(** The cursor looks at the database, the clock and the storage's answer,
    not at the trace. *)
Lemma cursor_same (E : Env) (w1 w2 : World) :
  store w1 = store w2 -> fs_ops w1 = fs_ops w2 -> clock_ms w1 = clock_ms w2 ->
  fst (LedgerSync.getLastSyncTimestamp E w1)
  = fst (LedgerSync.getLastSyncTimestamp E w2)
  /\ fst (LedgerSyncGated.getLastSyncTimestamp E w1)
     = fst (LedgerSyncGated.getLastSyncTimestamp E w2).
Proof.
  intros Hs Hf Hc.
  unfold LedgerSync.getLastSyncTimestamp, LedgerSyncGated.getLastSyncTimestamp,
    try_catch, bind.
  rewrite !query_run, Hs, Hf.
  destruct (fs_fault E (fs_ops w2)) as [e|].
  - unfold log, now_seconds, ret, emit. cbn [fst snd advance clock_ms].
    rewrite Hc. split; reflexivity.
  - destruct (Firestore.top_desc _ _ (store w2)) as [|d ds].
    + unfold log, now_seconds, ret, emit. cbn [fst snd advance clock_ms].
      rewrite Hc. split; reflexivity.
    + cbv zeta. destruct (truthy _); cbn [negb];
        unfold log, now_seconds, ret, emit; cbn [fst snd advance clock_ms];
        rewrite ?Hc; split; reflexivity.
Qed.

(** A [try] whose handler logs the error and throws it again: an error
    that comes out was logged last. *)
Lemma try_logs_then_throws {A} (m : M A) (msg : string) (w : World) (e : Error) :
  fst (try_catch m (fun error =>
         bind (log Err msg (Some (LErr error))) (fun _ => throw error)) w)
  = Throw e ->
  exists tr,
    trace (snd (try_catch m (fun error =>
            bind (log Err msg (Some (LErr error))) (fun _ => throw error)) w))
    = tr ++ [EvLog Err msg (Some (LErr e))].
Proof.
  unfold try_catch, bind, log, throw.
  destruct (m w) as [[a|e'|] w']; cbn [fst snd]; intros H; try discriminate H.
  injection H as ->. exists (trace w'). reflexivity.
Qed.

(** The end of the job after the loop: one more log line in every case,
    which changes no request, query or write of the trace. *)
Lemma job_end (run : M Z) (msg : Z -> string) (w : World) :
  let r := try_catch
             (bind run (fun persistedCount => log Info (msg persistedCount) None))
             (fun error =>
                bind (log Err "Etsy ledger sync failed:" (Some (LErr error)))
                     (fun _ => throw error)) w in
  store (snd r) = store (snd (run w))
  /\ fetches (trace (snd r)) = fetches (trace (snd (run w)))
  /\ queries (trace (snd r)) = queries (trace (snd (run w)))
  /\ sets (trace (snd r)) = sets (trace (snd (run w)))
  /\ match fst (run w) with
     | Ok _ => fst r = Ok tt
     | Throw e => fst r = Throw e
     | Diverge => fst r = Diverge
     end.
Proof.
  unfold try_catch, bind, log, throw.
  destruct (run w) as [[n|e|] w']; cbn [fst snd emit store trace];
    rewrite ?fetches_app, ?queries_app, ?sets_app;
    cbn [fetches queries sets omap]; rewrite ?app_nil_r; repeat split.
Qed.

(** X8. The job of functions/src/etsy/ledgerSync.ts, with a shop id that
    parses to [n] and the cursor [c] that [getLastSyncTimestamp] gives in
    the world it starts in: it sends one query for the cursor, and every
    request it sends is for the shop [n] and the window from [c] to the
    clock's second, with limit 100 and the offsets 0, 100, ... in order; it
    sends at least the first one. *)
Theorem sync_window_is_cursor_to_now
    (E : Env) (cfg : Config) (fuel : nat) (w : World) (n : Z) (c : JsValue) :
  parseInt10 (ETSY_SHOP_ID cfg) = Some n ->
  fst (LedgerSync.getLastSyncTimestamp E w) = Ok c ->
  0 < fuel ->
  let r := LedgerSync.etsyLedgerSync E cfg fuel w in
  exists k,
    0 < k <= fuel
    /\ fetches (trace (snd r))
       = fetches (trace w)
         ++ List.map (fun i => mkRequest n c (JNum (clock_ms w / 1000)) 100
                                 (100 * Z.of_nat i) (Some 0%Z)) (seq 0 k)
    /\ queries (trace (snd r))
       = queries (trace w)
         ++ [("events/etsy/ledgerentry", "body.created_timestamp")].
Proof.
  intros Hp Hc Hfuel r. subst r. unfold LedgerSync.etsyLedgerSync.
  erewrite bind_ok; [|apply log_run]. cbv beta zeta. rewrite Hp.
  set (W0 := advance (store w)
               [EvLog Info "Starting Etsy ledger sync" None] 0 0 w).
  set (w1 := advance (store W0)
               [EvLog Info ("Using shop ID " +:+ show_Z n) None] 0 0 W0).
  destruct (cursor_run E w1) as (c' & lvl & msg & arg & Hcur).
  assert (Hcc : c' = c).
  { destruct (cursor_same E w1 w) as [H _]; try reflexivity.
    rewrite Hcur, Hc in H. cbn [fst] in H. congruence. }
  subst c'.
  set (w3 := advance (store w)
               [EvLog Info "Starting Etsy ledger sync" None;
                EvLog Info ("Using shop ID " +:+ show_Z n) None;
                EvQuery "events/etsy/ledgerentry" "body.created_timestamp";
                EvLog lvl msg arg;
                EvLog Info ("Syncing entries from " +:+ to_string c +:+ " to "
                            +:+ show_Z (clock_ms w / 1000)) None] 0 1 w).
  set (run := LedgerSync.fetchAndPersistLedgerEntries E n c
                (JNum (clock_ms w / 1000)) fuel).
  assert (Hshape :
    forall h,
    try_catch
      (bind (log Info ("Using shop ID " +:+ show_Z n) None) (fun _ =>
       bind (LedgerSync.getLastSyncTimestamp E) (fun lastSyncTimestamp =>
       bind now_seconds (fun currentTimestamp =>
       bind (log Info ("Syncing entries from " +:+ to_string lastSyncTimestamp
                       +:+ " to " +:+ show_Z currentTimestamp) None) (fun _ =>
       bind (LedgerSync.fetchAndPersistLedgerEntries E n lastSyncTimestamp
               (JNum currentTimestamp) fuel) (fun persistedCount =>
       log Info ("Etsy ledger sync completed: " +:+ show_Z persistedCount
                 +:+ " entries persisted") None)))))) h W0
    = try_catch
        (bind run (fun persistedCount =>
           log Info ("Etsy ledger sync completed: " +:+ show_Z persistedCount
                     +:+ " entries persisted") None)) h w3).
  { intros h. unfold try_catch.
    erewrite bind_ok; [|apply log_run]. cbv beta.
    erewrite bind_ok; [|exact Hcur]. cbv beta.
    erewrite bind_ok; [|reflexivity]. cbv beta.
    erewrite bind_ok; [|apply log_run]. cbv beta.
    replace (advance _ _ 0 0 (advance _ _ 0 1 w1)) with w3; [reflexivity|].
    subst w3 w1 W0. world_eq. }
  rewrite Hshape.
  destruct (job_end run
              (fun persistedCount =>
                 "Etsy ledger sync completed: " +:+ show_Z persistedCount
                 +:+ " entries persisted") w3)
    as (_ & Hfe & Hq & _).
  cbv zeta in Hfe, Hq. rewrite Hfe, Hq.
  destruct (fetch_invariant E n c (JNum (clock_ms w / 1000)) fuel w3)
    as (k & evs & Ht & Hfe' & Hk & Hpos & _ & _ & _ & _ & Hq' & _).
  fold run in Ht. exists k. rewrite Ht, fetches_app, queries_app, Hfe', Hq'.
  rewrite requests_from_zero, app_nil_r.
  split; [split; [apply Hpos; exact Hfuel|exact Hk]|].
  subst w3. cbn [advance trace].
  rewrite fetches_app, queries_app. cbn [fetches queries omap app].
  rewrite app_nil_r. split; reflexivity.
Qed.

(** X9. The job of the gated revision, with the flag ["true"] up to case, a
    shop id that parses to [n] and the cursor [c] of the world it starts in
    ([0] when [getLastSyncTimestamp] gives [null]): every request it sends
    is for the window from [c] to [c + 2592000], thirty days, whatever the
    clock says; limit 100, offsets 0, 100, ... in order, the first one
    always sent. *)
Theorem gated_sync_window_is_thirty_days
    (E : Env) (cfg : Config) (fuel : nat) (w : World) (n : Z)
    (last : option JsValue) :
  toLowerCase (LedgerSyncGated.etsySyncEnabled cfg) = "true" ->
  parseInt10 (ETSY_SHOP_ID cfg) = Some n ->
  fst (LedgerSyncGated.getLastSyncTimestamp E w) = Ok last ->
  0 < fuel ->
  let c := match last with Some t => t | None => JNum 0 end in
  let r := LedgerSyncGated.etsyLedgerSync E cfg fuel w in
  exists k,
    0 < k <= fuel
    /\ fetches (trace (snd r))
       = fetches (trace w)
         ++ List.map (fun i => mkRequest n c (add_num c 2592000) 100
                                 (100 * Z.of_nat i) None) (seq 0 k)
    /\ queries (trace (snd r))
       = queries (trace w)
         ++ [("events/etsy/ledgerentry", "body.created_timestamp")].
Proof.
  intros Hon Hp Hc Hfuel c r. subst r. unfold LedgerSyncGated.etsyLedgerSync.
  apply String.eqb_eq in Hon. rewrite Hon. cbn [negb].
  erewrite bind_ok; [|apply log_run]. cbv beta zeta. rewrite Hp.
  set (W0 := advance (store w)
               [EvLog Info "Starting Etsy ledger sync" None] 0 0 w).
  set (w1 := advance (store W0)
               [EvLog Info ("Using shop ID " +:+ show_Z n) None] 0 0 W0).
  destruct (gated_cursor_run E w1) as (c' & lvl & msg & arg & Hcur).
  assert (Hcc : c' = last).
  { destruct (cursor_same E w1 w) as [_ H]; try reflexivity.
    rewrite Hcur, Hc in H. cbn [fst] in H. congruence. }
  subst c'. fold c.
  set (l1 := EvLog Info (if is_zero c
                         then "Starting sync from Unix epoch (no previous entries)"
                         else "Starting sync from timestamp: " +:+ to_string c)
                   None).
  set (l2 := EvLog Info ("Syncing entries from " +:+ to_string c +:+ " to "
                         +:+ to_string (add_num c thirty_days)) None).
  set (w3 := advance (store w)
               [EvLog Info "Starting Etsy ledger sync" None;
                EvLog Info ("Using shop ID " +:+ show_Z n) None;
                EvQuery "events/etsy/ledgerentry" "body.created_timestamp";
                EvLog lvl msg arg; l1; l2] 0 1 w).
  set (run := LedgerSyncGated.fetchAndPersistLedgerEntries E n c
                (add_num c thirty_days) fuel).
  match goal with
  | |- context [try_catch ?body ?h W0] =>
      assert (Hshape :
        try_catch body h W0
        = try_catch
            (bind run (fun persistedCount =>
               log Info ("Etsy ledger sync completed: "
                         +:+ show_Z persistedCount
                         +:+ " entries persisted") None)) h w3)
  end.
  { unfold try_catch.
    erewrite bind_ok; [|apply log_run]. cbv beta.
    erewrite bind_ok; [|exact Hcur]. cbv beta zeta. fold c.
    erewrite bind_ok; [|apply log_run]. cbv beta.
    erewrite bind_ok; [|apply log_run]. cbv beta.
    replace (advance _ _ 0 0 (advance _ _ 0 0 (advance _ _ 0 1 w1))) with w3;
      [reflexivity|].
    subst w3 w1 W0 l1 l2. world_eq. }
  rewrite Hshape.
  destruct (job_end run
              (fun persistedCount =>
                 "Etsy ledger sync completed: " +:+ show_Z persistedCount
                 +:+ " entries persisted") w3)
    as (_ & Hfe & Hq & _).
  cbv zeta in Hfe, Hq. rewrite Hfe, Hq.
  destruct (gated_fetch_invariant E n c (add_num c thirty_days) fuel w3)
    as (k & evs & Ht & Hfe' & Hk & Hpos & _ & _ & _ & _ & Hq' & _).
  fold run in Ht. exists k. rewrite Ht, fetches_app, queries_app, Hfe', Hq'.
  rewrite requests_from_zero, app_nil_r.
  split; [split; [apply Hpos; exact Hfuel|exact Hk]|].
  subst w3. cbn [advance trace].
  rewrite fetches_app, queries_app. cbn [fetches queries omap app l1 l2].
  rewrite app_nil_r. split; reflexivity.
Qed.

(** X10. A shop id that does not parse as an integer: the job of
    functions/src/etsy/ledgerSync.ts, and the job of the gated revision
    when its flag is on, throw "Invalid ETSY_SHOP_ID configuration" after
    logging the failure, and have sent no query, no request and no write. *)
Theorem sync_rejects_invalid_shop_id
    (E : Env) (cfg : Config) (fuel : nat) (w : World) :
  parseInt10 (ETSY_SHOP_ID cfg) = None ->
  let bad := JsError "Error" "Invalid ETSY_SHOP_ID configuration" in
  let rA := LedgerSync.etsyLedgerSync E cfg fuel w in
  let rB := LedgerSyncGated.etsyLedgerSync E cfg fuel w in
  (fst rA = Throw bad
   /\ trace (snd rA)
      = trace w ++ [EvLog Info "Starting Etsy ledger sync" None;
                    EvLog Err "Etsy ledger sync failed:" (Some (LErr bad))]
   /\ store (snd rA) = store w
   /\ api_calls (snd rA) = api_calls w /\ fs_ops (snd rA) = fs_ops w)
  /\ (toLowerCase (LedgerSyncGated.etsySyncEnabled cfg) = "true" ->
      fst rB = Throw bad
      /\ trace (snd rB)
         = trace w ++ [EvLog Info "Starting Etsy ledger sync" None;
                       EvLog Err "Etsy ledger sync failed:" (Some (LErr bad))]
      /\ store (snd rB) = store w
      /\ api_calls (snd rB) = api_calls w /\ fs_ops (snd rB) = fs_ops w).
Proof.
  intros Hp bad rA rB. split.
  - subst rA. unfold LedgerSync.etsyLedgerSync.
    erewrite bind_ok; [|apply log_run]. cbv beta zeta. rewrite Hp.
    unfold try_catch, throw, bind, log, emit, advance.
    cbn [fst snd store trace api_calls fs_ops].
    rewrite <- app_assoc. repeat split.
  - intros Hon. subst rB. unfold LedgerSyncGated.etsyLedgerSync.
    apply String.eqb_eq in Hon. rewrite Hon. cbn [negb].
    erewrite bind_ok; [|apply log_run]. cbv beta zeta. rewrite Hp.
    unfold try_catch, throw, bind, log, emit, advance.
    cbn [fst snd store trace api_calls fs_ops].
    rewrite <- app_assoc. repeat split.
Qed.

(** X11. Every error that leaves the job (of either revision) was logged
    by it as "Etsy ledger sync failed:" with that error, as the last thing
    it did. *)
Theorem sync_logs_the_error_it_throws
    (E : Env) (cfg : Config) (fuel : nat) (w : World) (e : Error) :
  let rA := LedgerSync.etsyLedgerSync E cfg fuel w in
  let rB := LedgerSyncGated.etsyLedgerSync E cfg fuel w in
  (fst rA = Throw e ->
     exists tr, trace (snd rA)
                = tr ++ [EvLog Err "Etsy ledger sync failed:" (Some (LErr e))])
  /\ (fst rB = Throw e ->
        exists tr, trace (snd rB)
                   = tr ++ [EvLog Err "Etsy ledger sync failed:" (Some (LErr e))]).
Proof.
  intros rA rB. split.
  - subst rA. unfold LedgerSync.etsyLedgerSync.
    erewrite bind_ok; [|apply log_run]. cbv beta.
    apply try_logs_then_throws.
  - subst rB. unfold LedgerSyncGated.etsyLedgerSync.
    destruct (negb _).
    + erewrite bind_ok; [|apply log_run]. unfold ret. cbn [fst].
      intros H. discriminate H.
    + erewrite bind_ok; [|apply log_run]. cbv beta.
      apply try_logs_then_throws.
Qed.

(* ===================================================================== *)
(** ** A commit that the storage refuses *)
(* ===================================================================== *)

Lemma persistBatch_run_local (E : Env) (entries : list Entry) (w : World) :
  (commit_count entries = 1 -> fs_fault E (fs_ops w) = None) ->
  LedgerSync.persistBatch E entries w
  = (Ok (len (valid_entries entries)),
     advance (Firestore.apply_writes (store w) (batch_of entries))
             (persist_events entries) 0 (commit_count entries) w).
Proof.
  intros Hf.
  destruct (valid_entries entries) as [|v vs] eqn:Hv.
  - rewrite (persistBatch_none_valid E entries w Hv).
    unfold persist_events, commit_count.
    rewrite (proj2 (batch_of_nil entries) Hv). rewrite app_nil_r.
    reflexivity.
  - rewrite <- Hv. apply persistBatch_run. apply Hf.
    unfold commit_count, batch_of. rewrite Hv. reflexivity.
Qed.

Section LocalRounds.
Context (E : Env) (shop : Z) (minC maxC : JsValue).

Let req_at := LedgerSync.page_request shop minC maxC.

Lemma processPage_round_local (fuel : nat) (off tot : Z) (p : list Entry)
    (w : World) :
  page_of (remote E (api_calls w) (req_at off)) = Some p ->
  (commit_count p = 1 -> fs_fault E (fs_ops w) = None) ->
  LedgerSync.processPage E shop minC maxC (S fuel) off tot w
  = let w' := advance (Firestore.apply_writes (store w) (batch_of p))
                      (page_events req_at off p) 1 (commit_count p) w in
    let tot' := (tot + len (valid_entries p))%Z in
    if (len p =? 0)%Z || (len p <? 100)%Z then (Ok tot', w')
    else LedgerSync.processPage E shop minC maxC fuel (off + 100)%Z tot' w'.
Proof.
  intros Hp Hf. apply page_of_Some in Hp. destruct Hp as (res & Hres & Hp).
  cbn [LedgerSync.processPage].
  erewrite bind_ok; [|apply log_run]. cbv beta.
  erewrite bind_ok; [|apply api_fetch_page; exact Hres]. cbv beta.
  rewrite Hp.
  erewrite bind_ok; [|apply log_run]. cbv beta.
  erewrite bind_ok; [|apply persistBatch_run_local; exact Hf]. cbv beta zeta.
  rewrite !advance_advance.
  unfold page_events, LedgerSync.limit.
  assert (Hw : forall s evs a f, advance s evs (0 + 0 + 1 + a) (f + 0 + 0 + 0) w
                                = advance s evs (1 + a) f w)
    by (intros; unfold advance; f_equal; lia).
  rewrite Hw.
  destruct ((len p =? 0)%Z || (len p <? 100)%Z); reflexivity.
Qed.

Lemma processPage_full_pages_local (ps : list (list Entry)) :
  forall (fuel : nat) (off tot : Z) (w : World),
  serves E req_at (api_calls w) off ps ->
  Forall full_page ps ->
  (forall n, fs_ops w <= n < commits_in ps + fs_ops w -> fs_fault E n = None) ->
  LedgerSync.processPage E shop minC maxC (length ps + fuel) off tot w
  = LedgerSync.processPage E shop minC maxC fuel
      (off + 100 * len ps)%Z (tot + total_valid ps)%Z
      (advance (store_after (store w) ps) (events_of_pages req_at off ps)
               (length ps) (commits_in ps) w).
Proof.
  induction ps as [|p rest IH]; intros fuel off tot w Hs Hfull Hnf.
  - cbn [length Nat.add store_after fold_left events_of_pages commits_in
         fold_right total_valid].
    rewrite advance_id.
    replace (off + 100 * len (@nil (list Entry)))%Z with off by (unfold len; simpl; lia).
    replace (tot + 0)%Z with tot by lia.
    reflexivity.
  - destruct Hs as [Hp Hrest]. inversion Hfull as [|? ? Hp_full Hrest_full]; subst.
    cbn [length Nat.add].
    assert (Hc : commits_in (p :: rest) = commit_count p + commits_in rest)
      by reflexivity.
    rewrite (processPage_round_local _ off tot p w Hp);
      [|intros H1; apply Hnf; lia].
    cbv zeta.
    unfold full_page in Hp_full.
    replace ((len p =? 0)%Z || (len p <? 100)%Z) with false
      by (symmetry; apply orb_false_iff; split; [apply Z.eqb_neq|apply Z.ltb_ge]; lia).
    rewrite IH; [|exact Hrest|exact Hrest_full|].
    2:{ intros n Hn. cbn [advance fs_ops] in Hn. apply Hnf. lia. }
    rewrite advance_advance.
    f_equal.
    + unfold len. cbn [length]. lia.
    + cbn [total_valid fold_right]. unfold total_valid. lia.
    + cbn [store_after fold_left events_of_pages fold_right length].
      unfold advance. cbn [store trace api_calls fs_ops clock_ms].
      f_equal; lia.
Qed.

End LocalRounds.

(** X12. A commit the storage refuses ends the sync like a failed request:
    after the full pages [ps], persisted, the next page is received but its
    commit is refused with [e]; [fetchAndPersistLedgerEntries] throws [e],
    the database holds the pages [ps] and nothing of the refused page, and
    no request follows. *)
Theorem commit_refused_aborts_and_keeps_pages
    (E : Env) (shop : Z) (minC maxC : JsValue)
    (ps : list (list Entry)) (p : list Entry) (e : Error) (fuel : nat)
    (w : World) :
  serves E (LedgerSync.page_request shop minC maxC) (api_calls w) 0
         (ps ++ [p]) ->
  Forall full_page ps ->
  valid_entries p <> [] ->
  (forall n, fs_ops w <= n < commits_in ps + fs_ops w -> fs_fault E n = None) ->
  fs_fault E (commits_in ps + fs_ops w) = Some e ->
  length ps < fuel ->
  let r := LedgerSync.fetchAndPersistLedgerEntries E shop minC maxC fuel w in
  fst r = Throw e
  /\ store (snd r) = store_after (store w) ps
  /\ api_calls (snd r) = length ps + 1 + api_calls w
  /\ fetches (trace (snd r))
     = fetches (trace w)
       ++ List.map (fun i => mkRequest shop minC maxC 100
                               (100 * Z.of_nat i) (Some 0%Z))
                   (seq 0 (length ps + 1)).
Proof.
  intros Hs Hfull Hv Hnf Hfault Hfuel r.
  apply serves_app in Hs. destruct Hs as [Hps Hlast].
  cbn [serves] in Hlast. destruct Hlast as [Hlast _].
  set (req_at := LedgerSync.page_request shop minC maxC) in *.
  set (wk := advance (store_after (store w) ps) (events_of_pages req_at 0 ps)
                     (length ps) (commits_in ps) w).
  assert (Hrun :
    exists evs,
      LedgerSync.processPage E shop minC maxC fuel 0 0 w
      = (Throw e, advance (store wk) evs 1 1 wk)
      /\ fetches evs = [req_at (100 * len ps)%Z]).
  { replace fuel with (length ps + S (fuel - length ps - 1)) by lia.
    rewrite (processPage_full_pages_local E shop minC maxC ps _ 0 0 w
               Hps Hfull Hnf).
    fold req_at wk.
    change (LedgerSync.processPage E shop minC maxC (S (fuel - length ps - 1)))
      with (round E req_at
              (LedgerSync.processPage E shop minC maxC (fuel - length ps - 1))).
    unfold round.
    erewrite bind_ok; [|apply log_run]. cbv beta.
    apply page_of_Some in Hlast. destruct Hlast as (res & Hres & Hp).
    erewrite bind_ok.
    2:{ apply api_fetch_page. cbn [advance api_calls store].
        subst wk. cbn [advance api_calls].
        rewrite Nat.add_comm in Hres. exact Hres. }
    cbv beta zeta. rewrite Hp.
    erewrite bind_ok; [|apply log_run]. cbv beta.
    erewrite bind_throw.
    2:{ apply persistBatch_refused_run; [|exact Hv].
        subst wk. cbn [advance fs_ops]. exact Hfault. }
    eexists. split.
    - rewrite !advance_advance. f_equal.
    - rewrite !fetches_app, fetches_drop_logs. reflexivity. }
  destruct Hrun as (evs & Hrun & Hfe).
  subst r. unfold LedgerSync.fetchAndPersistLedgerEntries.
  erewrite try_throw.
  2:{ erewrite bind_throw; [|exact Hrun]. reflexivity. }
  erewrite bind_ok; [|apply log_run]. unfold throw.
  subst wk. cbn [fst snd advance store trace api_calls].
  split; [reflexivity|]. split; [reflexivity|]. split; [lia|].
  rewrite !fetches_app, fetches_pages, Hfe. cbn [fetches omap app].
  rewrite app_nil_r, <- app_assoc. f_equal.
  replace (length ps + 1) with (length ps + 1)%nat by reflexivity.
  rewrite seq_app, List.map_app. cbn [seq List.map Nat.add].
  f_equal.
Qed.

(* ===================================================================== *)
(** ** The webhook handlers, off the paths of the happy case *)
(* ===================================================================== *)

Lemma webhook_verify_shape (E : Env) (req : HttpRequest) :
  exists b ev,
    (forall w, Webhook.verifyEvent E req w
               = (Ok b, advance (store w) [ev] 0 0 w))
    /\ sets [ev] = [] /\ commits [ev] = [] /\ queries [ev] = []
    /\ fetches [ev] = [].
Proof.
  destruct (header_cases (headers req !! "X-Hook-Signature"))
    as [Hrej|(s & Hs & Hne)].
  - exists false, header_error. split; [|repeat split].
    intros w. apply webhook_verify_rejects. exact Hrej.
  - exists (rsa_sha512_verify E (rawBody req) (base64_decode E s)),
           (EvVerify (rawBody req) (base64_decode E s)).
    split; [|repeat split].
    intros w. apply (webhook_verify_checks E req w s Hs Hne).
Qed.

(** X13. [starlingWebhook] answers by the signature alone and stores
    nothing: for every request it answers 202 with no body when its
    verifier says [true] and 400 with the integrity error when it says
    [false]; it never throws, and it makes no write, no commit and no
    query. *)
Theorem starlingWebhook_answers_by_signature
    (E : Env) (req : HttpRequest) (w : World) :
  let r := Webhook.starlingWebhook E req w in
  exists b,
    fst (Webhook.verifyEvent E req w) = Ok b
    /\ fst r = Ok (if b then mkHttpResponse 202 None
                   else mkHttpResponse 400 (Some integrity_error))
    /\ store (snd r) = store w
    /\ fs_ops (snd r) = fs_ops w
    /\ sets (trace (snd r)) = sets (trace w)
    /\ commits (trace (snd r)) = commits (trace w)
    /\ queries (trace (snd r)) = queries (trace w).
Proof.
  intros r. subst r.
  destruct (webhook_verify_shape E req) as (b & ev & Hrun & Hs & Hc & Hq & _).
  exists b. rewrite Hrun. cbn [fst]. split; [reflexivity|].
  unfold Webhook.starlingWebhook.
  erewrite bind_ok; [|apply Hrun]. cbv beta.
  assert (Hlog : forall l m,
    (if b then log Info l None else log Err m None)
      (advance (store w) [ev] 0 0 w)
    = (Ok tt, advance (store w)
                [ev; if b then EvLog Info l None else EvLog Err m None] 0 0 w)).
  { intros l m. destruct b; rewrite log_run, advance_advance; reflexivity. }
  erewrite bind_ok; [|apply Hlog]. unfold ret.
  cbn [fst snd advance store trace fs_ops].
  change [ev; if b then EvLog Info "Message verified successfully. Dobzre :)" None
              else EvLog Err "Message verification failed" None]
    with ([ev] ++ [if b then EvLog Info "Message verified successfully. Dobzre :)" None
                   else EvLog Err "Message verification failed" None]).
  rewrite !sets_app, !commits_app, !queries_app, Hs, Hc, Hq.
  destruct b; cbn [sets commits queries omap app]; rewrite !app_nil_r;
    repeat split.
Qed.

(** X14. A request that passes the signature check but whose body is not
    JSON, or is the JSON [null]: [starlingFeedItem] throws (it answers
    neither 400 nor 202) and stores nothing. *)
Theorem feeditem_throws_on_unreadable_body
    (E : Env) (req : HttpRequest) (w : World) :
  fst (FeedItem.verifyEvent E req w) = Ok true ->
  json_parse E (rawBody req) = None \/ json_parse E (rawBody req) = Some JNull ->
  let r := FeedItem.starlingFeedItem E req w in
  (exists e, fst r = Throw e)
  /\ store (snd r) = store w
  /\ sets (trace (snd r)) = sets (trace w).
Proof.
  intros Hv Hbody r. subst r.
  destruct (feeditem_verify_shape E req) as (b & ev & Hrun & Hev).
  rewrite Hrun in Hv. cbn [fst] in Hv. injection Hv as ->.
  unfold FeedItem.starlingFeedItem.
  erewrite bind_ok; [|apply Hrun]. cbn [negb].
  destruct Hbody as [-> | ->].
  - unfold throw. cbn [fst snd advance store trace].
    rewrite sets_app, Hev, app_nil_r. split; [eexists; reflexivity|].
    split; reflexivity.
  - unfold FeedItem.read_event_id, bind, throw. cbn [fst snd advance store trace].
    rewrite sets_app, Hev, app_nil_r. split; [eexists; reflexivity|].
    split; reflexivity.
Qed.

(** X15. A write the storage refuses: for a verified request with a truthy
    [webhookEventUid], [starlingFeedItem] throws the storage's error, does
    not answer 202, and the database is as it was. *)
Theorem feeditem_throws_on_refused_write
    (E : Env) (req : HttpRequest) (w : World) (parsed id : JsValue) (e : Error) :
  fst (FeedItem.verifyEvent E req w) = Ok true ->
  json_parse E (rawBody req) = Some parsed ->
  prop parsed "webhookEventUid" = Some id ->
  truthy (Some id) = true ->
  fs_fault E (fs_ops w) = Some e ->
  let r := FeedItem.starlingFeedItem E req w in
  fst r = Throw e /\ store (snd r) = store w.
Proof.
  intros Hv Hparse Hid Htruthy Hf r. subst r.
  destruct (feeditem_verify_shape E req) as (b & ev & Hrun & Hev).
  rewrite Hrun in Hv. cbn [fst] in Hv. injection Hv as ->.
  unfold FeedItem.starlingFeedItem.
  erewrite bind_ok; [|apply Hrun]. cbn [negb]. rewrite Hparse.
  erewrite bind_ok;
    [|apply read_event_id_run;
      [exact E|exact (prop_defined_not_null parsed _ id Hid)]].
  cbv beta. rewrite Hid, Htruthy. cbn [negb to_string_opt].
  unfold bind, Firestore.doc_set, Firestore.fs_op.
  change (fs_ops (advance (store w) [ev] 0 0 w)) with (fs_ops w).
  rewrite Hf. split; reflexivity.
Qed.

(** X16. Whatever the request and whatever is answered (a refused
    signature, a body that does not parse, a refused write, a stored
    event), [starlingFeedItem] leaves every document outside
    [events/starling/feeditem/] as it was. *)
Theorem feeditem_touches_only_feed_documents
    (E : Env) (req : HttpRequest) (w : World) (path : string) :
  outside_feed path ->
  let r := FeedItem.starlingFeedItem E req w in
  store (snd r) !! path = store w !! path.
Proof.
  intros Hout r. subst r.
  destruct (feeditem_verify_shape E req) as (b & ev & Hrun & Hev).
  unfold FeedItem.starlingFeedItem.
  erewrite bind_ok; [|apply Hrun].
  destruct b; cbn [negb]; [|reflexivity].
  destruct (json_parse E (rawBody req)) as [parsed|]; [|reflexivity].
  unfold FeedItem.read_event_id.
  assert (Hcases : parsed = JNull \/ parsed <> JNull)
    by (destruct parsed; (left; reflexivity) || (right; discriminate)).
  destruct Hcases as [-> | Hnn]; [reflexivity|].
  erewrite bind_ok; [|apply (read_event_id_run E); exact Hnn]. cbv beta.
  destruct (truthy (prop parsed "webhookEventUid")) eqn:Ht; cbn [negb];
    [|reflexivity].
  unfold bind, Firestore.doc_set, Firestore.fs_op.
  destruct (fs_fault E _); [reflexivity|].
  cbn [fst snd with_store store tick_fs emit advance].
  apply lookup_insert_ne. intros Heq. unfold outside_feed in Hout.
  rewrite <- Heq, strip_prefix_app in Hout. discriminate.
Qed.

(** X17. A signature header that is the empty string is turned down like
    a missing one by both verifiers: [false], no cryptographic check. *)
Theorem verifiers_reject_empty_signature
    (E : Env) (req : HttpRequest) (w : World) :
  (headers req !! "x-hook-signature" = Some (Single "") ->
     fst (FeedItem.verifyEvent E req w) = Ok false
     /\ verifications (trace (snd (FeedItem.verifyEvent E req w)))
        = verifications (trace w))
  /\ (headers req !! "X-Hook-Signature" = Some (Single "") ->
        fst (Webhook.verifyEvent E req w) = Ok false
        /\ verifications (trace (snd (Webhook.verifyEvent E req w)))
           = verifications (trace w)).
Proof.
  split; intros Hh.
  - rewrite (feeditem_verify_rejects E req w) by (rewrite Hh; reflexivity).
    cbn [fst snd advance trace]. rewrite verifications_app.
    cbn [verifications omap header_error app]. rewrite app_nil_r.
    split; reflexivity.
  - rewrite (webhook_verify_rejects E req w) by (rewrite Hh; reflexivity).
    cbn [fst snd advance trace]. rewrite verifications_app.
    cbn [verifications omap header_error app]. rewrite app_nil_r.
    split; reflexivity.
Qed.

(* ===================================================================== *)
(** ** The token storage *)
(* ===================================================================== *)

Lemma assoc_filter_other (k : string) (new old : Entry) :
  assoc k new = None ->
  assoc k (List.filter (fun kv => negb (is_defined (assoc (fst kv) new))) old)
  = assoc k old.
Proof.
  intros Hnew. induction old as [|[k' v] rest IH]; [reflexivity|].
  cbn [List.filter fst assoc].
  destruct (String.eqb k k') eqn:Hk.
  - apply String.eqb_eq in Hk. subst k'. rewrite Hnew. cbn [is_defined negb assoc].
    rewrite String.eqb_refl. reflexivity.
  - destruct (negb _); [cbn [assoc]; rewrite Hk|]; exact IH.
Qed.

Section Tokens.
Context (E : Env) (toISOString : Z -> string) (shop : string).

Let path := TokenStorage.token_path shop.

Lemma storeAccessToken_run (f : SecurityDataFilter) (tokens : Tokens) (w : World) :
  fs_fault E (fs_ops w) = None ->
  let fields := [("accessToken", accessToken tokens);
                 ("refreshToken", refreshToken tokens);
                 ("updatedAt", JStr (toISOString (clock_ms w)))] in
  TokenStorage.storeAccessToken E toISOString shop f tokens w
  = (Ok tt,
     advance (<[path := Firestore.merge_doc (store w !! path) fields]> (store w))
             [EvSet path (JObj fields);
              EvLog Info ("Stored access token for shop " +:+ shop) None]
             0 1 w).
Proof.
  intros Hf fields. unfold TokenStorage.storeAccessToken.
  unfold bind at 1. unfold TokenStorage.now_ms at 1.
  unfold bind, TokenStorage.doc_set_merge, Firestore.fs_op. rewrite Hf.
  unfold log, emit, tick_fs, with_store, advance, Firestore.apply_write.
  cbn [fst snd store trace api_calls fs_ops clock_ms].
  rewrite <- app_assoc. reflexivity.
Qed.

(** X18. Store, then find: when the storage takes the write and the read,
    and both tokens are truthy (non-empty strings), [findAccessToken]
    after [storeAccessToken] returns the two tokens that were stored, with
    [expiresIn] 0 and [tokenType] "Bearer" whatever those were in the
    stored pair, and whatever the two filters are. *)
Theorem token_store_then_find
    (f1 f2 : SecurityDataFilter) (tokens : Tokens) (w : World) :
  fs_fault E (fs_ops w) = None ->
  fs_fault E (S (fs_ops w)) = None ->
  truthy (Some (accessToken tokens)) = true ->
  truthy (Some (refreshToken tokens)) = true ->
  let r1 := TokenStorage.storeAccessToken E toISOString shop f1 tokens w in
  fst r1 = Ok tt
  /\ fst (TokenStorage.findAccessToken E shop f2 (snd r1))
     = Ok (Some (mkTokens (accessToken tokens) (refreshToken tokens)
                          0 "Bearer")).
Proof.
  intros Hf1 Hf2 Ha Hr r1. subst r1.
  rewrite (storeAccessToken_run f1 tokens w Hf1). cbn [fst snd].
  split; [reflexivity|].
  unfold TokenStorage.findAccessToken, bind, TokenStorage.doc_get.
  cbn [advance fs_ops store Nat.add]. rewrite Hf2.
  fold path. rewrite lookup_insert_eq.
  assert (Hdoc : exists fields,
    Firestore.merge_doc (store w !! path)
      [("accessToken", accessToken tokens);
       ("refreshToken", refreshToken tokens);
       ("updatedAt", JStr (toISOString (clock_ms w)))] = JObj fields
    /\ assoc "accessToken" fields = Some (accessToken tokens)
    /\ assoc "refreshToken" fields = Some (refreshToken tokens)).
  { unfold Firestore.merge_doc, Firestore.merge_fields.
    destruct (store w !! path) as [[]|]; eexists; repeat split. }
  destruct Hdoc as (fields & -> & Hfa & Hfr).
  cbn [truthy prop negb orb]. rewrite Hfa, Hfr, Ha, Hr. reflexivity.
Qed.

(** X19. [findAccessToken] treats a partial record as an absent one: when
    the read is taken, it returns [undefined] if there is no document, and
    if the document lacks a truthy [accessToken] or a truthy
    [refreshToken]; it returns the pair (with [expiresIn] 0 and
    [tokenType] "Bearer") when both are truthy; a refused read is thrown
    on; and in every case the database is as it was. *)
Theorem token_find_needs_both_tokens
    (f : SecurityDataFilter) (w : World) :
  let r := TokenStorage.findAccessToken E shop f w in
  store (snd r) = store w
  /\ sets (trace (snd r)) = sets (trace w)
  /\ (forall e, fs_fault E (fs_ops w) = Some e -> fst r = Throw e)
  /\ (fs_fault E (fs_ops w) = None ->
      match store w !! path with
      | None => fst r = Ok None
      | Some data =>
          if truthy (prop data "accessToken") && truthy (prop data "refreshToken")
          then fst r = Ok (Some (mkTokens (defined (prop data "accessToken"))
                                          (defined (prop data "refreshToken"))
                                          0 "Bearer"))
          else fst r = Ok None
      end).
Proof.
  intros r. subst r.
  unfold TokenStorage.findAccessToken, bind, TokenStorage.doc_get.
  fold path.
  destruct (fs_fault E (fs_ops w)) as [e|] eqn:Hf.
  - cbn [fst snd tick_fs store trace]. repeat split.
    + intros e' [= <-]. reflexivity.
    + intros H. discriminate H.
  - split; [|split; [|split; [intros e H; discriminate H|intros _]]].
    + destruct (store w !! path) as [data|]; [destruct (_ || _)|]; reflexivity.
    + destruct (store w !! path) as [data|]; [destruct (_ || _)|];
        unfold log, ret, emit; cbn [fst snd tick_fs store trace];
        rewrite ?sets_app; cbn [sets omap]; rewrite ?app_nil_r; reflexivity.
    + destruct (store w !! path) as [data|]; [|reflexivity].
      assert (Hcond :
        negb (truthy (Some data)) || negb (truthy (prop data "accessToken"))
        || negb (truthy (prop data "refreshToken"))
        = negb (truthy (prop data "accessToken")
                && truthy (prop data "refreshToken"))).
      { destruct data as [|b|n|s|items|fs]; cbn [prop truthy negb orb andb];
          rewrite ?orb_true_r; try reflexivity.
        destruct (truthy (assoc "accessToken" fs)),
                 (truthy (assoc "refreshToken" fs)); reflexivity. }
      rewrite Hcond. destruct (_ && _); reflexivity.
Qed.

(** X20. [storeAccessToken] writes one document and merges into it: when
    the storage takes the write, every other document is as it was; the
    document of the shop holds the two tokens and the time of the write;
    and a field the document had before under another name is kept. A
    refused write is thrown on and changes nothing. *)
Theorem token_store_merges_into_one_document
    (f : SecurityDataFilter) (tokens : Tokens) (w : World) :
  let r := TokenStorage.storeAccessToken E toISOString shop f tokens w in
  (forall e, fs_fault E (fs_ops w) = Some e ->
     fst r = Throw e /\ store (snd r) = store w)
  /\ (fs_fault E (fs_ops w) = None ->
      (forall other, other <> path -> store (snd r) !! other = store w !! other)
      /\ exists fields,
           store (snd r) !! path = Some (JObj fields)
           /\ assoc "accessToken" fields = Some (accessToken tokens)
           /\ assoc "refreshToken" fields = Some (refreshToken tokens)
           /\ assoc "updatedAt" fields
              = Some (JStr (toISOString (clock_ms w)))
           /\ (forall old k,
                 store w !! path = Some (JObj old) ->
                 k <> "accessToken" -> k <> "refreshToken" ->
                 k <> "updatedAt" ->
                 assoc k fields = assoc k old)).
Proof.
  intros r. subst r. split.
  - intros e Hf.
    unfold TokenStorage.storeAccessToken, bind, TokenStorage.now_ms,
      TokenStorage.doc_set_merge, Firestore.fs_op.
    cbv beta iota zeta. rewrite Hf. split; reflexivity.
  - intros Hf. rewrite (storeAccessToken_run f tokens w Hf).
    cbn [fst snd advance store]. split.
    + intros other Hne. apply lookup_insert_ne. congruence.
    + rewrite lookup_insert_eq.
      unfold Firestore.merge_doc.
      destruct (store w !! path) as [[| | | | |old]|] eqn:Hold;
        eexists; (split; [reflexivity|]); repeat split;
        try (intros old' k H; discriminate H).
      intros old' k [= <-] Hk1 Hk2 Hk3.
      apply String.eqb_neq in Hk1, Hk2, Hk3.
      assert (Hn : assoc k [("accessToken", accessToken tokens);
                            ("refreshToken", refreshToken tokens);
                            ("updatedAt", JStr (toISOString (clock_ms w)))]
                   = None)
        by (cbn [assoc]; rewrite Hk1, Hk2, Hk3; reflexivity).
      unfold Firestore.merge_fields. rewrite assoc_app, Hn.
      apply assoc_filter_other. exact Hn.
Qed.

End Tokens.

(* ===================================================================== *)
(** ** What persistBatch leaves in the database *)
(* ===================================================================== *)

Lemma apply_writes_nodup (b : list (string * Entry)) :
  forall s wr,
  NoDup (List.map fst b) -> In wr b ->
  Firestore.apply_writes s b !! fst wr
  = Some (Firestore.merge_doc (s !! fst wr) (snd wr)).
Proof.
  unfold Firestore.apply_writes.
  induction b as [|wr0 rest IH]; intros s wr Hnd Hin; [destruct Hin|].
  cbn [List.map] in Hnd. apply NoDup_cons in Hnd as [Hnotin Hnd].
  cbn [fold_left]. destruct Hin as [<- | Hin].
  - change (fold_left Firestore.apply_write rest (Firestore.apply_write s wr0))
      with (Firestore.apply_writes (Firestore.apply_write s wr0) rest).
    rewrite apply_writes_other.
    + unfold Firestore.apply_write. apply lookup_insert_eq.
    + intros wr' Hin' Heq. apply Hnotin. rewrite <- Heq.
      apply list_elem_of_In. apply List.in_map. exact Hin'.
  - rewrite (IH _ wr Hnd Hin). do 2 f_equal.
    unfold Firestore.apply_write. apply lookup_insert_ne.
    intros Heq. apply Hnotin. rewrite Heq.
    apply list_elem_of_In. apply List.in_map. exact Hin.
Qed.

Lemma own_keys_defined (e : Entry) (kv : string * JsValue) :
  In kv e -> is_defined (assoc (fst kv) e) = true.
Proof.
  induction e as [|[k v] rest IH]; intros Hin; [destruct Hin|].
  cbn [assoc]. destruct (String.eqb (fst kv) k) eqn:Hk; [reflexivity|].
  destruct Hin as [<- | Hin]; [|apply IH; exact Hin].
  cbn [fst] in Hk. rewrite String.eqb_refl in Hk. discriminate.
Qed.

Lemma filter_own_keys (e : Entry) :
  List.filter (fun kv => negb (is_defined (assoc (fst kv) e))) e = [].
Proof.
  assert (H : forall l, (forall kv, In kv l -> In kv e) ->
    List.filter (fun kv => negb (is_defined (assoc (fst kv) e))) l = []).
  { induction l as [|kv rest IH]; intros Hsub; [reflexivity|].
    cbn [List.filter]. rewrite (own_keys_defined e kv) by (apply Hsub; left; reflexivity).
    cbn [negb]. apply IH. intros kv' Hin. apply Hsub. right. exact Hin. }
  apply H. intros kv Hin. exact Hin.
Qed.

Lemma filter_twice {A} (P : A -> bool) (l : list A) :
  List.filter P (List.filter P l) = List.filter P l.
Proof.
  induction l as [|x rest IH]; [reflexivity|].
  cbn [List.filter]. destruct (P x) eqn:Hx; [|exact IH].
  cbn [List.filter]. rewrite Hx, IH. reflexivity.
Qed.

(** Merging a record into a document that already has it merged in gives
    the same document. *)
Lemma merge_doc_again (old : option JsValue) (e : Entry) :
  Firestore.merge_doc (Some (Firestore.merge_doc old e)) e
  = Firestore.merge_doc old e.
Proof.
  assert (Hself : Firestore.merge_fields e e = e).
  { unfold Firestore.merge_fields. rewrite filter_own_keys. apply app_nil_r. }
  assert (Hmerged : forall f,
    Firestore.merge_fields (Firestore.merge_fields f e) e
    = Firestore.merge_fields f e).
  { intros f. unfold Firestore.merge_fields.
    rewrite List.filter_app, filter_own_keys, filter_twice. reflexivity. }
  unfold Firestore.merge_doc at 2 3.
  destruct old as [[| | | | |f]|]; cbn [Firestore.merge_doc];
    rewrite ?Hself, ?Hmerged; reflexivity.
Qed.

Lemma batch_paths_nodup (entries : list Entry) :
  List.map fst (batch_of entries)
  = List.map LedgerSync.entry_path (valid_entries entries).
Proof. unfold batch_of. rewrite List.map_map. reflexivity. Qed.

(** X21. After a [persistBatch] that the storage took, every entry that
    was kept has a document at the path of its identifier, and every
    document at another path is as it was. When the kept entries have
    different identifiers, the document of each is the entry merged into
    what the path held (the entry itself where the path was free). *)
Theorem persistBatch_documents
    (E : Env) (entries : list Entry) (w : World) :
  fs_fault E (fs_ops w) = None ->
  let r := LedgerSync.persistBatch E entries w in
  (forall e, In e (valid_entries entries) ->
     is_Some (store (snd r) !! LedgerSync.entry_path e))
  /\ (forall path,
        (forall e, In e (valid_entries entries) ->
           LedgerSync.entry_path e <> path) ->
        store (snd r) !! path = store w !! path)
  /\ (NoDup (List.map LedgerSync.entry_path (valid_entries entries)) ->
      forall e, In e (valid_entries entries) ->
        store (snd r) !! LedgerSync.entry_path e
        = Some (Firestore.merge_doc (store w !! LedgerSync.entry_path e) e)
        /\ (store w !! LedgerSync.entry_path e = None ->
            store (snd r) !! LedgerSync.entry_path e = Some (JObj e))).
Proof.
  intros Hf r. subst r. rewrite (persistBatch_run E entries w Hf).
  cbn [snd advance store]. split; [|split].
  - intros e Hin.
    assert (Hgen : forall b s, In e (List.map snd b) ->
      (forall wr, In wr b -> fst wr = LedgerSync.entry_path (snd wr)) ->
      is_Some (Firestore.apply_writes s b !! LedgerSync.entry_path e)).
    { unfold Firestore.apply_writes.
      induction b as [|wr rest IH] using rev_ind; intros s Hine Hp;
        [destruct Hine|].
      rewrite fold_left_app. cbn [fold_left]. unfold Firestore.apply_write at 1.
      rewrite List.map_app in Hine. apply List.in_app_or in Hine.
      destruct (decide (fst wr = LedgerSync.entry_path e)) as [Heq|Hne].
      - rewrite Heq, lookup_insert_eq. eexists. reflexivity.
      - rewrite lookup_insert_ne by exact Hne.
        destruct Hine as [Hine|[Hine|[]]].
        + apply IH; [exact Hine|]. intros wr' Hin'. apply Hp.
          apply List.in_or_app. left. exact Hin'.
        + contradiction Hne. rewrite (Hp wr), Hine; [reflexivity|].
          apply List.in_or_app. right. left. reflexivity. }
    apply Hgen.
    + unfold batch_of. rewrite List.map_map. cbn [snd]. rewrite List.map_id.
      exact Hin.
    + intros wr Hin'. apply (batch_of_paths entries wr Hin').
  - intros path Hne. apply apply_writes_other. intros wr Hin.
    destruct (batch_of_paths entries wr Hin) as [-> Hv]. apply Hne. exact Hv.
  - intros Hnd e Hin.
    assert (Hwr : In (LedgerSync.entry_path e, e) (batch_of entries))
      by (unfold batch_of; apply List.in_map_iff; exists e; split;
          [reflexivity|exact Hin]).
    rewrite <- batch_paths_nodup in Hnd.
    pose proof (apply_writes_nodup (batch_of entries) (store w) _ Hnd Hwr) as H.
    cbn [fst snd] in H. split; [exact H|].
    intros Hfree. rewrite H, Hfree. reflexivity.
Qed.

(** X22. Persisting a page again changes nothing: when the kept entries
    have different identifiers and the storage takes both commits, a second
    [persistBatch] of the same entries leaves the database as the first
    left it, and returns the same count. *)
Theorem persistBatch_again_changes_nothing
    (E : Env) (entries : list Entry) (w : World) :
  fs_fault E (fs_ops w) = None ->
  fs_fault E (S (fs_ops w)) = None ->
  NoDup (List.map LedgerSync.entry_path (valid_entries entries)) ->
  let r1 := LedgerSync.persistBatch E entries w in
  let r2 := LedgerSync.persistBatch E entries (snd r1) in
  store (snd r2) = store (snd r1) /\ fst r2 = fst r1.
Proof.
  intros Hf1 Hf2 Hnd r1 r2.
  assert (Hr1 : r1 = (Ok (len (valid_entries entries)),
                      advance (Firestore.apply_writes (store w) (batch_of entries))
                              (persist_events entries) 0 (commit_count entries) w))
    by (apply persistBatch_run; exact Hf1).
  assert (Hr2 : r2 = (Ok (len (valid_entries entries)),
                      advance (Firestore.apply_writes (store (snd r1))
                                                      (batch_of entries))
                              (persist_events entries) 0 (commit_count entries)
                              (snd r1))).
  { apply persistBatch_run_local. intros Hc. rewrite Hr1.
    cbn [snd advance fs_ops]. rewrite Hc. exact Hf2. }
  rewrite Hr2. cbn [fst snd advance store]. rewrite Hr1. cbn [fst snd advance store].
  split; [|reflexivity].
  rewrite <- batch_paths_nodup in Hnd.
  apply map_eq. intros path.
  destruct (in_dec String.string_dec path (List.map fst (batch_of entries)))
    as [Hin|Hnotin].
  - apply List.in_map_iff in Hin. destruct Hin as (wr & <- & Hin).
    rewrite (apply_writes_nodup (batch_of entries) _ wr Hnd Hin).
    rewrite (apply_writes_nodup (batch_of entries) (store w) wr Hnd Hin).
    f_equal. apply merge_doc_again.
  - rewrite apply_writes_other; [reflexivity|].
    intros wr Hin Heq. apply Hnotin. rewrite <- Heq. apply List.in_map. exact Hin.
Qed.

(** X23. An identifier that is there but falsy (0, the empty string,
    [null], [false]) counts as missing: [persistBatch] drops the entry,
    logs it, and writes nothing for it. *)
Theorem persistBatch_drops_falsy_ids
    (E : Env) (entries : list Entry) (w : World) (e : Entry) (v : JsValue) :
  fs_fault E (fs_ops w) = None ->
  In e entries ->
  assoc "entry_id" e = Some v ->
  v = JNum 0 \/ v = JStr "" \/ v = JNull \/ v = JBool false ->
  let r := LedgerSync.persistBatch E entries w in
  In (JObj e) (warned (trace (snd r)))
  /\ forall b, In b (commits (trace (snd r))) -> In b (commits (trace w))
               \/ ~ In e (List.map snd b).
Proof.
  intros Hf Hin Hid Hv r. subst r.
  assert (Hno : has_id e = false).
  { unfold has_id. rewrite Hid.
    destruct Hv as [-> | [-> | [-> | ->]]]; reflexivity. }
  rewrite (persistBatch_run E entries w Hf). cbn [snd advance trace].
  rewrite warned_app, warned_persist, commits_app, commits_persist. split.
  - apply List.in_or_app. right. apply List.in_map.
    unfold dropped_entries. apply List.filter_In. split; [exact Hin|].
    rewrite Hno. reflexivity.
  - intros b Hb. apply List.in_app_or in Hb. destruct Hb as [Hb|Hb]; [left; exact Hb|].
    right. destruct (batch_of entries) as [|x xs] eqn:Hbatch; [destruct Hb|].
    destruct Hb as [<- | []]. rewrite <- Hbatch.
    unfold batch_of. rewrite List.map_map. cbn [snd]. rewrite List.map_id.
    unfold valid_entries. rewrite List.filter_In. intros [_ H].
    rewrite Hno in H. discriminate.
Qed.

(* ===================================================================== *)
(** ** The cursor on documents that keep the entry under [body] *)
(* ===================================================================== *)

Lemma candidates_spec (c : string) (f : list string) (s : gmap string JsValue)
    (p : string) (d k : JsValue) :
  In (p, d, k) (Firestore.candidates c f s)
  <-> s !! p = Some d /\ Firestore.child_of c p = true
      /\ Firestore.field_at f d = Some k.
Proof.
  unfold Firestore.candidates. rewrite <- list_elem_of_In, list_elem_of_omap.
  split.
  - intros ([p' d'] & Hin & Hg). apply elem_of_map_to_list in Hin.
    cbn [fst snd] in Hg.
    destruct (Firestore.child_of c p') eqn:Hc; [|discriminate].
    destruct (Firestore.field_at f d') eqn:Hf; [|discriminate].
    injection Hg as -> -> ->. repeat split; assumption.
  - intros (Hs & Hc & Hf). exists (p, d). split.
    + apply elem_of_map_to_list. exact Hs.
    + cbn [fst snd]. rewrite Hc, Hf. reflexivity.
Qed.

Lemma pick_first_best (l : list Firestore.Candidate) :
  forall b zb,
  snd b = JNum zb ->
  (forall c, In c l -> exists z, snd c = JNum z) ->
  exists best zbest,
    fold_left Firestore.pick_first l (Some b) = Some best
    /\ (best = b \/ In best l)
    /\ snd best = JNum zbest
    /\ (zb <= zbest)%Z
    /\ forall c z, In c l -> snd c = JNum z -> (z <= zbest)%Z.
Proof.
  induction l as [|c rest IH]; intros b zb Hb Hnum.
  - exists b, zb. cbn [fold_left]. repeat split; try tauto; try lia.
    intros c z [].
  - destruct (Hnum c (or_introl eq_refl)) as (zc & Hc).
    cbn [fold_left Firestore.pick_first].
    assert (Hrest : forall c', In c' rest -> exists z, snd c' = JNum z)
      by (intros c' Hin; apply Hnum; right; exact Hin).
    destruct (Firestore.before_desc c b) eqn:Hbd.
    + assert (Hle : (zb <= zc)%Z).
      { unfold Firestore.before_desc in Hbd.
        destruct c as [[pc dc] kc], b as [[pb db] kb]. cbn [snd] in Hb, Hc.
        subst kb kc. cbn [Firestore.value_ltb] in Hbd.
        destruct (zb <? zc)%Z eqn:H1; [apply Z.ltb_lt in H1; lia|].
        destruct (zc <? zb)%Z eqn:H2; [discriminate|].
        apply Z.ltb_ge in H2. exact H2. }
      destruct (IH c zc Hc Hrest) as (best & zbest & Hfold & Hin & Hk & Hge & Hall).
      exists best, zbest. split; [exact Hfold|].
      split; [right; destruct Hin as [-> | Hin]; [left; reflexivity|right; exact Hin]|].
      split; [exact Hk|]. split; [lia|].
      intros c' z [<- | Hin'] Hz; [|apply (Hall c' z Hin' Hz)].
      rewrite Hc in Hz. injection Hz as <-. exact Hge.
    + assert (Hle : (zc <= zb)%Z).
      { unfold Firestore.before_desc in Hbd.
        destruct c as [[pc dc] kc], b as [[pb db] kb]. cbn [snd] in Hb, Hc.
        subst kb kc. cbn [Firestore.value_ltb] in Hbd.
        destruct (zb <? zc)%Z eqn:H1; [discriminate|].
        apply Z.ltb_ge in H1. exact H1. }
      destruct (IH b zb Hb Hrest) as (best & zbest & Hfold & Hin & Hk & Hge & Hall).
      exists best, zbest. split; [exact Hfold|].
      split; [destruct Hin as [-> | Hin]; [left; reflexivity|right; right; exact Hin]|].
      split; [exact Hk|]. split; [exact Hge|].
      intros c' z [<- | Hin'] Hz; [|apply (Hall c' z Hin' Hz)].
      rewrite Hc in Hz. injection Hz as <-. lia.
Qed.

(** The query, on a collection whose order field is numeric: the one
    document it returns holds the greatest value. *)
Lemma top_desc_greatest (s : gmap string JsValue) (path : string) (m : Z) :
  numeric_timestamps s ->
  ledger_timestamp s path m ->
  (forall p z, ledger_timestamp s p z -> (z <= m)%Z) ->
  exists d,
    Firestore.top_desc "events/etsy/ledgerentry" ["body"; "created_timestamp"] s
    = [d]
    /\ Firestore.field_at ["body"; "created_timestamp"] d = Some (JNum m).
Proof.
  intros Hnum (d0 & Hs0 & Hc0 & Hf0) Hmax.
  unfold Firestore.top_desc.
  set (l := Firestore.candidates "events/etsy/ledgerentry"
              ["body"; "created_timestamp"] s).
  assert (Hin0 : In (path, d0, JNum m) l)
    by (apply candidates_spec; repeat split; assumption).
  assert (Hall : forall c, In c l -> exists z, snd c = JNum z).
  { intros [[p d] k] Hin. apply candidates_spec in Hin.
    destruct Hin as (Hs & Hc & Hf). cbn [snd]. apply (Hnum p d k Hs Hc Hf). }
  destruct l as [|c0 rest] eqn:Hl; [destruct Hin0|].
  destruct (Hall c0 (or_introl eq_refl)) as (z0 & Hz0).
  change (fold_left Firestore.pick_first (c0 :: rest) None)
    with (fold_left Firestore.pick_first rest (Some c0)).
  destruct (pick_first_best rest c0 z0 Hz0) as (best & zb & Hfold & Hin & Hk & Hge & Hother).
  { intros c Hc. apply Hall. right. exact Hc. }
  destruct best as [[pb db] kb]. cbn [snd] in Hk. subst kb.
  assert (Hbest : In (pb, db, JNum zb) (c0 :: rest))
    by (destruct Hin as [-> | Hin]; [left; reflexivity|right; exact Hin]).
  rewrite <- Hl in Hbest. apply candidates_spec in Hbest.
  destruct Hbest as (Hsb & Hcb & Hfb).
  assert (Hle1 : (zb <= m)%Z) by (apply (Hmax pb); exists db; repeat split; assumption).
  assert (Hle2 : (m <= zb)%Z).
  { destruct Hin0 as [Heq | Hin0].
    - rewrite Heq in Hz0. cbn [snd] in Hz0. injection Hz0 as <-. exact Hge.
    - apply (Hother _ m Hin0). reflexivity. }
  assert (Hpick : forall o : option Firestore.Candidate,
    o = Some (pb, db, JNum zb) ->
    match o with Some (_, data, _) => [data] | None => [] end = [db])
    by (intros o ->; reflexivity).
  exists db. split; [apply Hpick; exact Hfold|].
  rewrite Hfb. do 2 f_equal. lia.
Qed.

(** X24. The cursor on a collection that keeps the entries under [body]:
    when the query is taken, every [body.created_timestamp] of the ledger
    collection is a number and the greatest of them, [m], is not 0, both
    revisions of [getLastSyncTimestamp] return [m]. *)
Theorem cursor_is_greatest_body_timestamp
    (E : Env) (w : World) (path : string) (m : Z) :
  fs_fault E (fs_ops w) = None ->
  numeric_timestamps (store w) ->
  ledger_timestamp (store w) path m ->
  (forall p z, ledger_timestamp (store w) p z -> (z <= m)%Z) ->
  m <> 0%Z ->
  fst (LedgerSync.getLastSyncTimestamp E w) = Ok (JNum m)
  /\ fst (LedgerSyncGated.getLastSyncTimestamp E w) = Ok (Some (JNum m)).
Proof.
  intros Hf Hnum Hts Hmax Hm.
  destruct (top_desc_greatest (store w) path m Hnum Hts Hmax) as (d & Hq & Hfield).
  assert (Hcode :
    match prop d "body" with
    | None | Some JNull => None
    | Some body => prop body "created_timestamp"
    end = Some (JNum m)).
  { cbn [Firestore.field_at] in Hfield.
    destruct (prop d "body") as [b|]; [|discriminate].
    destruct (prop b "created_timestamp") as [t|] eqn:Ht; [|discriminate].
    injection Hfield as ->.
    destruct b; first [reflexivity|discriminate Ht]. }
  assert (Htruthy : truthy (Some (JNum m)) = true)
    by (cbn [truthy]; apply negb_true_iff, Z.eqb_neq; exact Hm).
  unfold LedgerSync.getLastSyncTimestamp, LedgerSyncGated.getLastSyncTimestamp,
    try_catch, bind.
  rewrite query_run, Hf, Hq. cbv zeta. rewrite Hcode, Htruthy.
  split; reflexivity.
Qed.

(* ===================================================================== *)
(** ** The properties above on sample data *)
(* ===================================================================== *)

Lemma keeps_storeAccessToken
    (E : Env) (toISOString : Z -> string) (shop : string)
    (f : SecurityDataFilter) (tokens : Tokens) (path : string) :
  path <> TokenStorage.token_path shop ->
  keeps path (TokenStorage.storeAccessToken E toISOString shop f tokens).
Proof.
  intros Hne w. unfold TokenStorage.storeAccessToken.
  unfold bind at 1. unfold TokenStorage.now_ms at 1.
  unfold bind, TokenStorage.doc_set_merge, Firestore.fs_op.
  destruct (fs_fault E (fs_ops w)); [reflexivity|].
  unfold log, emit, tick_fs, with_store, Firestore.apply_write.
  cbn [fst snd store]. apply lookup_insert_ne. congruence.
Qed.

Lemma keeps_refreshing_client
    (E : Env) (toISOString : Z -> string) (shop : string)
    (fresh : nat -> option Tokens) (path : string) (r : Request) :
  path <> TokenStorage.token_path shop ->
  keeps path (refreshing_client E toISOString shop fresh r).
Proof.
  intros Hne w. unfold refreshing_client.
  destruct (fresh (api_calls w)) as [tokens|]; [|apply keeps_api_fetch].
  apply (keeps_bind path); [apply keeps_storeAccessToken; exact Hne|].
  intros _. apply keeps_api_fetch.
Qed.

(** X6 on a database with a webhook document and a token document, and a
    client that refreshes its tokens before the second request: the three
    pages are synced, the token document holds the new tokens, and the
    webhook document is as it was. *)
Lemma fetch_leaves_webhook_document :
  let E := sample_env three_pages None false in
  let client := refreshing_client E sample_iso "7" refresh_once in
  let r := LedgerSyncWith.fetchAndPersistLedgerEntries
             E client (LedgerSync.page_request 7 (JNum 0) (JNum 9)) 10
             busy_world in
  fst r = Ok 237%Z
  /\ store (snd r) !! "events/starling/feeditem/evt-7f3a" = Some event_with_id
  /\ store (snd r) !! "config/etsy/oauth/7"
     = Some (JObj [("accessToken", JStr "at-2");
                   ("refreshToken", JStr "rt-2");
                   ("updatedAt", JStr "2027-01-15T00:00:00.000Z");
                   ("scope", JStr "transactions_r")])
  /\ List.map fst (sets (trace (snd r))) = ["config/etsy/oauth/7"].
Proof.
  intros E client r.
  destruct (fetch_touches_only_ledger_documents
              E client 7 (JNum 0) (JNum 9) 10
              "events/starling/feeditem/evt-7f3a") as [H _].
  - vm_compute. reflexivity.
  - intros q. apply keeps_refreshing_client. vm_compute. discriminate.
  - split; [vm_compute; reflexivity|].
    split; [subst r; rewrite (H busy_world); vm_compute; reflexivity|].
    split; vm_compute; reflexivity.
Defined.

(** X7 on the three sample pages: 237 is the number of writes committed. *)
Lemma fetch_count_on_three_pages :
  exists batches,
    commits (trace (snd (LedgerSync.fetchAndPersistLedgerEntries
                           (sample_env three_pages None false) 7 (JNum 0)
                           (JNum 9) 10 empty_world)))
    = commits (trace empty_world) ++ batches
    /\ 237%Z = written batches.
Proof.
  apply (fetch_count_is_writes_committed
           (sample_env three_pages None false) 7 (JNum 0) (JNum 9) 10
           empty_world 237).
  vm_compute. reflexivity.
Defined.

(** X8 on an empty database at the clock 1800000000: the window is from
    1797408000 to 1800000000. *)
Lemma sync_window_on_empty_database :
  exists k,
    0 < k <= 10
    /\ fetches (trace (snd (LedgerSync.etsyLedgerSync
                              (sample_env three_pages None false) cfg_unset 10
                              empty_world)))
       = fetches (trace empty_world)
         ++ List.map (fun i => mkRequest 7 (JNum 1797408000)
                                 (JNum (clock_ms empty_world / 1000)) 100
                                 (100 * Z.of_nat i) (Some 0%Z)) (seq 0 k)
    /\ queries (trace (snd (LedgerSync.etsyLedgerSync
                              (sample_env three_pages None false) cfg_unset 10
                              empty_world)))
       = queries (trace empty_world)
         ++ [("events/etsy/ledgerentry", "body.created_timestamp")].
Proof.
  apply (sync_window_is_cursor_to_now
           (sample_env three_pages None false) cfg_unset 10 empty_world 7
           (JNum 1797408000)).
  - vm_compute. reflexivity.
  - vm_compute. reflexivity.
  - lia.
Defined.

(** X9 on an empty database: the cursor is [null], the window is from 0
    to 2592000. *)
Lemma gated_sync_window_on_empty_database :
  exists k,
    0 < k <= 10
    /\ fetches (trace (snd (LedgerSyncGated.etsyLedgerSync
                              (sample_env three_pages None false) cfg_enabled 10
                              empty_world)))
       = fetches (trace empty_world)
         ++ List.map (fun i => mkRequest 7 (JNum 0) (add_num (JNum 0) 2592000)
                                 100 (100 * Z.of_nat i) None) (seq 0 k)
    /\ queries (trace (snd (LedgerSyncGated.etsyLedgerSync
                              (sample_env three_pages None false) cfg_enabled 10
                              empty_world)))
       = queries (trace empty_world)
         ++ [("events/etsy/ledgerentry", "body.created_timestamp")].
Proof.
  apply (gated_sync_window_is_thirty_days
           (sample_env three_pages None false) cfg_enabled 10 empty_world 7 None).
  - vm_compute. reflexivity.
  - vm_compute. reflexivity.
  - vm_compute. reflexivity.
  - lia.
Defined.

(** X10 on the shop id "shop-7". *)
Lemma sync_rejects_shop_7 :
  fst (LedgerSync.etsyLedgerSync (sample_env three_pages None false)
         cfg_bad_shop 10 busy_world)
  = Throw (JsError "Error" "Invalid ETSY_SHOP_ID configuration")
  /\ fst (LedgerSyncGated.etsyLedgerSync (sample_env three_pages None false)
            cfg_bad_shop 10 busy_world)
     = Throw (JsError "Error" "Invalid ETSY_SHOP_ID configuration").
Proof.
  destruct (sync_rejects_invalid_shop_id (sample_env three_pages None false)
              cfg_bad_shop 10 busy_world) as ((HA & _) & HB).
  - vm_compute. reflexivity.
  - split; [exact HA|]. apply HB. vm_compute. reflexivity.
Defined.

(** X11 on a remote API that fails at the first request. *)
Lemma sync_logs_network_error :
  exists tr,
    trace (snd (LedgerSync.etsyLedgerSync (failing_env []) cfg_unset 10
                  empty_world))
    = tr ++ [EvLog Err "Etsy ledger sync failed:" (Some (LErr network_error))].
Proof.
  destruct (sync_logs_the_error_it_throws (failing_env []) cfg_unset 10
              empty_world network_error) as (HA & _).
  apply HA. vm_compute. reflexivity.
Defined.

(** X12 on a full page that is persisted and a second page whose commit is
    refused. *)
Lemma second_commit_refused :
  let E := faulty_env [sample_page 1 100; sample_page 101 37] 1 None false in
  let r := LedgerSync.fetchAndPersistLedgerEntries E 7 (JNum 0) (JNum 9) 10
             empty_world in
  fst r = Throw storage_error
  /\ size (store (snd r)) = 100
  /\ api_calls (snd r) = 2.
Proof.
  intros E r.
  destruct (commit_refused_aborts_and_keeps_pages E 7 (JNum 0) (JNum 9)
              [sample_page 1 100] (sample_page 101 37) storage_error 10
              empty_world) as (Hres & Hstore & Hcalls & _).
  - cbn [app serves]. repeat split; vm_compute; reflexivity.
  - repeat constructor; unfold full_page; vm_compute; discriminate.
  - vm_compute. discriminate.
  - assert (Hc : commits_in [sample_page 1 100] = 1) by (vm_compute; reflexivity).
    rewrite Hc. cbn [empty_world fs_ops]. intros n Hn.
    assert (n = 0) as -> by lia. reflexivity.
  - vm_compute. reflexivity.
  - cbn [length]. lia.
  - subst r. rewrite Hres, Hstore, Hcalls. repeat split; vm_compute; reflexivity.
Defined.

(** X14 on a signed request whose body does not parse. *)
Lemma feeditem_unparsable_body :
  let r := FeedItem.starlingFeedItem (sample_env [] None true) req_signed
             busy_world in
  (exists e, fst r = Throw e) /\ store (snd r) = store busy_world.
Proof.
  destruct (feeditem_throws_on_unreadable_body (sample_env [] None true)
              req_signed busy_world) as (H1 & H2 & _).
  - vm_compute. reflexivity.
  - left. reflexivity.
  - split; [exact H1|exact H2].
Defined.

(** X15 on a signed event and a storage that refuses the write. *)
Lemma feeditem_write_refused :
  let r := FeedItem.starlingFeedItem
             (faulty_env [] 0 (Some event_with_id) true) req_signed
             empty_world in
  fst r = Throw storage_error /\ store (snd r) = ∅.
Proof.
  apply (feeditem_throws_on_refused_write
           (faulty_env [] 0 (Some event_with_id) true) req_signed empty_world
           event_with_id (JStr "evt-7f3a") storage_error); reflexivity.
Defined.

(** X16 on a database with a token document: an event is stored and the
    token document is as it was. *)
Lemma feeditem_leaves_token_document :
  let r := FeedItem.starlingFeedItem (accepting_env event_with_id) req_signed
             busy_world in
  fst r = Ok (mkHttpResponse 202 None)
  /\ store (snd r) !! "config/etsy/oauth/7"
     = store busy_world !! "config/etsy/oauth/7".
Proof.
  split; [vm_compute; reflexivity|].
  apply (feeditem_touches_only_feed_documents (accepting_env event_with_id)
           req_signed busy_world "config/etsy/oauth/7").
  vm_compute. reflexivity.
Defined.

(** X17 on a request whose signature header is empty. *)
Lemma verifiers_on_empty_signature :
  let E := accepting_env event_with_id in
  fst (FeedItem.verifyEvent E req_empty_signature empty_world) = Ok false
  /\ fst (Webhook.verifyEvent E req_empty_signature empty_world) = Ok false.
Proof.
  intros E.
  destruct (verifiers_reject_empty_signature E req_empty_signature empty_world)
    as (HF & HW).
  split; [apply HF|apply HW]; reflexivity.
Defined.

(** X18 on the shop 7: the pair stored with [expiresIn] 3600 comes back
    with [expiresIn] 0. *)
Lemma token_round_trip_for_shop_7 :
  let E := sample_env [] None false in
  let r1 := TokenStorage.storeAccessToken E sample_iso "7" (mkFilter 0)
              sample_tokens busy_world in
  fst (TokenStorage.findAccessToken E "7" (mkFilter 42) (snd r1))
  = Ok (Some (mkTokens (JStr "at-2") (JStr "rt-2") 0 "Bearer")).
Proof.
  intros E r1.
  destruct (token_store_then_find E sample_iso "7" (mkFilter 0) (mkFilter 42)
              sample_tokens busy_world) as (_ & H);
    [reflexivity|reflexivity|reflexivity|reflexivity|exact H].
Defined.

(** X19 on the shop 7 (tokens stored) and the shop 8 (nothing stored). *)
Lemma token_find_samples :
  let E := sample_env [] None false in
  fst (TokenStorage.findAccessToken E "7" (mkFilter 0) busy_world)
  = Ok (Some (mkTokens (JStr "at-1") (JStr "rt-1") 0 "Bearer"))
  /\ fst (TokenStorage.findAccessToken E "8" (mkFilter 0) busy_world) = Ok None.
Proof.
  intros E.
  destruct (token_find_needs_both_tokens E "7" (mkFilter 0) busy_world)
    as (_ & _ & _ & H7).
  destruct (token_find_needs_both_tokens E "8" (mkFilter 0) busy_world)
    as (_ & _ & _ & H8).
  split; [apply H7|apply H8]; reflexivity.
Defined.

(** X20 on the shop 7: the field [scope] of the stored document is kept. *)
Lemma token_store_keeps_scope :
  let E := sample_env [] None false in
  let r := TokenStorage.storeAccessToken E sample_iso "7" (mkFilter 0)
             sample_tokens busy_world in
  exists fields,
    store (snd r) !! "config/etsy/oauth/7" = Some (JObj fields)
    /\ assoc "accessToken" fields = Some (JStr "at-2")
    /\ assoc "scope" fields = Some (JStr "transactions_r").
Proof.
  intros E r.
  destruct (token_store_merges_into_one_document E sample_iso "7" (mkFilter 0)
              sample_tokens busy_world) as (_ & H).
  destruct H as (_ & fields & Hdoc & Ha & _ & _ & Hkeep); [reflexivity|].
  exists fields. split; [exact Hdoc|]. split; [exact Ha|].
  rewrite (Hkeep [("accessToken", JStr "at-1"); ("refreshToken", JStr "rt-1");
                  ("scope", JStr "transactions_r")] "scope");
    [reflexivity|reflexivity|discriminate|discriminate|discriminate].
Defined.

(** X21 on the ten sample records: the record 3 has its document, and the
    webhook document is as it was. *)
Lemma persistBatch_documents_of_ten_records :
  let r := LedgerSync.persistBatch (sample_env [] None false) ten_records
             busy_world in
  is_Some (store (snd r) !! "events/etsy/ledgerentry/3")
  /\ store (snd r) !! "events/starling/feeditem/evt-7f3a" = Some event_with_id.
Proof.
  destruct (persistBatch_documents (sample_env [] None false) ten_records
              busy_world) as (H1 & H2 & _); [reflexivity|].
  split.
  - apply (H1 (sample_entry 3)). vm_compute. tauto.
  - cbv zeta in H2. rewrite H2; [reflexivity|].
    intros e _. apply entry_path_inside. vm_compute. reflexivity.
Defined.

(** X22 on the ten sample records. *)
Lemma persistBatch_twice_ten_records :
  let E := sample_env [] None false in
  let r1 := LedgerSync.persistBatch E ten_records busy_world in
  let r2 := LedgerSync.persistBatch E ten_records (snd r1) in
  store (snd r2) = store (snd r1) /\ fst r2 = Ok 8%Z.
Proof.
  intros E r1 r2.
  destruct (persistBatch_again_changes_nothing E ten_records busy_world)
    as (Hs & Hr); try reflexivity.
  - apply (bool_decide_unpack _). vm_compute. reflexivity.
  - split; [exact Hs|]. subst r2 r1. rewrite Hr. vm_compute. reflexivity.
Defined.

(** X23 on a page with an entry whose identifier is 0. *)
Lemma persistBatch_drops_zero_id :
  let r := LedgerSync.persistBatch (sample_env [] None false)
             (zero_id_entry :: sample_page 1 2) empty_world in
  In (JObj zero_id_entry) (warned (trace (snd r)))
  /\ fst r = Ok 2%Z.
Proof.
  destruct (persistBatch_drops_falsy_ids (sample_env [] None false)
              (zero_id_entry :: sample_page 1 2) empty_world zero_id_entry
              (JNum 0)) as (H & _).
  - reflexivity.
  - left. reflexivity.
  - reflexivity.
  - left. reflexivity.
  - split; [exact H|vm_compute; reflexivity].
Defined.

Ltac map_cases H :=
  repeat (rewrite lookup_insert in H;
          destruct (decide _) as [?|?]; [injection H as ?; subst|]);
  try (rewrite lookup_empty in H; discriminate H).

(** X24 on the database of wrapped documents: 5 and 9 in the ledger
    collection, 100 in another one; the cursor is 9. *)
Lemma cursor_on_wrapped_store :
  let E := sample_env [] None false in
  fst (LedgerSync.getLastSyncTimestamp E (world_of wrapped_store))
  = Ok (JNum 9)
  /\ fst (LedgerSyncGated.getLastSyncTimestamp E (world_of wrapped_store))
     = Ok (Some (JNum 9)).
Proof.
  apply (cursor_is_greatest_body_timestamp (sample_env [] None false)
           (world_of wrapped_store) "events/etsy/ledgerentry/b" 9).
  - reflexivity.
  - intros path d v Hs Hc Hf. cbn [world_of store] in Hs.
    unfold wrapped_store in Hs. map_cases Hs;
      vm_compute in Hf; injection Hf as <-; eexists; reflexivity.
  - exists (wrapped 9). repeat split; vm_compute; reflexivity.
  - intros p z (d & Hs & Hc & Hf). cbn [world_of store] in Hs.
    unfold wrapped_store in Hs. map_cases Hs.
    + vm_compute in Hf. injection Hf as <-. lia.
    + vm_compute in Hf. injection Hf as <-. lia.
    + vm_compute in Hc. discriminate Hc.
  - lia.
Defined.
